(** * Preview sandbox bridge of polyglot-studio

    A shallow embedding of

    - [src/components/PreviewPanel.tsx] : the document composer
      [generatePreviewContent], the instrumentation script it injects
      (console shims, [sendToParent], the window error listener, the guarded
      block around the user's JavaScript), the sandboxed [iframe] and the
      host-side [handleMessage];
    - [src/App.tsx] : the host state holding the console log sequence and
      every handler that reads or writes it.

    The JavaScript platform functions the instrumentation relies on
    ([typeof], [String], [JSON.stringify(v, null, 2)], [Array.prototype.join],
    property reads, object allocation) are modelled in [Module Js] on a heap of
    objects, so that aliasing and reference cycles are represented. *)

From Stdlib Require Import ZArith List String Ascii Bool Lia.
From Stdlib Require Import DecimalString DecimalPos DecimalZ FinFun.
From Stdlib Require Import Permutation Sorted.
Import ListNotations.
Open Scope string_scope.

(** ** Characters that cannot be written inside a string literal *)

Definition dq : string := String (ascii_of_nat 34) EmptyString.
Definition nl : string := String (ascii_of_nat 10) EmptyString.
Definition bsl : string := String (ascii_of_nat 92) EmptyString.

(** [contains needle hay]: [needle] occurs in [hay] as a contiguous run. *)
Definition contains (needle hay : string) : bool :=
  match String.index 0 needle hay with
  | Some _ => true
  | None => false
  end.


(** * The JavaScript platform *)
Module Js.

(** Heap locations: an object is identified by its index in the heap. *)
Definition loc := nat.

(** JavaScript values.  [VNum n] is the integral Number [n] (the model covers
    the safe integers; fractional numbers, NaN and the infinities, functions,
    symbols and bigints are outside it).  Objects are references. *)
Inductive value : Type :=
| VUndefined
| VNull
| VBool (b : bool)
| VNum (n : Z)
| VStr (s : string)
| VRef (l : loc).

(** Heap objects.  A plain object lists its own enumerable string-keyed
    properties in enumeration order; an [Error] instance carries [name] and
    [message], neither of which is enumerable. *)
Inductive object : Type :=
| OPlain (props : list (string * value))
| OArray (elems : list value)
| OError (name message : string).

Definition heap := list object.

Definition lookup (h : heap) (l : loc) : object := nth l h (OPlain []).

Definition value_eqb (a b : value) : bool :=
  match a, b with
  | VUndefined, VUndefined => true
  | VNull, VNull => true
  | VBool x, VBool y => Bool.eqb x y
  | VNum x, VNum y => Z.eqb x y
  | VStr x, VStr y => String.eqb x y
  | VRef x, VRef y => Nat.eqb x y
  | _, _ => false
  end.

(** [a === b] on the modelled values. *)
Definition strict_equals (a b : value) : bool := value_eqb a b.

(** The result of [typeof v]. *)
Definition typeof (v : value) : string :=
  match v with
  | VUndefined => "undefined"
  | VNull => "object"
  | VBool _ => "boolean"
  | VNum _ => "number"
  | VStr _ => "string"
  | VRef _ => "object"
  end.

(** The numbers of the embedding are the safe integers, of magnitude below
    2^53: on them the arithmetic of the code is exact. *)
Definition safe_integer (n : Z) : bool :=
  (Z.abs n <=? 9007199254740991)%Z.

(** [Number.prototype.toString] on a safe integer: its decimal digits.  From
    2^53 on the code prints the digits of the nearest double, and from 10^21
    on an exponent form; statements about printed numbers assume
    [safe_integer]. *)
Definition Number_toString (n : Z) : string :=
  NilZero.string_of_int (Z.to_int n).

(** Association-list lookup of an own property. *)
Fixpoint assoc (k : string) (ps : list (string * value)) : option value :=
  match ps with
  | [] => None
  | (k', v) :: ps' => if String.eqb k k' then Some v else assoc k ps'
  end.

(** The result of reading property [k] of [v], for a name [k] that no built-in
    prototype other than [Error.prototype] defines ([type], [level],
    [message], [timestamp] are such names).  [None] is the [TypeError] of
    reading a property of [undefined] or [null]. *)
Definition get (h : heap) (v : value) (k : string) : option value :=
  match v with
  | VUndefined | VNull => None
  | VBool _ | VNum _ | VStr _ => Some VUndefined
  | VRef l =>
      match lookup h l with
      | OPlain ps =>
          match assoc k ps with
          | Some x => Some x
          | None => Some VUndefined
          end
      | OArray _ => Some VUndefined
      | OError name message =>
          if String.eqb k "message" then Some (VStr message)
          else if String.eqb k "name" then Some (VStr name)
          else Some VUndefined
      end
  end.

(** *** JSON.stringify *)

Definition hex_digit (n : nat) : string :=
  String.substring n 1 "0123456789abcdef".

(** One character of a quoted JSON string. *)
Definition quote_char (c : ascii) : string :=
  let n := nat_of_ascii c in
  if Nat.eqb n 34 then bsl ++ dq
  else if Nat.eqb n 92 then bsl ++ bsl
  else if Nat.eqb n 8 then bsl ++ "b"
  else if Nat.eqb n 12 then bsl ++ "f"
  else if Nat.eqb n 10 then bsl ++ "n"
  else if Nat.eqb n 13 then bsl ++ "r"
  else if Nat.eqb n 9 then bsl ++ "t"
  else if Nat.ltb n 32 then
    bsl ++ "u00" ++ hex_digit (Nat.div n 16) ++ hex_digit (Nat.modulo n 16)
  else String c EmptyString.

Fixpoint quote_chars (s : string) : string :=
  match s with
  | EmptyString => EmptyString
  | String c s' => quote_char c ++ quote_chars s'
  end.

(** QuoteJSONString. *)
Definition quote (s : string) : string := dq ++ quote_chars s ++ dq.

(** The three ways the serializer can end: with a text ([None] is the
    [undefined] result of a value that has no JSON form), with the
    [TypeError] of a circular structure, or out of fuel. *)
Inductive ser_result : Type :=
| SerOk (text : option string)
| SerCyclic
| SerFuel.

(** The indentation unit selected by the third argument [2]. *)
Definition gap : string := "  ".

(** Serializes the elements of an array: holes of [undefined] become
    [null]. *)
Fixpoint ser_elems (f : value -> ser_result) (vs : list value)
  : option (option (list string)) :=
  match vs with
  | [] => Some (Some [])
  | v :: vs' =>
      match f v with
      | SerFuel => None
      | SerCyclic => Some None
      | SerOk t =>
          match ser_elems f vs' with
          | Some (Some ts) =>
              Some (Some (match t with Some s => s | None => "null" end :: ts))
          | r => r
          end
      end
  end.

(** Serializes the properties of an object: a property whose value has no
    JSON form is left out. *)
Fixpoint ser_props (f : value -> ser_result) (ps : list (string * value))
  : option (option (list string)) :=
  match ps with
  | [] => Some (Some [])
  | (k, v) :: ps' =>
      match f v with
      | SerFuel => None
      | SerCyclic => Some None
      | SerOk t =>
          match ser_props f ps' with
          | Some (Some ts) =>
              Some (Some (match t with
                          | Some s => (quote k ++ ": " ++ s) :: ts
                          | None => ts
                          end))
          | r => r
          end
      end
  end.

(** Wraps the serialized members between brackets, one member per line. *)
Definition wrap (open close indent : string) (members : list string) : string :=
  match members with
  | [] => open ++ close
  | _ =>
      open ++ nl ++ (indent ++ gap)
        ++ String.concat ("," ++ nl ++ indent ++ gap) members
        ++ nl ++ indent ++ close
  end.

(** SerializeJSONProperty with the stack of objects being serialized. *)
Fixpoint serialize (fuel : nat) (h : heap) (stack : list loc) (indent : string)
  (v : value) : ser_result :=
  match v with
  | VUndefined => SerOk None
  | VNull => SerOk (Some "null")
  | VBool b => SerOk (Some (if b then "true" else "false"))
  | VNum n => SerOk (Some (Number_toString n))
  | VStr s => SerOk (Some (quote s))
  | VRef l =>
      if existsb (Nat.eqb l) stack then SerCyclic
      else
        match fuel with
        | O => SerFuel
        | S fuel' =>
            let inner := serialize fuel' h (l :: stack) (indent ++ gap) in
            match lookup h l with
            | OPlain ps =>
                match ser_props inner ps with
                | None => SerFuel
                | Some None => SerCyclic
                | Some (Some ms) => SerOk (Some (wrap "{" "}" indent ms))
                end
            | OArray es =>
                match ser_elems inner es with
                | None => SerFuel
                | Some None => SerCyclic
                | Some (Some ms) => SerOk (Some (wrap "[" "]" indent ms))
                end
            | OError _ _ => SerOk (Some "{}")
            end
        end
  end.

(** [JSON.stringify(v, null, 2)].  The nesting depth of a serialization is
    bounded by the number of objects in the heap, which fixes the fuel. *)
Definition JSON_stringify (h : heap) (v : value) : ser_result :=
  serialize (S (List.length h)) h [] EmptyString v.

(** [String(v)] on a primitive. *)
Definition String_ (v : value) : string :=
  match v with
  | VUndefined => "undefined"
  | VNull => "null"
  | VBool b => if b then "true" else "false"
  | VNum n => Number_toString n
  | VStr s => s
  | VRef _ => "[object Object]"
  end.

(** [Array.prototype.join] on an array of strings and [undefined]s: an
    [undefined] element contributes the empty string. *)
Definition join (sep : string) (items : list (option string)) : string :=
  String.concat sep
    (map (fun i => match i with Some s => s | None => EmptyString end) items).

(** *** Object graphs *)


(** [v] is no number outside the safe integers. *)
Definition safe_value (v : value) : bool :=
  match v with
  | VNum n => safe_integer n
  | _ => true
  end.



(** The text of one console argument as the specification words it: an
    object-typed argument by its pretty-printed JSON, a primitive by its
    natural string form. *)
Definition arg_text (h : heap) (a : value) : option string :=
  match a with
  | VNull | VRef _ =>
      match JSON_stringify h a with
      | SerOk (Some t) => Some t
      | _ => None
      end
  | VUndefined => Some "undefined"
  | VBool true => Some "true"
  | VBool false => Some "false"
  | VNum n => Some (Number_toString n)
  | VStr s => Some s
  end.

Definition is_primitive (v : value) : bool :=
  match v with
  | VBool _ | VNum _ | VStr _ => true
  | _ => false
  end.

Definition is_string (v : value) : bool :=
  match v with
  | VStr _ => true
  | _ => false
  end.

End Js.

(** * The instrumentation script of the composed document *)
Module Sandbox.
Import Js.

(** The four console methods the script shadows. *)
Inductive LogLevel : Type := Log | Error | Warn | Info.

Definition level_name (m : LogLevel) : string :=
  match m with
  | Log => "log"
  | Error => "error"
  | Warn => "warn"
  | Info => "info"
  end.

(** What the document does to the world outside its script: calls of the
    browser's own console methods, and messages posted to the parent window.
    A posted message carries the object graph it was cloned from. *)
Inductive effect : Type :=
| NativeConsole (method : LogLevel) (args : list value)
| PostMessage (data : value) (graph : heap) (targetOrigin : string).

(** The state of the isolated context: its heap, the reading of its clock as
    [new Date().toISOString()] renders it, and the effects so far. *)
Record sandbox : Type := mkSandbox {
  sb_heap : heap;
  sb_now : string;
  sb_out : list effect
}.

(** A statement either completes or throws a value. *)
Inductive outcome (A : Type) : Type :=
| Return (a : A)
| Throw (v : value).
Arguments Return {A} a.
Arguments Throw {A} v.

Definition JS (A : Type) : Type := sandbox -> outcome A * sandbox.

Definition ret {A} (a : A) : JS A := fun sb => (Return a, sb).

Definition bind {A B} (c : JS A) (k : A -> JS B) : JS B :=
  fun sb =>
    match c sb with
    | (Return a, sb') => k a sb'
    | (Throw v, sb') => (Throw v, sb')
    end.

Definition throw {A} (v : value) : JS A := fun sb => (Throw v, sb).

(** [try { body } catch (error) { handler }]. *)
Definition try_catch {A} (body : JS A) (handler : value -> JS A) : JS A :=
  fun sb =>
    match body sb with
    | (Return a, sb') => (Return a, sb')
    | (Throw v, sb') => handler v sb'
    end.

Declare Scope js_scope.
Delimit Scope js_scope with js.
Notation "x <- c ;; k" := (bind c (fun x => k))
  (at level 61, c at next level, right associativity) : js_scope.
Notation "c ;; k" := (bind c (fun _ => k))
  (at level 61, right associativity) : js_scope.
Open Scope js_scope.

(** Allocation of a fresh object. *)
Definition alloc (o : object) : JS value :=
  fun sb =>
    (Return (VRef (List.length (sb_heap sb))),
     mkSandbox (sb_heap sb ++ [o])%list (sb_now sb) (sb_out sb)).

Definition emit (e : effect) : JS unit :=
  fun sb => (Return tt, mkSandbox (sb_heap sb) (sb_now sb) (sb_out sb ++ [e])%list).

(** [throw new <name>(message)]. *)
Definition throw_new {A} (name message : string) : JS A :=
  e <- alloc (OError name message) ;; throw e.

(** [v.k]; reading a property of [undefined] or [null] throws. *)
Definition get_property (v : value) (k : string) : JS value :=
  fun sb =>
    match get (sb_heap sb) v k with
    | Some x => (Return x, sb)
    | None =>
        throw_new "TypeError"
          ("Cannot read properties of " ++ String_ v ++ " (reading '" ++ k ++ "')")
          sb
    end.

(** The properties of a plain object are kept in the order in which they are
    enumerated: the array indices (the decimal forms of the integers from 0 to
    2^32 - 2) in ascending order, then the other names in the order of their
    creation. *)
Fixpoint digits_value (k : string) (acc : Z) : option Z :=
  match k with
  | EmptyString => Some acc
  | String c k' =>
      let n := Z.of_nat (nat_of_ascii c) in
      if ((48 <=? n) && (n <=? 57))%Z then digits_value k' (10 * acc + (n - 48))%Z
      else None
  end.

Definition array_index (k : string) : option Z :=
  match k with
  | EmptyString => None
  | _ =>
      match digits_value k 0 with
      | Some n =>
          if String.eqb (Number_toString n) k && (n <=? 4294967294)%Z then Some n
          else None
      | None => None
      end
  end.

(** A value is written to a property that exists. *)
Fixpoint replace_assoc (k : string) (v : value) (ps : list (string * value))
  : list (string * value) :=
  match ps with
  | [] => []
  | (k', v') :: ps' =>
      if String.eqb k k' then (k, v) :: ps' else (k', v') :: replace_assoc k v ps'
  end.

(** A new array index is created before the first greater index and before
    the names that are no indices. *)
Fixpoint insert_index (n : Z) (k : string) (v : value)
  (ps : list (string * value)) : list (string * value) :=
  match ps with
  | [] => [(k, v)]
  | (k', v') :: ps' =>
      match array_index k' with
      | Some n' =>
          if (n <? n')%Z then (k, v) :: ps else (k', v') :: insert_index n k v ps'
      | None => (k, v) :: ps
      end
  end.

(** [o.k = v] on a plain object. *)
Definition set_assoc (k : string) (v : value) (ps : list (string * value))
  : list (string * value) :=
  match assoc k ps with
  | Some _ => replace_assoc k v ps
  | None =>
      match array_index k with
      | Some n => insert_index n k v ps
      | None => (ps ++ [(k, v)])%list
      end
  end.

Fixpoint update (l : loc) (o : object) (h : heap) : heap :=
  match h, l with
  | [], _ => []
  | _ :: h', O => o :: h'
  | x :: h', S l' => x :: update l' o h'
  end.

Definition set_property (target : value) (k : string) (v : value) : JS unit :=
  fun sb =>
    match target with
    | VRef l =>
        match lookup (sb_heap sb) l with
        | OPlain ps =>
            (Return tt,
             mkSandbox (update l (OPlain (set_assoc k v ps)) (sb_heap sb))
               (sb_now sb) (sb_out sb))
        | _ => (Return tt, sb)
        end
    | VUndefined | VNull =>
        throw_new "TypeError"
          ("Cannot set properties of " ++ String_ target ++ " (setting '" ++ k ++ "')")
          sb
    | _ => (Return tt, sb)
    end.

(** [JSON.stringify(v, null, 2)] inside the sandbox.  The message of the
    [TypeError] for a cycle is the engine's own: the text below is the first
    line of V8's, which V8 follows by a description of the cycle. *)
Definition JSON_stringify_2 (v : value) : JS (option string) :=
  fun sb =>
    match JSON_stringify (sb_heap sb) v with
    | SerOk t => (Return t, sb)
    | SerCyclic => throw_new "TypeError" "Converting circular structure to JSON" sb
    | SerFuel => throw_new "RangeError" "Maximum call stack size exceeded" sb
    end.

(** [new Date().toISOString()]: the reading of the frame's clock at the
    moment of the call.  [sendToParent] reads it once; between two statements
    the clock moves on, which is [elapse]. *)
Definition Date_toISOString : JS string := fun sb => (Return (sb_now sb), sb).

(** Time passes: the next reading of the clock is [now]. *)
Definition elapse (now : string) : JS unit :=
  fun sb => (Return tt, mkSandbox (sb_heap sb) now (sb_out sb)).

(** [window.parent.postMessage(data, targetOrigin)]. *)
Definition postMessage (data : value) (targetOrigin : string) : JS unit :=
  fun sb => emit (PostMessage data (sb_heap sb) targetOrigin) sb.

(** [Array.prototype.map] with a callback that may throw. *)
Fixpoint Array_map {A B} (f : A -> JS B) (xs : list A) : JS (list B) :=
  match xs with
  | [] => ret []
  | x :: xs' => y <- f x ;; ys <- Array_map f xs' ;; ret (y :: ys)
  end.

(** *** The script *)

(** [originalConsole.<m>(...args)]. *)
Definition originalConsole (m : LogLevel) (args : list value) : JS unit :=
  emit (NativeConsole m args).

(** [sendToParent(type, message)]. *)
Definition sendToParent (type message : value) : JS unit :=
  timestamp <- Date_toISOString ;;
  data <- alloc (OPlain [("type", VStr "console");
                         ("level", type);
                         ("message", message);
                         ("timestamp", VStr timestamp)]) ;;
  postMessage data "*".

(** [arg => typeof arg === 'object' ? JSON.stringify(arg, null, 2) : String(arg)]. *)
Definition stringify_arg (arg : value) : JS (option string) :=
  if String.eqb (typeof arg) "object" then JSON_stringify_2 arg
  else ret (Some (String_ arg)).

(** [args.map(...).join(' ')]. *)
Definition format_args (args : list value) : JS string :=
  parts <- Array_map stringify_arg args ;; ret (join " " parts).

Definition console_log (args : list value) : JS unit :=
  originalConsole Log args ;;
  text <- format_args args ;;
  sendToParent (VStr "log") (VStr text).

Definition console_error (args : list value) : JS unit :=
  originalConsole Error args ;;
  text <- format_args args ;;
  sendToParent (VStr "error") (VStr text).

Definition console_warn (args : list value) : JS unit :=
  originalConsole Warn args ;;
  text <- format_args args ;;
  sendToParent (VStr "warn") (VStr text).

Definition console_info (args : list value) : JS unit :=
  originalConsole Info args ;;
  text <- format_args args ;;
  sendToParent (VStr "info") (VStr text).

(** The shadowed [console] object as seen by the user's code. *)
Definition console (m : LogLevel) : list value -> JS unit :=
  match m with
  | Log => console_log
  | Error => console_error
  | Warn => console_warn
  | Info => console_info
  end.

(** The event the platform dispatches on [window] for an uncaught exception. *)
Record ErrorEvent : Type := mkErrorEvent {
  ev_message : string;
  ev_filename : string;
  ev_lineno : Z
}.

(** The listener registered by [window.addEventListener('error', ...)]. *)
Definition error_listener (e : ErrorEvent) : JS unit :=
  sendToParent (VStr "error")
    (VStr (ev_message e ++ " at " ++ ev_filename e ++ ":"
             ++ Number_toString (ev_lineno e))).

(** [try { ${javascript} } catch (error) { sendToParent('error', error.message); }] *)
Definition guarded (javascript : JS unit) : JS unit :=
  try_catch javascript
    (fun error =>
       message <- get_property error "message" ;;
       sendToParent (VStr "error") message).

(** Evaluation of the whole script element, the user's JavaScript being the
    computation [javascript]: the shims and the listener are installed (which
    has no outside effect), then the guarded block runs.  An exception that
    leaves the script is reported by the platform as an [ErrorEvent], built by
    [report], to the listener. *)
Definition run_script (report : heap -> value -> ErrorEvent)
  (javascript : JS unit) (sb : sandbox) : sandbox :=
  match guarded javascript sb with
  | (Return _, sb') => sb'
  | (Throw v, sb') => snd (error_listener (report (sb_heap sb') v) sb')
  end.

(** The messages posted to the parent, in order. *)
Fixpoint posted (out : list effect) : list (value * heap) :=
  match out with
  | [] => []
  | PostMessage d g _ :: out' => (d, g) :: posted out'
  | NativeConsole _ _ :: out' => posted out'
  end.

(** *** User programs named by the specification *)

(** [throw new Error(msg)] *)
Definition js_throw_new_Error (msg : string) : JS unit :=
  throw_new "Error" msg.

(** [throw <primitive>] *)
Definition js_throw (v : value) : JS unit := throw v.

(** [throw { message: m }] *)
Definition js_throw_object (m : value) : JS unit :=
  o <- alloc (OPlain [("message", m)]) ;; throw o.

(** [console.log("a", 1, {x: 1})] *)
Definition js_log_a_1_x : JS unit :=
  o <- alloc (OPlain [("x", VNum 1)]) ;;
  console Log [VStr "a"; VNum 1; o].

(** [const a = {}; a.self = a; console.log("x", a)] *)
Definition js_log_cycle : JS unit :=
  a <- alloc (OPlain []) ;;
  set_property a "self" a ;;
  console Log [VStr "x"; a].

(** The statements of [defaultJS] that run while the script is evaluated. *)
Definition js_default : JS unit :=
  console Log [VStr "String log"] ;;
  console Warn [VStr "This is a warning"] ;;
  console Error [VStr "This is an error"] ;;
  console Info [VStr "This is info"] ;;
  user <- alloc (OPlain [("name", VStr "Developer");
                         ("language", VStr "JavaScript")]) ;;
  console Log [VStr "User object:"; user].

(** A fresh isolated context. *)
Definition fresh (now : string) : sandbox := mkSandbox [] now [].

End Sandbox.

(** * The host side *)
Module Host.
Import Js.

(** The [message] event as the host's listener sees it: the cloned payload
    and the object graph the clone lives in. *)
Record MessageEvent : Type := mkMessageEvent {
  data : value;
  graph : heap
}.

(** [ConsoleLog] of [src/types/index.ts].  At run time the three fields copied
    from the payload hold whatever values the payload had. *)
Record ConsoleLog : Type := mkConsoleLog {
  log_id : string;
  log_type : value;
  log_message : value;
  log_timestamp : value
}.

(** What one run of the listener did. *)
Inductive handled : Type :=
| Ignored
| Raised
| Logged (log : ConsoleLog).

(** [handleMessage] of [PreviewPanel]; [now] is the reading of [Date.now()].
    [Logged log] stands for the call [onConsoleLog(log)]; [Raised] for the
    [TypeError] of reading [type] of a [null] or [undefined] payload. *)
Definition handleMessage (now : Z) (event : MessageEvent) : handled :=
  match get (graph event) (data event) "type" with
  | None => Raised
  | Some t =>
      if strict_equals t (VStr "console") then
        let field k :=
          match get (graph event) (data event) k with
          | Some v => v
          | None => VUndefined
          end in
        Logged {| log_id := Number_toString now;
                  log_type := field "level";
                  log_message := field "message";
                  log_timestamp := field "timestamp" |}
      else Ignored
  end.

(** Delivery of a posted message to the host's listener. *)
Definition deliver (m : value * heap) : MessageEvent :=
  mkMessageEvent (fst m) (snd m).

End Host.

(** * The document composer and the preview frame *)
Module Preview.

(** [PreviewPanelProps]; the callback [onConsoleLog] receives what
    [Host.handleMessage] logs. *)
Record PreviewPanelProps : Type := mkProps {
  html : string;
  css : string;
  javascript : string;
  onConsoleLog : Host.ConsoleLog -> unit
}.

(** Everything else in scope of the component's closures: the host clock, the
    host's source of randomness and the component's own state. *)
Record Ambient : Type := mkAmbient {
  date_now : Z;
  math_random : Z;
  isLoading : bool
}.

(** The fixed text of the template literal, cut at its three holes. *)
Definition before_css : string :=
  String.concat nl
    [ EmptyString;
      "<!DOCTYPE html>";
      "<html lang=" ++ dq ++ "en" ++ dq ++ ">";
      "<head>";
      "    <meta charset=" ++ dq ++ "UTF-8" ++ dq ++ ">";
      "    <meta name=" ++ dq ++ "viewport" ++ dq ++ " content=" ++ dq ++ "width=device-width, initial-scale=1.0" ++ dq ++ ">";
      "    <title>Preview</title>";
      "    <style>";
      "        body { ";
      "            margin: 0; ";
      "            padding: 16px; ";
      "            font-family: -apple-system, BlinkMacSystemFont, 'Segoe UI', Roboto, sans-serif;";
      "            background: white;";
      "            color: #333;";
      "        }";
      "        " ].

Definition css_to_html : string :=
  String.concat nl
    [ EmptyString;
      "    </style>";
      "</head>";
      "<body>";
      "    " ].

Definition html_to_javascript : string :=
  String.concat nl
    [ EmptyString;
      "    <script>";
      "        // Intercept console methods";
      "        const originalConsole = {";
      "            log: console.log,";
      "            error: console.error,";
      "            warn: console.warn,";
      "            info: console.info";
      "        };";
      "        ";
      "        const sendToParent = (type, message) => {";
      "            window.parent.postMessage({";
      "                type: 'console',";
      "                level: type,";
      "                message: message,";
      "                timestamp: new Date().toISOString()";
      "            }, '*');";
      "        };";
      "        ";
      "        console.log = (...args) => {";
      "            originalConsole.log(...args);";
      "            sendToParent('log', args.map(arg => ";
      "                typeof arg === 'object' ? JSON.stringify(arg, null, 2) : String(arg)";
      "            ).join(' '));";
      "        };";
      "        ";
      "        console.error = (...args) => {";
      "            originalConsole.error(...args);";
      "            sendToParent('error', args.map(arg => ";
      "                typeof arg === 'object' ? JSON.stringify(arg, null, 2) : String(arg)";
      "            ).join(' '));";
      "        };";
      "        ";
      "        console.warn = (...args) => {";
      "            originalConsole.warn(...args);";
      "            sendToParent('warn', args.map(arg => ";
      "                typeof arg === 'object' ? JSON.stringify(arg, null, 2) : String(arg)";
      "            ).join(' '));";
      "        };";
      "        ";
      "        console.info = (...args) => {";
      "            originalConsole.info(...args);";
      "            sendToParent('info', args.map(arg => ";
      "                typeof arg === 'object' ? JSON.stringify(arg, null, 2) : String(arg)";
      "            ).join(' '));";
      "        };";
      "        ";
      "        // Catch runtime errors";
      "        window.addEventListener('error', (e) => {";
      "            sendToParent('error', `${e.message} at ${e.filename}:${e.lineno}`);";
      "        });";
      "        ";
      "        try {";
      "            " ].

Definition after_javascript : string :=
  String.concat nl
    [ EmptyString;
      "        } catch (error) {";
      "            sendToParent('error', error.message);";
      "        }";
      "    </script>";
      "</body>";
      "</html>" ].

(** [generatePreviewContent]: the template literal with [css], [html] and
    [javascript] spliced in. *)
Definition generatePreviewContent (w : Ambient) (p : PreviewPanelProps) : string :=
  before_css ++ css p ++ css_to_html ++ html p
    ++ html_to_javascript ++ javascript p ++ after_javascript.

(** The attributes of the [iframe] element the component renders. *)
Record iframe : Type := mkIframe {
  className : string;
  title : string;
  sandbox : string;
  srcdoc : string
}.

(** The [iframe] of the component's JSX. *)
Definition render (w : Ambient) (p : PreviewPanelProps) : iframe :=
  {| className := "w-full h-full bg-white";
     title := "Code Preview";
     sandbox := "allow-scripts allow-same-origin";
     srcdoc := generatePreviewContent w p |}.

(** [refreshPreview]: with a mounted frame, its [srcdoc] is replaced. *)
Definition refreshPreview (w : Ambient) (p : PreviewPanelProps)
  (iframeRef : option iframe) : option iframe :=
  match iframeRef with
  | Some f =>
      Some {| className := className f;
              title := title f;
              sandbox := sandbox f;
              srcdoc := generatePreviewContent w p |}
  | None => None
  end.

(** [s.split(c)] for a one-character separator. *)
Fixpoint split_on (c : ascii) (s : string) : list string :=
  match s with
  | EmptyString => [EmptyString]
  | String x s' =>
      if Ascii.eqb x c then EmptyString :: split_on c s'
      else
        match split_on c s' with
        | [] => [String x EmptyString]
        | t :: ts => String x t :: ts
        end
  end.

Definition space : ascii := ascii_of_nat 32.

(** The set of tokens of a [sandbox] attribute: its space-separated words. *)
Definition sandbox_tokens (attr : string) : list string :=
  filter (fun t => negb (String.eqb t EmptyString)) (split_on space attr).

(** The token that lets the framed document keep the origin of its embedder. *)
Definition allow_same_origin : string := "allow-same-origin".
Definition allow_scripts : string := "allow-scripts".

End Preview.

(** * The host application state ([src/App.tsx]) *)
Module App.
Import Js Host.

Inductive View : Type := EditorView | HistoryView.

Inductive EditorLanguage : Type := LangHtml | LangCss | LangJavascript.

(** The fields of [CodeSnippet] the handlers read. *)
Record CodeSnippet : Type := mkSnippet {
  snip_id : string;
  snip_name : string;
  snip_html : string;
  snip_css : string;
  snip_javascript : string
}.

(** The fields of [CodeFile] the handlers read. *)
Record CodeFile : Type := mkCodeFile {
  file_title : string;
  file_language : EditorLanguage;
  code_content : string
}.

(** [CodeState] of the undo history. *)
Record CodeState : Type := mkCodeState {
  cs_html : string;
  cs_css : string;
  cs_javascript : string
}.

(** The [useState] cells of [App] that the handlers below read or write.
    The AI popup cells, the dismissed suggestions and the undo history live
    beside them and never meet [consoleLogs]. *)
Record AppState : Type := mkApp {
  html : string;
  css : string;
  javascript : string;
  consoleLogs : list ConsoleLog;
  snippets : list CodeSnippet;
  showAISuggestions : bool;
  showGeminiAssistant : bool;
  showSnippets : bool;
  autoSaveEnabled : bool;
  currentView : View
}.

Definition defaultHTML : string :=
  String.concat nl
    [ "<div class=" ++ dq ++ "container" ++ dq ++ ">";
      "  <h1>Welcome to GB Coder</h1>";
      "  <p>Start coding in HTML, CSS, and JavaScript!</p>";
      "  <button onclick=" ++ dq ++ "greet()" ++ dq ++ ">Click me!</button>";
      "</div>" ].

Definition defaultCSS : string :=
  String.concat nl
    [ ".container {";
      "  max-width: 800px;";
      "  margin: 0 auto;";
      "  padding: 2rem;";
      "  font-family: -apple-system, BlinkMacSystemFont, 'Segoe UI', sans-serif;";
      "  text-align: center;";
      "}";
      EmptyString;
      "h1 {";
      "  color: #2563eb;";
      "  margin-bottom: 1rem;";
      "}";
      EmptyString;
      "button {";
      "  background: #3b82f6;";
      "  color: white;";
      "  border: none;";
      "  padding: 0.75rem 1.5rem;";
      "  border-radius: 0.5rem;";
      "  font-size: 1rem;";
      "  cursor: pointer;";
      "  transition: background 0.2s;";
      "}";
      EmptyString;
      "button:hover {";
      "  background: #2563eb;";
      "}" ].

Definition defaultJS : string :=
  String.concat nl
    [ "function greet() {";
      "  console.log('Hello from GB Coder!');";
      "  alert('Welcome to your code playground!');";
      "}";
      EmptyString;
      "// Try logging different types";
      "console.log('String log');";
      "console.warn('This is a warning');";
      "console.error('This is an error');";
      "console.info('This is info');";
      EmptyString;
      "// Example of an object";
      "const user = { name: 'Developer', language: 'JavaScript' };";
      "console.log('User object:', user);" ].

(** The initial values of the cells. *)
Definition initial (storedSnippets : list CodeSnippet) (storedAutoSave : bool)
  : AppState :=
  mkApp defaultHTML defaultCSS defaultJS [] storedSnippets true false false
    storedAutoSave EditorView.

Definition setHtml (x : string) (s : AppState) : AppState :=
  mkApp x (css s) (javascript s) (consoleLogs s) (snippets s)
    (showAISuggestions s) (showGeminiAssistant s) (showSnippets s)
    (autoSaveEnabled s) (currentView s).

Definition setCss (x : string) (s : AppState) : AppState :=
  mkApp (html s) x (javascript s) (consoleLogs s) (snippets s)
    (showAISuggestions s) (showGeminiAssistant s) (showSnippets s)
    (autoSaveEnabled s) (currentView s).

Definition setJavascript (x : string) (s : AppState) : AppState :=
  mkApp (html s) (css s) x (consoleLogs s) (snippets s)
    (showAISuggestions s) (showGeminiAssistant s) (showSnippets s)
    (autoSaveEnabled s) (currentView s).

(** [setConsoleLogs(updater)]. *)
Definition setConsoleLogs (f : list ConsoleLog -> list ConsoleLog)
  (s : AppState) : AppState :=
  mkApp (html s) (css s) (javascript s) (f (consoleLogs s)) (snippets s)
    (showAISuggestions s) (showGeminiAssistant s) (showSnippets s)
    (autoSaveEnabled s) (currentView s).

(** [setSnippets(updater)] is the [setValue] of [useLocalStorage]: the
    updater is applied to [storedValue], the snippet list of the render that
    made the callback, and its result is stored. *)
Definition setSnippets (storedValue : list CodeSnippet)
  (f : list CodeSnippet -> list CodeSnippet) (s : AppState) : AppState :=
  mkApp (html s) (css s) (javascript s) (consoleLogs s) (f storedValue)
    (showAISuggestions s) (showGeminiAssistant s) (showSnippets s)
    (autoSaveEnabled s) (currentView s).

Definition setShowAISuggestions (b : bool) (s : AppState) : AppState :=
  mkApp (html s) (css s) (javascript s) (consoleLogs s) (snippets s)
    b (showGeminiAssistant s) (showSnippets s)
    (autoSaveEnabled s) (currentView s).

Definition setShowGeminiAssistant (b : bool) (s : AppState) : AppState :=
  mkApp (html s) (css s) (javascript s) (consoleLogs s) (snippets s)
    (showAISuggestions s) b (showSnippets s)
    (autoSaveEnabled s) (currentView s).

Definition setShowSnippets (b : bool) (s : AppState) : AppState :=
  mkApp (html s) (css s) (javascript s) (consoleLogs s) (snippets s)
    (showAISuggestions s) (showGeminiAssistant s) b
    (autoSaveEnabled s) (currentView s).

Definition setAutoSaveEnabled (b : bool) (s : AppState) : AppState :=
  mkApp (html s) (css s) (javascript s) (consoleLogs s) (snippets s)
    (showAISuggestions s) (showGeminiAssistant s) (showSnippets s)
    b (currentView s).

Definition setCurrentView (v : View) (s : AppState) : AppState :=
  mkApp (html s) (css s) (javascript s) (consoleLogs s) (snippets s)
    (showAISuggestions s) (showGeminiAssistant s) (showSnippets s)
    (autoSaveEnabled s) v.

(** [handleConsoleLog]: [setConsoleLogs(prev => [...prev, log])]. *)
Definition handleConsoleLog (log : ConsoleLog) (s : AppState) : AppState :=
  setConsoleLogs (fun prev => prev ++ [log])%list s.

(** [clearConsoleLogs]: [setConsoleLogs([])]. *)
Definition clearConsoleLogs (s : AppState) : AppState :=
  setConsoleLogs (fun _ => []) s.

(** [String.prototype.toLowerCase] on ASCII text. *)
Definition lower_char (c : ascii) : ascii :=
  let n := nat_of_ascii c in
  if (65 <=? n)%nat && (n <=? 90)%nat then ascii_of_nat (n + 32) else c.

Fixpoint toLowerCase (s : string) : string :=
  match s with
  | EmptyString => EmptyString
  | String c s' => String (lower_char c) (toLowerCase s')
  end.

(** [handleCommand]: [const [cmd, ...args] = command.toLowerCase().split(' ')]
    and the [switch] on [cmd].  The [download] and [theme] cases and the
    default case write no cell. *)
Definition handleCommand (command : string) (s : AppState) : AppState :=
  let words := Preview.split_on Preview.space (toLowerCase command) in
  let cmd := hd EmptyString words in
  let arg0 := nth 1 words EmptyString in
  if String.eqb cmd "run" then setConsoleLogs (fun _ => []) s
  else if String.eqb cmd "clear" then clearConsoleLogs s
  else if String.eqb cmd "download" then s
  else if String.eqb cmd "theme" then s
  else if String.eqb cmd "history" then setCurrentView HistoryView s
  else if String.eqb cmd "editor" then setCurrentView EditorView s
  else if String.eqb cmd "ai" then
    if String.eqb arg0 "toggle" then
      setShowAISuggestions (negb (showAISuggestions s)) s
    else if String.eqb arg0 "assistant" then
      setShowGeminiAssistant (negb (showGeminiAssistant s)) s
    else s
  else if String.eqb cmd "autosave" then
    if String.eqb arg0 "toggle" then
      setAutoSaveEnabled (negb (autoSaveEnabled s)) s
    else s
  else s.

(** The snippet handlers are closures of a render: [storedValue] is the
    snippet list of that render.  The sidebar is handed the handlers of the
    latest render; the terminal keeps those of the render at which it was
    mounted. *)

(** [saveSnippet]; [now] is the reading of [Date.now()]. *)
Definition saveSnippet (storedValue : list CodeSnippet) (now : Z)
  (name htmlCode cssCode jsCode : string) (s : AppState) : AppState :=
  setSnippets storedValue
    (fun prev => prev ++ [mkSnippet (Number_toString now) name htmlCode cssCode jsCode])%list
    s.

(** [updateSnippet], the update being a function on the snippet. *)
Definition updateSnippet (storedValue : list CodeSnippet) (id : string)
  (updates : CodeSnippet -> CodeSnippet) (s : AppState) : AppState :=
  setSnippets storedValue
    (map (fun snippet =>
            if String.eqb (snip_id snippet) id then updates snippet else snippet))
    s.

(** [loadSnippet]. *)
Definition loadSnippet (snippet : CodeSnippet) (s : AppState) : AppState :=
  setConsoleLogs (fun _ => [])
    (setJavascript (snip_javascript snippet)
       (setCss (snip_css snippet)
          (setHtml (snip_html snippet) s))).

(** [loadCodeFile]. *)
Definition loadCodeFile (codeFile : CodeFile) (s : AppState) : AppState :=
  let s1 :=
    match file_language codeFile with
    | LangHtml => setHtml (code_content codeFile) s
    | LangCss => setCss (code_content codeFile) s
    | LangJavascript => setJavascript (code_content codeFile) s
    end in
  setConsoleLogs (fun _ => []) (setCurrentView EditorView s1).

(** [loadSnippetByName]: the search goes through [snippets], the snippet
    list of the render that made the callback. *)
Definition loadSnippetByName (snippets : list CodeSnippet) (name : string)
  (s : AppState) : AppState :=
  match find (fun x => String.eqb (snip_name x) name) snippets with
  | Some snippet => loadSnippet snippet s
  | None => s
  end.

(** [deleteSnippet]. *)
Definition deleteSnippet (storedValue : list CodeSnippet) (id : string)
  (s : AppState) : AppState :=
  setSnippets storedValue (filter (fun x => negb (String.eqb (snip_id x) id))) s.

(** [resetCode]. *)
Definition resetCode (s : AppState) : AppState :=
  setConsoleLogs (fun _ => [])
    (setJavascript defaultJS (setCss defaultCSS (setHtml defaultHTML s))).

(** The part shared by [handleAIEnhancementApply], [handleAIPartialApply]
    and the single-file upload callbacks: one buffer is replaced. *)
Definition setCodeForLanguage (language : EditorLanguage) (code : string)
  (s : AppState) : AppState :=
  match language with
  | LangHtml => setHtml code s
  | LangCss => setCss code s
  | LangJavascript => setJavascript code s
  end.

(** [handleUndo] and [handleRedo]; the argument is what the history hook
    returned. *)
Definition restoreCode (st : option CodeState) (s : AppState) : AppState :=
  match st with
  | Some c => setJavascript (cs_javascript c) (setCss (cs_css c) (setHtml (cs_html c) s))
  | None => s
  end.

(** [onCodeUpdate] of the assistant and [onCodeChange] of the terminal. *)
Definition setAllCode (h c j : string) (s : AppState) : AppState :=
  setJavascript j (setCss c (setHtml h s)).

(** [onMultipleUpload]: every file replaces the buffer of its language. *)
Definition onMultipleUpload (files : list CodeFile) (s : AppState) : AppState :=
  fold_left (fun acc f => setCodeForLanguage (file_language f) (code_content f) acc)
    files s.

(** Everything the user or the preview can make the host do. *)
Inductive action : Type :=
| HandleConsoleLog (log : ConsoleLog)
| ClearConsoleLogs
| HandleCommand (command : string)
| SaveSnippet (storedValue : list CodeSnippet) (now : Z)
    (name htmlCode cssCode jsCode : string)
| UpdateSnippet (storedValue : list CodeSnippet) (id : string)
    (updates : CodeSnippet -> CodeSnippet)
| LoadSnippet (snippet : CodeSnippet)
| LoadCodeFile (codeFile : CodeFile)
| LoadSnippetByName (snippets : list CodeSnippet) (name : string)
| DeleteSnippet (storedValue : list CodeSnippet) (id : string)
| ResetCode
| EditCode (language : EditorLanguage) (code : string)
| HandleAIEnhancementApply (language : EditorLanguage) (enhancedCode : string)
| HandleAIPartialApply (language : EditorLanguage) (enhancedCode : string)
| UploadFile (language : EditorLanguage) (content : string)
| UploadFiles (files : list CodeFile)
| HandleUndo (prevState : option CodeState)
| HandleRedo (nextState : option CodeState)
| OnCodeUpdate (h c j : string)
| OnAutoSaveToggle
| OnSnippetsToggle
| OnAIAssistantToggle
| OnAISuggestionsToggle
| OnAssistantClose
| HandleAISuggest (language : EditorLanguage)
| HandleAIPopupClose
| HandleApplySuggestion (suggestionId : string)
| HandleDismissSuggestion (suggestionId : string)
| HandleManualSave.

Definition step (a : action) (s : AppState) : AppState :=
  match a with
  | HandleConsoleLog log => handleConsoleLog log s
  | ClearConsoleLogs => clearConsoleLogs s
  | HandleCommand command => handleCommand command s
  | SaveSnippet storedValue now name h c j =>
      saveSnippet storedValue now name h c j s
  | UpdateSnippet storedValue id updates => updateSnippet storedValue id updates s
  | LoadSnippet snippet => loadSnippet snippet s
  | LoadCodeFile codeFile => loadCodeFile codeFile s
  | LoadSnippetByName snippets name => loadSnippetByName snippets name s
  | DeleteSnippet storedValue id => deleteSnippet storedValue id s
  | ResetCode => resetCode s
  | EditCode language code => setCodeForLanguage language code s
  | HandleAIEnhancementApply language code => setCodeForLanguage language code s
  | HandleAIPartialApply language code => setCodeForLanguage language code s
  | UploadFile language content => setCodeForLanguage language content s
  | UploadFiles files => onMultipleUpload files s
  | HandleUndo st => restoreCode st s
  | HandleRedo st => restoreCode st s
  | OnCodeUpdate h c j => setAllCode h c j s
  | OnAutoSaveToggle => setAutoSaveEnabled (negb (autoSaveEnabled s)) s
  | OnSnippetsToggle => setShowSnippets (negb (showSnippets s)) s
  | OnAIAssistantToggle => setShowGeminiAssistant (negb (showGeminiAssistant s)) s
  | OnAISuggestionsToggle => setShowAISuggestions (negb (showAISuggestions s)) s
  | OnAssistantClose => setShowGeminiAssistant false s
  | HandleAISuggest _ => s
  | HandleAIPopupClose => s
  | HandleApplySuggestion _ => s
  | HandleDismissSuggestion _ => s
  | HandleManualSave => s
  end.

Definition run (acts : list action) (s : AppState) : AppState :=
  fold_left (fun acc a => step a acc) acts s.

(** The explicit clear action: the console panel's clear button ([onClear])
    and the terminal command [clear]. *)
Definition is_clear_action (a : action) : bool :=
  match a with
  | ClearConsoleLogs => true
  | HandleCommand command =>
      String.eqb
        (hd EmptyString (Preview.split_on Preview.space (toLowerCase command)))
        "clear"
  | _ => false
  end.

(** The host's [message] listener wired to the log sequence: [PreviewPanel]
    passes what [handleMessage] logs to [handleConsoleLog]; an event that is
    ignored, or on which the listener throws, writes nothing. *)
Definition receive (now : Z) (event : MessageEvent) (s : AppState) : AppState :=
  match handleMessage now event with
  | Logged log => handleConsoleLog log s
  | Ignored => s
  | Raised => s
  end.

(** Delivery of a batch of posted messages, each with the reading of the host
    clock at its receipt. *)
Fixpoint receive_all (arrivals : list (Z * MessageEvent)) (s : AppState)
  : AppState :=
  match arrivals with
  | [] => s
  | (now, event) :: rest => receive_all rest (receive now event s)
  end.

Definition ids (s : AppState) : list string := map log_id (consoleLogs s).

End App.

(** * The statements of the specification, over the embedding *)
Module Spec.
Import Js Sandbox Host.

(** The object [sendToParent] posts. *)
Definition relay_payload (type message : value) (timestamp : string) : object :=
  OPlain [("type", VStr "console");
          ("level", type);
          ("message", message);
          ("timestamp", VStr timestamp)].

(** [d], in the graph [g], is a console relay of level [level] carrying
    [message]. *)
Definition is_relay (g : heap) (d : value) (level : string) (message : value)
  : Prop :=
  get g d "type" = Some (VStr "console")
  /\ get g d "level" = Some (VStr level)
  /\ get g d "message" = Some message.

(** The isolation flag the specification asks for: the frame's [sandbox]
    attribute does not grant the same-origin capability. *)
Definition withholds_same_origin (f : Preview.iframe) : Prop :=
  ~ In Preview.allow_same_origin (Preview.sandbox_tokens (Preview.sandbox f)).

Definition permits_scripts (f : Preview.iframe) : Prop :=
  In Preview.allow_scripts (Preview.sandbox_tokens (Preview.sandbox f)).

(** The relay shape as the specification words it; its discriminating field
    is the one the code names [type]. *)
Definition is_LogLevel (v : value) : bool :=
  match v with
  | VStr s =>
      String.eqb s "log" || String.eqb s "warn"
      || String.eqb s "error" || String.eqb s "info"
  | _ => false
  end.

Definition field (event : MessageEvent) (k : string) : value :=
  match get (graph event) (data event) k with
  | Some v => v
  | None => VUndefined
  end.

Definition matches_relay_shape (event : MessageEvent) : bool :=
  strict_equals (field event "type") (VStr "console")
  && is_LogLevel (field event "level")
  && is_string (field event "message")
  && is_string (field event "timestamp").

(** The check the listener makes: the payload's [type] is [console]. *)
Definition type_is_console (event : MessageEvent) : bool :=
  match get (graph event) (data event) "type" with
  | Some t => strict_equals t (VStr "console")
  | None => false
  end.

(** The host appended exactly one record on receipt of [event]. *)
Definition appends_record (now : Z) (event : MessageEvent) (s : App.AppState)
  : Prop :=
  exists log,
    App.consoleLogs (App.receive now event s) = (App.consoleLogs s ++ [log])%list.

(** The shape check as the specification states it. *)
Definition appends_iff_full_shape (now : Z) (event : MessageEvent)
  (s : App.AppState) : Prop :=
  appends_record now event s <-> matches_relay_shape event = true.

(** Some record of the sequence is gone after the action. *)
Definition removes_records (a : App.action) (s : App.AppState) : Prop :=
  exists r, In r (App.consoleLogs s) /\ ~ In r (App.consoleLogs (App.step a s)).

(** Removal happens by the explicit clear action only. *)
Definition only_clear_removes (a : App.action) (s : App.AppState) : Prop :=
  removes_records a s -> App.is_clear_action a = true.

(** The actions that empty the log sequence, as the code has them. *)
Definition empties_log (a : App.action) (s : App.AppState) : bool :=
  match a with
  | App.ClearConsoleLogs => true
  | App.HandleCommand command =>
      let cmd :=
        hd EmptyString
          (Preview.split_on Preview.space (App.toLowerCase command)) in
      String.eqb cmd "run" || String.eqb cmd "clear"
  | App.LoadSnippet _ => true
  | App.LoadCodeFile _ => true
  | App.LoadSnippetByName snippets name =>
      match find (fun x => String.eqb (App.snip_name x) name) snippets with
      | Some _ => true
      | None => false
      end
  | App.ResetCode => true
  | _ => false
  end.

(** The records an action appends. *)
Definition appended (a : App.action) : list ConsoleLog :=
  match a with
  | App.HandleConsoleLog log => [log]
  | _ => []
  end.


(** [v] is an instance of [Error]. *)
Definition is_Error_object (h : heap) (v : value) : bool :=
  match v with
  | VRef l =>
      match lookup h l with
      | OError _ _ => true
      | _ => false
      end
  | _ => false
  end.

(** The guarded block around [javascript] relays exactly one error-level
    message, carrying [message]. *)
Definition guard_relays (javascript : JS unit) (sb : sandbox)
  (before : list effect) (message : value) : Prop :=
  exists sb' d g,
    guarded javascript sb = (Return tt, sb')
    /\ sb_out sb' = (before ++ [PostMessage d g "*"])%list
    /\ is_relay g d "error" message.

(** Whatever non-[Error] value the user's code throws, the relayed message
    field is [undefined]. *)
Definition non_Error_throw_relays_undefined (javascript : JS unit)
  (sb : sandbox) : Prop :=
  forall v sb1,
    javascript sb = (Throw v, sb1) ->
    is_Error_object (sb_heap sb1) v = false ->
    guard_relays javascript sb (sb_out sb1) VUndefined.





(** The JavaScript input [throw new Error("boom")]. *)
Definition boom_source : string :=
  "throw new Error(" ++ dq ++ "boom" ++ dq ++ ")".

(** A platform's way of describing an uncaught exception, as Chromium words
    it; the theorems hold for every such [report]. *)
Definition chromium_report (h : heap) (v : value) : ErrorEvent :=
  mkErrorEvent
    ("Uncaught "
       ++ match v with
          | VRef l =>
              match lookup h l with
              | OError name message => name ++ ": " ++ message
              | _ => "[object Object]"
              end
          | _ => String_ v
          end)
    "about:srcdoc" 74.

(** *** Concrete inputs used by the examples below *)

Definition sample_ambient : Preview.Ambient :=
  Preview.mkAmbient 1700000000000 0 false.

Definition default_props : Preview.PreviewPanelProps :=
  Preview.mkProps App.defaultHTML App.defaultCSS App.defaultJS (fun _ => tt).

(** A payload that carries only the discriminating field. *)
Definition bare_event : MessageEvent :=
  mkMessageEvent (VRef 0) [OPlain [("type", VStr "console")]].

(** The messages the default script relays, all received while the host
    clock reads [now]. *)
Definition default_arrivals (now : Z) : list (Z * MessageEvent) :=
  map (fun m => (now, deliver m))
    (posted (sb_out (run_script chromium_report js_default
                       (fresh "2023-11-14T22:13:20.000Z")))).

Definition sample_log : ConsoleLog :=
  mkConsoleLog "1700000000000" (VStr "log") (VStr "String log")
    (VStr "2023-11-14T22:13:20.000Z").

Definition sample_snippet : App.CodeSnippet :=
  App.mkSnippet "1700000000001" "demo" "<p>demo</p>" "p { color: red; }"
    "console.log('demo');".


End Spec.

(** * Line-based editing of the code buffers
    ([src/services/geminiCodeAssistant.ts], [src/services/geminiChatService.ts],
    [src/services/geminiEnhancementService.ts]) *)
Module Lines.

Definition newline : ascii := ascii_of_nat 10.

(** [code.split('\n')]. *)
Definition split_lines (code : string) : list string :=
  Preview.split_on newline code.

(** [lines.join('\n')]. *)
Definition join_lines (lines : list string) : string := String.concat nl lines.

(** [s] holds no line break. *)
Fixpoint one_line (s : string) : bool :=
  match s with
  | EmptyString => true
  | String c s' => negb (Ascii.eqb c newline) && one_line s'
  end.

(** [s.padStart(n, ' ')]. *)
Definition padStart (n : nat) (s : string) : string :=
  String.concat EmptyString (repeat " " (n - String.length s)) ++ s.

(** The result of [validateLineNumber]. *)
Record LineValidation : Type := mkValidation {
  isValid : bool;
  maxLines : nat;
  error : option string
}.

(** [validateLineNumber] on an integral line number. *)
Definition validateLineNumber (code : string) (lineNumber : Z) : LineValidation :=
  let lines := split_lines code in
  let maxLines := List.length lines in
  if (lineNumber <? 1)%Z then
    mkValidation false maxLines (Some "Line number must be a positive integer")
  else if (lineNumber >? Z.of_nat maxLines + 1)%Z then
    mkValidation false maxLines
      (Some ("Line number cannot exceed "
               ++ Js.Number_toString (Z.of_nat maxLines + 1)
               ++ " (current code has " ++ Js.Number_toString (Z.of_nat maxLines)
               ++ " lines)"))
  else mkValidation true maxLines None.

Inductive ModificationAction : Type := Replace | Insert.

(** The fields of [CodeModificationRequest] that [applyCodeModification]
    reads. *)
Record CodeModificationRequest : Type := mkModification {
  action : ModificationAction;
  lineNumber : Z;
  code : string
}.

(** [lines[index] = x] for an index inside the array. *)
Fixpoint set_nth (index : nat) (x : string) (lines : list string) : list string :=
  match lines, index with
  | [], _ => []
  | _ :: rest, O => x :: rest
  | l :: rest, S i => l :: set_nth i x rest
  end.

(** [lines.splice(index, 0, x)]: a negative [index] counts from the end and
    stops at the start; an [index] past the end appends. *)
Definition splice_insert (index : Z) (x : string) (lines : list string)
  : list string :=
  let len := Z.of_nat (List.length lines) in
  let start :=
    if (index <? 0)%Z then Z.max (len + index) 0 else Z.min index len in
  (firstn (Z.to_nat start) lines ++ x :: skipn (Z.to_nat start) lines)%list.

(** [applyCodeModification]; [None] is the thrown
    [Cannot replace line n: line does not exist]. *)
Definition applyCodeModification (originalCode : string)
  (modification : CodeModificationRequest) : option string :=
  let lines := split_lines originalCode in
  let index := (lineNumber modification - 1)%Z in
  match action modification with
  | Replace =>
      if (0 <=? index)%Z && (index <? Z.of_nat (List.length lines))%Z then
        Some (join_lines (set_nth (Z.to_nat index) (code modification) lines))
      else None
  | Insert => Some (join_lines (splice_insert index (code modification) lines))
  end.

(** [Array.prototype.map] with the index. *)
Fixpoint mapi_from {A B} (i : nat) (f : A -> nat -> B) (xs : list A) : list B :=
  match xs with
  | [] => []
  | x :: xs' => f x i :: mapi_from (S i) f xs'
  end.

(** [getCodeWithLineNumbers]. *)
Definition getCodeWithLineNumbers (code : string) : string :=
  join_lines
    (mapi_from 0
       (fun line index =>
          padStart 3 (Js.Number_toString (Z.of_nat (index + 1))) ++ " | " ++ line)
       (split_lines code)).

(** *** generateComparison *)

Inductive DifferenceType : Type := Addition | Deletion | Modification.

(** The fields of [CodeDifference] that vary. *)
Record CodeDifference : Type := mkDifference {
  diff_type : DifferenceType;
  diff_lineNumber : nat;
  diff_content : string
}.

Record ComparisonStats : Type := mkStats {
  linesAdded : nat;
  linesRemoved : nat;
  linesModified : nat
}.

Record CodeComparison : Type := mkComparison {
  original : string;
  enhanced : string;
  differences : list CodeDifference;
  stats : ComparisonStats
}.

(** [lines[i] || ''] *)
Definition line_or_empty (lines : list string) (i : nat) : string :=
  nth i lines EmptyString.

Definition nonempty (s : string) : bool := negb (String.eqb s EmptyString).

(** One turn of the loop of [generateComparison]. *)
Definition compare_line (originalLines enhancedLines : list string)
  (acc : list CodeDifference * ComparisonStats) (i : nat)
  : list CodeDifference * ComparisonStats :=
  let originalLine := line_or_empty originalLines i in
  let enhancedLine := line_or_empty enhancedLines i in
  let (diffs, st) := acc in
  if negb (String.eqb originalLine enhancedLine) then
    if negb (nonempty originalLine) && nonempty enhancedLine then
      ((diffs ++ [mkDifference Addition (i + 1) enhancedLine])%list,
       mkStats (linesAdded st + 1) (linesRemoved st) (linesModified st))
    else if nonempty originalLine && negb (nonempty enhancedLine) then
      ((diffs ++ [mkDifference Deletion (i + 1) originalLine])%list,
       mkStats (linesAdded st) (linesRemoved st + 1) (linesModified st))
    else
      ((diffs ++ [mkDifference Modification (i + 1) enhancedLine])%list,
       mkStats (linesAdded st) (linesRemoved st) (linesModified st + 1))
  else acc.

(** [generateComparison]. *)
Definition generateComparison (original enhanced : string) : CodeComparison :=
  let originalLines := split_lines original in
  let enhancedLines := split_lines enhanced in
  let maxLines := Nat.max (List.length originalLines) (List.length enhancedLines) in
  let (diffs, st) :=
    fold_left (compare_line originalLines enhancedLines) (seq 0 maxLines)
      ([], mkStats 0 0 0) in
  mkComparison original enhanced diffs st.

(** Counting the differences of one kind. *)
Definition is_type (ty : DifferenceType) (d : CodeDifference) : bool :=
  match ty, diff_type d with
  | Addition, Addition | Deletion, Deletion | Modification, Modification => true
  | _, _ => false
  end.

Definition count_type (ty : DifferenceType) (ds : list CodeDifference) : nat :=
  List.length (filter (is_type ty) ds).

Definition counted (acc : list CodeDifference * ComparisonStats) : Prop :=
  linesAdded (snd acc) = count_type Addition (fst acc)
  /\ linesRemoved (snd acc) = count_type Deletion (fst acc)
  /\ linesModified (snd acc) = count_type Modification (fst acc).

(** The two directions of a comparison, run side by side. *)
Definition mirrored (a b : ComparisonStats) : Prop :=
  linesAdded a = linesRemoved b
  /\ linesRemoved a = linesAdded b
  /\ linesModified a = linesModified b.

(** *** applyPartialSuggestions *)

(** The fields of [AICodeSuggestion] that [applyPartialSuggestions] reads;
    an absent [selected] is [false], an absent [lineNumber] is [None]. *)
Record AICodeSuggestion : Type := mkSuggestion {
  sugg_title : string;
  sugg_code : string;
  sugg_lineNumber : option Z;
  selected : bool
}.

(** [s.lineNumber || 0] *)
Definition line_or_zero (s : AICodeSuggestion) : Z :=
  match sugg_lineNumber s with
  | Some n => n
  | None => 0%Z
  end.

(** Insertion of [s] into a list sorted by descending line number, after
    the suggestions of an equal line number. *)
Fixpoint insert_desc (s : AICodeSuggestion) (sorted : list AICodeSuggestion)
  : list AICodeSuggestion :=
  match sorted with
  | [] => [s]
  | t :: rest =>
      if (line_or_zero t >=? line_or_zero s)%Z then t :: insert_desc s rest
      else s :: t :: rest
  end.

(** [list.sort((a, b) => (b.lineNumber || 0) - (a.lineNumber || 0))]: the
    stable sort by descending line number. *)
Definition sort_desc (xs : list AICodeSuggestion) : list AICodeSuggestion :=
  fold_left (fun sorted s => insert_desc s sorted) xs [].

(** [lines[i] = x] for any integral [i]: an index past the end leaves holes,
    which [join] renders as empty strings; a negative [i] names a property
    that is no element. *)
Definition array_set (i : Z) (x : string) (lines : list string) : list string :=
  if (i <? 0)%Z then lines
  else
    let n := Z.to_nat i in
    if (n <? List.length lines)%nat then set_nth n x lines
    else (lines ++ repeat EmptyString (n - List.length lines) ++ [x])%list.

(** The body of the [forEach]. *)
Definition apply_suggestion (enhancedCode : string) (s : AICodeSuggestion)
  : string :=
  match sugg_lineNumber s with
  | Some n =>
      if negb (Z.eqb n 0) && nonempty (sugg_code s) then
        join_lines (array_set (n - 1) (sugg_code s) (split_lines enhancedCode))
      else enhancedCode
  | None => enhancedCode
  end.

(** [applyPartialSuggestions]. *)
Definition applyPartialSuggestions (originalCode : string)
  (suggestions : list AICodeSuggestion) : string :=
  let selectedSuggestions := filter selected suggestions in
  fold_left apply_suggestion (sort_desc selectedSuggestions) originalCode.

(** The suggestions on which the body of the [forEach] writes: those with a
    line number other than 0 and a code that is not empty. *)
Definition effective (s : AICodeSuggestion) : bool :=
  match sugg_lineNumber s with
  | Some n => negb (Z.eqb n 0) && nonempty (sugg_code s)
  | None => false
  end.

(** [s] names an existing line of a text of [len] lines and has a code. *)
Definition targets_line (len : nat) (s : AICodeSuggestion) : bool :=
  match sugg_lineNumber s with
  | Some n => (1 <=? n)%Z && (n <=? Z.of_nat len)%Z && nonempty (sugg_code s)
  | None => false
  end.

(** No two suggestions of the list name the same line. *)
Fixpoint distinct_lines (xs : list AICodeSuggestion) : bool :=
  match xs with
  | [] => true
  | s :: rest =>
      negb (existsb (fun t => Z.eqb (line_or_zero t) (line_or_zero s)) rest)
      && distinct_lines rest
  end.

(** The lines of a text in which every line named by a suggestion is
    replaced by the code of that suggestion. *)
Definition patch (xs : list AICodeSuggestion) (lines : list string) : list string :=
  mapi_from 0
    (fun line index =>
       match find (fun s => Z.eqb (line_or_zero s) (Z.of_nat (index + 1))) xs with
       | Some s => sugg_code s
       | None => line
       end)
    lines.

(** Sorted by descending line number. *)
Definition descending : list AICodeSuggestion -> Prop :=
  StronglySorted (fun a b => (line_or_zero b <= line_or_zero a)%Z).

(** [lines[i] = x] on naturals. *)
Definition aset (i : nat) (x : string) (ls : list string) : list string :=
  if (i <? List.length ls)%nat then set_nth i x ls
  else (ls ++ repeat EmptyString (i - List.length ls) ++ [x])%list.

(** The write of one suggestion, as [set_nth] on the blocks. *)
Definition set_block (B : list string) (s : AICodeSuggestion) : list string :=
  set_nth (Z.to_nat (line_or_zero s - 1)) (sugg_code s) B.

End Lines.

(** * The undo history ([useCodeHistory]) and its use by [App] *)
Module History.

(** [HistoryEntry]. *)
Record HistoryEntry : Type := mkEntry {
  entry_id : string;
  entry_state : App.CodeState;
  entry_timestamp : string;
  entry_description : string
}.

(** The two cells of the hook. *)
Record t : Type := mkHistory {
  history : list HistoryEntry;
  currentIndex : nat
}.

(** The readings of the host clock a call makes: [Date.now()] and
    [new Date().toISOString()]. *)
Record Clock : Type := mkClock {
  now_ms : Z;
  now_iso : string
}.

(** The initial cells. *)
Definition initial (initialState : App.CodeState) (clock : Clock) : t :=
  mkHistory [mkEntry "initial" initialState (now_iso clock) "Initial state"] 0.

(** [saveState(state, description)].  The callback is memoised on
    [currentIndex]: the history is cut behind [closureIndex], the index of the
    render that made the callback, and the new entry is appended, while the
    index itself is moved on by a functional update.  Called from the latest
    render, [closureIndex] is the index [h] has. *)
Definition saveState (closureIndex : nat) (clock : Clock) (state : App.CodeState)
  (description : string) (h : t) : t :=
  let newEntry :=
    mkEntry (Js.Number_toString (now_ms clock)) state (now_iso clock) description in
  mkHistory (firstn (closureIndex + 1) (history h) ++ [newEntry])%list
    (currentIndex h + 1).

(** What a call of [undo] or [redo] does: it returns [null]; or it moves the
    index and returns the state of the entry there; or, the index moved, it
    throws on reading the state of an entry that is not there. *)
Inductive moved : Type :=
| ReturnsNull
| Returns (state : App.CodeState) (h' : t)
| ThrowsTypeError (h' : t).

(** [undo]. *)
Definition undo (h : t) : moved :=
  if (0 <? currentIndex h)%nat then
    match nth_error (history h) (currentIndex h - 1) with
    | Some entry =>
        Returns (entry_state entry) (mkHistory (history h) (currentIndex h - 1))
    | None => ThrowsTypeError (mkHistory (history h) (currentIndex h - 1))
    end
  else ReturnsNull.

(** [redo]. *)
Definition redo (h : t) : moved :=
  if (currentIndex h + 1 <? List.length (history h))%nat then
    match nth_error (history h) (currentIndex h + 1) with
    | Some entry =>
        Returns (entry_state entry) (mkHistory (history h) (currentIndex h + 1))
    | None => ThrowsTypeError (mkHistory (history h) (currentIndex h + 1))
    end
  else ReturnsNull.

Definition canUndo (h : t) : bool := (0 <? currentIndex h)%nat.

Definition canRedo (h : t) : bool :=
  (currentIndex h + 1 <? List.length (history h))%nat.

(** [history[currentIndex]?.state || initialState]. *)
Definition currentState (initialState : App.CodeState) (h : t) : App.CodeState :=
  match nth_error (history h) (currentIndex h) with
  | Some entry => entry_state entry
  | None => initialState
  end.

(** The list the hook shows: [history.slice(0, currentIndex + 1)]. *)
Definition visible (h : t) : list HistoryEntry :=
  firstn (currentIndex h + 1) (history h).

(** The cells after a move; they stay as they are when nothing moved. *)
Definition after (h : t) (m : moved) : t :=
  match m with
  | ReturnsNull => h
  | Returns _ h' => h'
  | ThrowsTypeError h' => h'
  end.

Definition throws (m : moved) : bool :=
  match m with
  | ThrowsTypeError _ => true
  | _ => false
  end.

(** The state a move returned, [None] for [null]. *)
Definition returned (m : moved) : option App.CodeState :=
  match m with
  | Returns state _ => Some state
  | _ => None
  end.

(** The calls a user of the hook can make.  A [SaveState] names the index of
    the render whose callback is called; [Undo] and [Redo] are calls with the
    callbacks of the latest render. *)
Inductive call : Type :=
| SaveState (closureIndex : nat) (clock : Clock) (state : App.CodeState)
    (description : string)
| Undo
| Redo.

Definition perform (c : call) (h : t) : t :=
  match c with
  | SaveState closureIndex clock state description =>
      saveState closureIndex clock state description h
  | Undo => after h (undo h)
  | Redo => after h (redo h)
  end.

(** The call is made with the callback of the latest render. *)
Definition from_latest_render (c : call) (h : t) : bool :=
  match c with
  | SaveState closureIndex _ _ _ => Nat.eqb closureIndex (currentIndex h)
  | _ => true
  end.

(** Every call of the sequence is made with the callback of the render that
    the calls before it have led to. *)
Fixpoint all_from_latest_render (calls : list call) (h : t) : bool :=
  match calls with
  | [] => true
  | c :: rest => from_latest_render c h && all_from_latest_render rest (perform c h)
  end.

(** The current index names an entry. *)
Definition well_formed (h : t) : Prop := currentIndex h < List.length (history h).

(** A clock and a history with two entries. *)
Definition sample_clock : Clock := mkClock 1700000000000 "2023-11-14T22:13:20.000Z".


End History.

(** * [App] together with its undo history *)
Module Editor.
Import History.

Record t : Type := mkEditor {
  app : App.AppState;
  hist : History.t
}.

(** [{ html, css, javascript }] of the current render. *)
Definition buffers (s : App.AppState) : App.CodeState :=
  App.mkCodeState (App.html s) (App.css s) (App.javascript s).


(** The code a snippet holds. *)
Definition snippet_code (snippet : App.CodeSnippet) : App.CodeState :=
  App.mkCodeState (App.snip_html snippet) (App.snip_css snippet)
    (App.snip_javascript snippet).

(** The handlers of [App] are closures of a render: [render] holds the
    buffers and the cells of the history as that render saw them, [e] what
    they are when the handler runs.  A handler handed to a component on every
    render runs with [render] being [e]; the terminal keeps the handlers of
    the render at which it was mounted. *)

(** [saveCodeHistory({ html, css, javascript }, description)]. *)
Definition saveCodeHistory (render : t) (clock : Clock) (description : string)
  (e : t) : t :=
  mkEditor (app e)
    (saveState (currentIndex (hist render)) clock (buffers (app render))
       description (hist e)).

(** The callback of the debounced effect of [App]: the buffers are saved when
    they differ from the current state of the history.  The effect is set up
    anew on every render, so the callback that runs is the latest render's. *)
Definition debouncedSave (clock : Clock) (e : t) : t :=
  let current := currentState (buffers (app e)) (hist e) in
  if negb (String.eqb (App.html (app e)) (App.cs_html current))
     || negb (String.eqb (App.css (app e)) (App.cs_css current))
     || negb (String.eqb (App.javascript (app e)) (App.cs_javascript current))
  then saveCodeHistory e clock "Code change" e
  else e.

(** [loadSnippet] with its history entry. *)
Definition loadSnippet (render : t) (clock : Clock) (snippet : App.CodeSnippet)
  (e : t) : t :=
  let e1 :=
    saveCodeHistory render clock ("Loaded snippet: " ++ App.snip_name snippet) e in
  mkEditor (App.loadSnippet snippet (app e1)) (hist e1).

(** [resetCode] with its history entry. *)
Definition resetCode (render : t) (clock : Clock) (e : t) : t :=
  let e1 := saveCodeHistory render clock "Reset to default" e in
  mkEditor (App.resetCode (app e1)) (hist e1).

(** An edit in one of the three editors. *)
Definition editCode (language : App.EditorLanguage) (code : string) (e : t) : t :=
  mkEditor (App.setCodeForLanguage language code (app e)) (hist e).

(** [handleUndo]: the buffers are set when [undo] returned a state. *)
Definition handleUndo (e : t) : t :=
  let m := undo (hist e) in
  mkEditor (App.restoreCode (returned m) (app e)) (after (hist e) m).

(** [handleRedo]. *)
Definition handleRedo (e : t) : t :=
  let m := redo (hist e) in
  mkEditor (App.restoreCode (returned m) (app e)) (after (hist e) m).

(** An editor on a history with two entries, and the render at which a
    terminal was mounted before the edit. *)
Definition mounted_editor : Editor.t :=
  mkEditor (App.initial [] true)
    (initial (Editor.buffers (App.initial [] true)) sample_clock).

Definition sample_editor : Editor.t :=
  mkEditor (App.setHtml "<p>2</p>" (App.initial [] true))
    (saveState 0 sample_clock (Editor.buffers (App.setHtml "<p>2</p>" (App.initial [] true)))
       "Code change" (initial (Editor.buffers (App.initial [] true)) sample_clock)).

End Editor.

(** * File upload ([src/hooks/useFileUpload.ts]) *)
Module Upload.

(** What the hook reads of a [File]: its name, its size in bytes and the text
    [file.text()] resolves to. *)
Record File : Type := mkFile {
  file_name : string;
  file_size : Z;
  file_text : string
}.

Definition dot : ascii := ascii_of_nat 46.

(** [detectLanguage]: the switch on
    [filename.split('.').pop()?.toLowerCase()]. *)
Definition detectLanguage (filename : string) : option App.EditorLanguage :=
  let extension :=
    App.toLowerCase (last (Preview.split_on dot filename) EmptyString) in
  if String.eqb extension "html" || String.eqb extension "htm" then
    Some App.LangHtml
  else if String.eqb extension "css" then Some App.LangCss
  else if String.eqb extension "js" || String.eqb extension "javascript" then
    Some App.LangJavascript
  else None.

(** [validateFile]: [None] when the file is valid, else the error. *)
Definition validateFile (file : File) : option string :=
  if (file_size file >? 1024 * 1024)%Z then Some "File too large (max 1MB)"
  else
    match detectLanguage (file_name file) with
    | None => Some "Unsupported file type"
    | Some _ => None
    end.

(** The object [processFile] resolves to. *)
Record ProcessedFile : Type := mkProcessed {
  language : App.EditorLanguage;
  content : string;
  filename : string;
  size : Z
}.

Section Platform.

(** [!content.trim()]: the text is empty or white space only. *)
Variable blank : string -> bool.

(** [processFile]: the processed file, or the message of the thrown error.
    A file that [validateFile] lets through has a language. *)
Definition processFile (file : File) : string + ProcessedFile :=
  match validateFile file, detectLanguage (file_name file) with
  | Some error, _ => inl error
  | None, Some language =>
      if blank (file_text file) then inl "File is empty"
      else inr (mkProcessed language (file_text file) (file_name file)
                  (file_size file))
  | None, None => inl "Unsupported file type"
  end.

(** The loop of [uploadFiles] over the files. *)
Fixpoint process_all (files : list File) : list ProcessedFile * list string :=
  match files with
  | [] => ([], [])
  | file :: rest =>
      let (processedFiles, errors) := process_all rest in
      match processFile file with
      | inr processed => (processed :: processedFiles, errors)
      | inl message => (processedFiles, (file_name file ++ ": " ++ message) :: errors)
      end
  end.

(** The callback [uploadFiles] calls, as the action of [App] it stands for:
    one processed file goes to the callback of its language, several go to
    [onMultipleUpload], none calls nothing. *)
Definition dispatch (processedFiles : list ProcessedFile) : option App.action :=
  match processedFiles with
  | [] => None
  | [file] => Some (App.UploadFile (language file) (content file))
  | _ =>
      Some (App.UploadFiles
              (map (fun f => App.mkCodeFile (filename f) (language f) (content f))
                 processedFiles))
  end.

(** What one call of [uploadFiles] leaves: the upload state and the call of
    the callback. *)
Record Outcome : Type := mkOutcome {
  uploadedFiles : list ProcessedFile;
  errors : list string;
  dispatched : option App.action
}.

(** [uploadFiles]; on an empty list it returns at once. *)
Definition uploadFiles (files : list File) : option Outcome :=
  match files with
  | [] => None
  | _ =>
      let (processedFiles, errors) := process_all files in
      Some (mkOutcome processedFiles errors (dispatch processedFiles))
  end.

(** The host state after the upload. *)
Definition upload (files : list File) (s : App.AppState) : App.AppState :=
  match uploadFiles files with
  | Some outcome =>
      match dispatched outcome with
      | Some a => App.step a s
      | None => s
      end
  | None => s
  end.

(** [file] passes every check of [processFile]. *)
Definition accepted (file : File) : bool :=
  (file_size file <=? 1024 * 1024)%Z
  && match detectLanguage (file_name file) with Some _ => true | None => false end
  && negb (blank (file_text file)).

Definition same_language (a b : App.EditorLanguage) : bool :=
  match a, b with
  | App.LangHtml, App.LangHtml
  | App.LangCss, App.LangCss
  | App.LangJavascript, App.LangJavascript => true
  | _, _ => false
  end.

(** The text of the last accepted file of a language, or [fallback] when
    there is none. *)
Definition last_of (l : App.EditorLanguage) (files : list File)
  (fallback : string) : string :=
  match
    find (fun f =>
            accepted f
            && match detectLanguage (file_name f) with
               | Some l' => same_language l' l
               | None => false
               end)
      (rev files)
  with
  | Some f => file_text f
  | None => fallback
  end.

End Platform.

(** A stand-in for [!content.trim()] on ASCII text. *)
Definition ascii_blank (s : string) : bool :=
  let fix go (s : string) : bool :=
    match s with
    | EmptyString => true
    | String c s' =>
        let n := nat_of_ascii c in
        (Nat.eqb n 32 || (Nat.leb 9 n && Nat.leb n 13)) && go s'
    end in
  go s.

(** Every processed file comes from an accepted file, with its language. *)
Definition of_file (f : File) (p : ProcessedFile) : Prop :=
  detectLanguage (file_name f) = Some (language p) /\ content p = file_text f.

(** The buffers after the callback: every processed file, in order, replaces
    the buffer of its language. *)
Definition apply_all (ps : list ProcessedFile) (s : App.AppState) : App.AppState :=
  fold_left (fun acc p => App.setCodeForLanguage (language p) (content p) acc) ps s.

Definition buffer (l : App.EditorLanguage) (s : App.AppState) : string :=
  match l with
  | App.LangHtml => App.html s
  | App.LangCss => App.css s
  | App.LangJavascript => App.javascript s
  end.

End Upload.

(** * Snippet files ([src/utils/snippetUtils.ts]) and the snippet commands
    of the terminal *)
Module Snippets.

(** The arguments of one call of [saveSnippet], with the reading of
    [Date.now()] it makes. *)
Record SnippetSave : Type := mkSave {
  save_now : Z;
  save_name : string;
  save_html : string;
  save_css : string;
  save_javascript : string
}.

(** The snippet the call stores. *)
Definition saved (x : SnippetSave) : App.CodeSnippet :=
  App.mkSnippet (Js.Number_toString (save_now x)) (save_name x) (save_html x)
    (save_css x) (save_javascript x).

(** The terminal's command processor is built once, when the terminal is
    mounted, and keeps the callbacks of that render: its [save] and [load]
    commands call [saveSnippet] and [loadSnippetByName] with the snippet list
    [mounted] of that render. *)
Definition terminal_save (mounted : list App.CodeSnippet) (x : SnippetSave)
  (s : App.AppState) : App.AppState :=
  App.saveSnippet mounted (save_now x) (save_name x) (save_html x) (save_css x)
    (save_javascript x) s.

Definition terminal_saves (mounted : list App.CodeSnippet)
  (saves : list SnippetSave) (s : App.AppState) : App.AppState :=
  fold_left (fun acc x => terminal_save mounted x acc) saves s.

Definition terminal_load (mounted : list App.CodeSnippet) (name : string)
  (s : App.AppState) : App.AppState :=
  App.loadSnippetByName mounted name s.

(** The sidebar is handed the handlers of the latest render. *)
Definition sidebar_save (x : SnippetSave) (s : App.AppState) : App.AppState :=
  App.saveSnippet (App.snippets s) (save_now x) (save_name x) (save_html x)
    (save_css x) (save_javascript x) s.

Definition sidebar_delete (id : string) (s : App.AppState) : App.AppState :=
  App.deleteSnippet (App.snippets s) id s.

(** A character of the class [[a-z0-9]] under the flag [i]. *)
Definition is_alnum (c : ascii) : bool :=
  let n := nat_of_ascii c in
  (((48 <=? n) && (n <=? 57)) || ((65 <=? n) && (n <=? 90))
   || ((97 <=? n) && (n <=? 122)))%nat.

Definition underscore : ascii := ascii_of_nat 95.

(** [name.replace(/[^a-z0-9]/gi, '_')]. *)
Fixpoint replace_non_alnum (name : string) : string :=
  match name with
  | EmptyString => EmptyString
  | String c rest =>
      String (if is_alnum c then c else underscore) (replace_non_alnum rest)
  end.

(** The stem of the [download] attribute [exportSnippetAsJSON] sets. *)
Definition download_stem (name : string) : string :=
  App.toLowerCase (replace_non_alnum name).

Definition download_name (snippet : App.CodeSnippet) : string :=
  download_stem (App.snip_name snippet) ++ ".json".

(** A lower-case letter, a digit or the underscore. *)
Definition is_stem_char (c : ascii) : bool :=
  let n := nat_of_ascii c in
  (((48 <=? n) && (n <=? 57)) || ((97 <=? n) && (n <=? 122)) || (n =? 95))%nat.

Fixpoint all_chars (p : ascii -> bool) (s : string) : bool :=
  match s with
  | EmptyString => true
  | String c rest => p c && all_chars p rest
  end.

End Snippets.

(** * A script of console calls, from the frame to the console panel *)
Module Relay.
Import Js Sandbox Host.

(** One console call of a script: the reading of the frame's clock when the
    call runs, the method and the arguments. *)
Record Call : Type := mkCall {
  call_time : string;
  call_level : LogLevel;
  call_args : list value
}.

(** A straight-line script: one call of a console method after the other,
    the clock moving on before each. *)
Fixpoint js_calls (calls : list Call) : JS unit :=
  match calls with
  | [] => ret tt
  | c :: rest =>
      elapse (call_time c) ;;
      console (call_level c) (call_args c) ;;
      js_calls rest
  end.

(** [v] is not a reference to an object. *)
Definition no_reference (v : value) : bool :=
  match v with
  | VRef _ => false
  | _ => true
  end.

(** The arguments of every call are [undefined], [null], booleans, safe
    integers or strings. *)
Definition primitive_calls (calls : list Call) : bool :=
  forallb (fun c => forallb (fun v => no_reference v && safe_value v) (call_args c))
    calls.

(** The text of a call whose arguments are no references. *)
Definition call_text (args : list value) : string :=
  String.concat " " (map String_ args).

(** The record the host keeps of a call received at [now]. *)
Definition record (arrival : Z * Call) : ConsoleLog :=
  let (now, c) := arrival in
  mkConsoleLog (Number_toString now) (VStr (level_name (call_level c)))
    (VStr (call_text (call_args c))) (VStr (call_time c)).

(** The host's reading of a posted message is the record of a call. *)
Definition logs_as (msg : value * heap) (c : Call) : Prop :=
  forall now, handleMessage now (deliver msg) = Logged (record (now, c)).

(** A script that throws an [Error] after its calls; [time] is the reading
    of the clock when the [catch] clause runs. *)
Definition js_calls_then_throw (calls : list Call) (time msg : string) : JS unit :=
  js_calls calls ;; elapse time ;; js_throw_new_Error msg.

(** The messages a sandbox has posted, each received at the reading of the
    host clock paired with it. *)
Definition arrivals (nows : list Z) (sb : sandbox) : list (Z * MessageEvent) :=
  combine nows (map deliver (posted (sb_out sb))).

End Relay.

(** * Automatic saving ([src/hooks/useAutoSave.ts]) *)
Module AutoSave.

(** The three buffers as the hook sees them: strings of UTF-16 code units.
    [btoa] tells the units above 255 from the others. *)
Definition text : Type := list N.

(** The text of a string of characters below 256. *)
Definition text_of (s : string) : text := map N_of_ascii (list_ascii_of_string s).

Definition latin1 (u : N) : bool := (u <=? 255)%N.

(** The base64 alphabet. *)
Definition alphabet : string :=
  "ABCDEFGHIJKLMNOPQRSTUVWXYZabcdefghijklmnopqrstuvwxyz0123456789+/".

(** The character of the six low bits of [n]. *)
Definition sextet (n : N) : ascii :=
  match String.get (N.to_nat (N.land n 63)) alphabet with
  | Some c => c
  | None => "="%char
  end.

(** The base64 form of a sequence of bytes: three bytes give four sextets, a
    rest of one or two bytes is padded with [=]. *)
Fixpoint encode (s : list N) : string :=
  match s with
  | [] => EmptyString
  | [a] =>
      let n := N.shiftl a 16 in
      String (sextet (N.shiftr n 18)) (String (sextet (N.shiftr n 12)) "==")
  | [a; b] =>
      let n := N.lor (N.shiftl a 16) (N.shiftl b 8) in
      String (sextet (N.shiftr n 18))
        (String (sextet (N.shiftr n 12)) (String (sextet (N.shiftr n 6)) "="))
  | a :: b :: c :: rest =>
      let n := N.lor (N.lor (N.shiftl a 16) (N.shiftl b 8)) c in
      String (sextet (N.shiftr n 18))
        (String (sextet (N.shiftr n 12))
           (String (sextet (N.shiftr n 6)) (String (sextet n) (encode rest))))
  end.

(** [btoa]: [None] is the [InvalidCharacterError] it throws when the string
    holds a character above U+00FF. *)
Definition btoa (s : text) : option string :=
  if forallb latin1 s then Some (encode s) else None.

(** [createContentHash]: [btoa(h + c + j).slice(0, 16)]. *)
Definition createContentHash (h c j : text) : option string :=
  option_map (String.substring 0 16) (btoa (h ++ c ++ j)%list).

(** The cells of the hook that [performAutoSave] writes. *)
Record t : Type := mkAutoSave {
  lastContentRef : string;
  lastSaveTime : option string
}.

(** A call of [saveCodeFile]. *)
Record SaveCall : Type := mkSaveCall {
  save_content : text;
  save_language : App.EditorLanguage;
  save_title : string
}.

(** What a call of [performAutoSave] comes to: its promise is rejected with
    the error of [createContentHash], which is called outside the [try]
    block, before anything is written; or it is fulfilled, after the calls
    of [saveCodeFile] listed, with the cells as given. *)
Inductive Outcome : Type :=
| Rejected
| Fulfilled (calls : list SaveCall) (st : t).

(** The cells after a call that found them as [st]. *)
Definition cells_after (o : Outcome) (st : t) : t :=
  match o with
  | Rejected => st
  | Fulfilled _ st' => st'
  end.

Section Platform.

(** [!content.trim()]. *)
Variable blank : text -> bool.

(** Whether a call of [saveCodeFile] resolves; it rejects otherwise. *)
Variable saveCodeFile : SaveCall -> bool.

(** The calls of the [try] block in order, up to and with the first that
    rejects; the flag tells whether the block ran to its end. *)
Fixpoint save_each (calls : list SaveCall) : list SaveCall * bool :=
  match calls with
  | [] => ([], true)
  | call :: rest =>
      if saveCodeFile call then
        let (made, done) := save_each rest in (call :: made, done)
      else ([call], false)
  end.

(** The saves [performAutoSave] asks for: one for each buffer that is not
    blank. *)
Definition wanted (title : string) (h c j : text) : list SaveCall :=
  ((if blank h then [] else [mkSaveCall h App.LangHtml (title ++ " - HTML")])
   ++ (if blank c then [] else [mkSaveCall c App.LangCss (title ++ " - CSS")])
   ++ (if blank j then []
       else [mkSaveCall j App.LangJavascript (title ++ " - JavaScript")]))%list.

(** [performAutoSave].  [user] tells whether a user is signed in,
    [timestamp] and [title] are what the clock gives. *)
Definition performAutoSave (user enabled : bool) (timestamp title : string)
  (h c j : text) (st : t) : Outcome :=
  if negb user || negb enabled then Fulfilled [] st
  else
    match createContentHash h c j with
    | None => Rejected
    | Some currentHash =>
        if String.eqb currentHash (lastContentRef st) then Fulfilled [] st
        else
          let (made, done) := save_each (wanted title h c j) in
          if done then Fulfilled made (mkAutoSave currentHash (Some timestamp))
          else Fulfilled made st
    end.

End Platform.

End AutoSave.

(** * Facts about the embedding *)

Module StringFacts.

Lemma substring_prefix (x b : string) :
  String.substring 0 (String.length x) (x ++ b) = x.
Proof.
  induction x as [| c x IH]; simpl.
  - destruct b; reflexivity.
  - now rewrite IH.
Qed.

Lemma substring_middle (a x b : string) :
  String.substring (String.length a) (String.length x) (a ++ x ++ b) = x.
Proof.
  induction a as [| c a IH]; simpl.
  - apply substring_prefix.
  - exact IH.
Qed.

(** [prefix a (a ++ b)]. *)
Lemma prefix_app (a b : string) : String.prefix a (a ++ b) = true.
Proof. apply String.prefix_correct. apply substring_prefix. Qed.

(** A string spliced between two others occurs in the result. *)
Lemma contains_middle (a x b : string) : contains x (a ++ x ++ b) = true.
Proof.
  unfold contains.
  destruct (String.index 0 x (a ++ x ++ b)) as [m |] eqn:Hidx; [reflexivity |].
  exfalso. destruct x as [| c x].
  - apply String.index_correct4 in Hidx. lia.
  - apply (String.index_correct3 0 (String.length a) _ _ Hidx).
    + discriminate.
    + lia.
    + apply substring_middle.
Qed.

Lemma append_assoc (a b c : string) : (a ++ b) ++ c = a ++ b ++ c.
Proof. induction a as [| x a IH]; simpl; [reflexivity | now rewrite IH]. Qed.

End StringFacts.
Module JsFacts.
Import Js.

Section Heap.

Variable h : heap.

Lemma lookup_alloc (o : object) :
  lookup (h ++ [o])%list (List.length h) = o.
Proof.
  unfold lookup. rewrite app_nth2 by lia. now rewrite Nat.sub_diag.
Qed.

Lemma lookup_old (o : object) (l : loc) :
  l < List.length h -> lookup (h ++ [o])%list l = lookup h l.
Proof. intros H. unfold lookup. now rewrite app_nth1. Qed.

Lemma lookup_dangling (l : loc) :
  List.length h <= l -> lookup h l = OPlain [].
Proof. intros H. unfold lookup. now apply nth_overflow. Qed.

(** A stack of distinct in-range locations is no longer than the heap. *)
Lemma stack_bound (st : list loc) :
  NoDup st -> (forall x, In x st -> x < List.length h) ->
  List.length st <= List.length h.
Proof.
  intros Hnd Hin.
  assert (Hle : List.length st <= List.length (seq 0 (List.length h))).
  { apply NoDup_incl_length; [assumption |].
    intros x Hx. apply in_seq. specialize (Hin x Hx). lia. }
  now rewrite length_seq in Hle.
Qed.

End Heap.

Lemma existsb_eqb_In (l : loc) (st : list loc) :
  existsb (Nat.eqb l) st = true <-> In l st.
Proof.
  rewrite existsb_exists. split.
  - intros [x [Hx He]]. apply Nat.eqb_eq in He. now subst.
  - intros H. exists l. split; [assumption | apply Nat.eqb_refl].
Qed.

(** The member loops hand on what the per-member serializer answers. *)
Ltac members_never_fuel f v rest IH H :=
  assert (Hv : f v <> SerFuel) by (apply H; now left);
  assert (Hr : rest <> None) by (apply IH; intros w Hw; apply H; now right);
  destruct (f v); try discriminate; [| contradiction];
  destruct rest as [[ts |] |]; try discriminate; contradiction.


Section Members.

Variable f : value -> ser_result.

Lemma ser_props_never_fuel (ps : list (string * value)) :
  (forall v, In v (map snd ps) -> f v <> SerFuel) -> ser_props f ps <> None.
Proof.
  induction ps as [| [k v] ps IH]; intros H; simpl.
  - discriminate.
  - members_never_fuel f v (ser_props f ps) IH H.
Qed.

Lemma ser_elems_never_fuel (es : list value) :
  (forall v, In v es -> f v <> SerFuel) -> ser_elems f es <> None.
Proof.
  induction es as [| v es IH]; intros H; simpl.
  - discriminate.
  - members_never_fuel f v (ser_elems f es) IH H.
Qed.



End Members.

Section Serializer.

Variable h : heap.

(** With fuel beyond the number of objects not yet on the stack, the
    serializer ends before its fuel does. *)
Lemma serialize_never_fuel :
  forall fuel stack indent v,
    NoDup stack -> (forall x, In x stack -> x < List.length h) ->
    List.length h < fuel + List.length stack ->
    serialize fuel h stack indent v <> SerFuel.
Proof.
  induction fuel as [| fuel IH]; intros stack indent v Hnd Hin Hlen.
  - pose proof (stack_bound h stack Hnd Hin). unfold loc in *. exfalso. lia.
  - destruct v; simpl; try discriminate.
    destruct (existsb (Nat.eqb l) stack) eqn:Hmem; [discriminate |].
    assert (Hnot : ~ In l stack).
    { intros Hl. apply existsb_eqb_In in Hl. congruence. }
    destruct (Nat.lt_ge_cases l (List.length h)) as [Hl | Hl].
    + assert (Hsub : forall w, serialize fuel h (l :: stack) (indent ++ gap) w <> SerFuel).
      { intros w. apply IH.
        - now constructor.
        - intros x [<- | Hx]; auto.
        - simpl. lia. }
      destruct (lookup h l) as [ps | es | nm msg].
      * pose proof (ser_props_never_fuel _ ps (fun w _ => Hsub w)) as Hp.
        destruct (ser_props _ ps) as [[ms |] |]; try discriminate. contradiction.
      * pose proof (ser_elems_never_fuel _ es (fun w _ => Hsub w)) as Hp.
        destruct (ser_elems _ es) as [[ms |] |]; try discriminate. contradiction.
      * discriminate.
    + rewrite (lookup_dangling h l Hl). simpl. discriminate.
Qed.

(** [JSON.stringify] always answers: with a text, or with the [TypeError]
    of a circular structure. *)
Lemma JSON_stringify_total (v : value) : JSON_stringify h v <> SerFuel.
Proof.
  unfold JSON_stringify. apply serialize_never_fuel.
  - constructor.
  - intros x [].
  - simpl. lia.
Qed.





End Serializer.

End JsFacts.

Module SandboxFacts.
Import Js Sandbox Spec JsFacts.

Lemma posted_app (a b : list effect) :
  posted (a ++ b)%list = (posted a ++ posted b)%list.
Proof.
  induction a as [| e a IH]; simpl; [reflexivity |].
  destruct e; simpl; now rewrite IH.
Qed.

(** [sendToParent] allocates the payload and posts it; it never throws. *)
Lemma sendToParent_run (type message : value) (sb : sandbox) :
  let h' := (sb_heap sb ++ [relay_payload type message (sb_now sb)])%list in
  sendToParent type message sb =
    (Return tt,
     mkSandbox h' (sb_now sb)
       (sb_out sb ++ [PostMessage (VRef (List.length (sb_heap sb))) h' "*"])%list).
Proof. reflexivity. Qed.

Lemma payload_is_relay (h : heap) (level : string) (message : value) (ts : string) :
  is_relay (h ++ [relay_payload (VStr level) message ts])%list
    (VRef (List.length h)) level message.
Proof.
  unfold is_relay, get. rewrite lookup_alloc. simpl. repeat split; reflexivity.
Qed.


(** The serializer never answers [undefined] for an object or [null]. *)
Lemma JSON_stringify_object_text (h : heap) (a : value) (t : option string) :
  typeof a = "object" -> JSON_stringify h a = SerOk t -> exists s, t = Some s.
Proof.
  unfold JSON_stringify. intros Hty H.
  destruct a; simpl in Hty; try discriminate.
  - simpl in H. inversion H. eauto.
  - simpl in H.
    destruct (lookup h l) as [ps | es | nm msg].
    + destruct (ser_props _ ps) as [[ms |] |]; inversion H; eauto.
    + destruct (ser_elems _ es) as [[ms |] |]; inversion H; eauto.
    + inversion H; eauto.
Qed.

(** The callback of [args.map]: when it returns, the state is untouched and
    the result is the argument's text. *)
Lemma stringify_arg_return (a : value) (sb sb' : sandbox) (t : option string) :
  stringify_arg a sb = (Return t, sb') ->
  sb' = sb /\ exists s, t = Some s /\ arg_text (sb_heap sb) a = Some s.
Proof.
  unfold stringify_arg. intros H.
  destruct (String.eqb (typeof a) "object") eqn:Hty.
  - apply String.eqb_eq in Hty.
    unfold JSON_stringify_2 in H.
    destruct (JSON_stringify (sb_heap sb) a) as [t0 | |] eqn:Hj;
      try (unfold throw_new, bind, alloc, throw in H; simpl in H; discriminate).
    inversion H; subst. split; [reflexivity |].
    destruct (JSON_stringify_object_text _ _ _ Hty Hj) as [s ->].
    exists s. split; [reflexivity |].
    destruct a; simpl in Hty; try discriminate; unfold arg_text; now rewrite Hj.
  - inversion H; subst. split; [reflexivity |].
    exists (String_ a). split; [reflexivity |].
    destruct a as [| | [|] | | |]; simpl in Hty; try discriminate; reflexivity.
Qed.

(** The callback writes no effect, whether it returns or throws. *)
Lemma stringify_arg_out (a : value) (sb sb' : sandbox) (r : outcome (option string)) :
  stringify_arg a sb = (r, sb') -> sb_out sb' = sb_out sb.
Proof.
  unfold stringify_arg. intros H.
  destruct (String.eqb (typeof a) "object").
  - unfold JSON_stringify_2 in H.
    destruct (JSON_stringify (sb_heap sb) a);
      unfold throw_new, bind, alloc, throw in H; simpl in H;
      inversion H; reflexivity.
  - inversion H; reflexivity.
Qed.

Lemma stringify_arg_object (a : value) :
  typeof a = "object" -> stringify_arg a = JSON_stringify_2 a.
Proof. intros H. unfold stringify_arg. now rewrite H. Qed.

Lemma stringify_arg_text (a : value) (sb : sandbox) (s : string) :
  arg_text (sb_heap sb) a = Some s -> stringify_arg a sb = (Return (Some s), sb).
Proof.
  intros H.
  destruct a as [| | [|] | | |]; try (inversion H; reflexivity);
    unfold arg_text in H;
    rewrite stringify_arg_object by reflexivity; unfold JSON_stringify_2;
    match type of H with
    | context [JSON_stringify ?h ?a] =>
        destruct (JSON_stringify h a) as [[t |] | |]; inversion H; reflexivity
    end.
Qed.

Lemma Array_map_out (args : list value) :
  forall sb sb' r, Array_map stringify_arg args sb = (r, sb') -> sb_out sb' = sb_out sb.
Proof.
  induction args as [| a args IH]; intros sb sb' r H; simpl in H.
  - inversion H; reflexivity.
  - unfold bind in H.
    destruct (stringify_arg a sb) as [[t | v] sb1] eqn:Ha.
    + apply stringify_arg_out in Ha.
      destruct (Array_map stringify_arg args sb1) as [[ts | v] sb2] eqn:Hr.
      * apply IH in Hr. inversion H; subst. congruence.
      * apply IH in Hr. inversion H; subst. congruence.
    + apply stringify_arg_out in Ha. inversion H; subst. assumption.
Qed.

Lemma Array_map_texts (args : list value) (sb : sandbox) :
  forall texts,
    Forall2 (fun a t => arg_text (sb_heap sb) a = Some t) args texts ->
    Array_map stringify_arg args sb = (Return (map Some texts), sb).
Proof.
  induction args as [| a args IH]; intros texts H; inversion H; subst; simpl.
  - reflexivity.
  - unfold bind. rewrite (stringify_arg_text a sb _ H2).
    rewrite (IH _ H4). reflexivity.
Qed.

Lemma join_texts (sep : string) (texts : list string) :
  join sep (map Some texts) = String.concat sep texts.
Proof.
  unfold join. rewrite map_map. now rewrite map_id.
Qed.


(** The body shared by the four shims. *)
Lemma console_run (m : LogLevel) (args : list value) (sb : sandbox) :
  console m args sb =
    match Array_map stringify_arg args
            (mkSandbox (sb_heap sb) (sb_now sb)
               (sb_out sb ++ [NativeConsole m args])%list) with
    | (Return parts, sb1) =>
        sendToParent (VStr (level_name m)) (VStr (join " " parts)) sb1
    | (Throw v, sb1) => (Throw v, sb1)
    end.
Proof.
  destruct m; unfold console, console_log, console_error, console_warn,
    console_info, format_args, originalConsole, emit, bind, ret; simpl;
    destruct (Array_map stringify_arg args _) as [[parts | v] sb1]; reflexivity.
Qed.



(** The guarded block on a throwing script whose thrown value has a
    [message] property to read. *)
Lemma guarded_throw (javascript : JS unit) (sb sb1 : sandbox) (v m : value) :
  javascript sb = (Throw v, sb1) ->
  get (sb_heap sb1) v "message" = Some m ->
  guard_relays javascript sb (sb_out sb1) m.
Proof.
  intros Hrun Hget. unfold guard_relays, guarded, try_catch.
  rewrite Hrun. unfold bind, get_property. rewrite Hget.
  rewrite sendToParent_run. simpl.
  eexists _, _, _. split; [reflexivity |]. split; [reflexivity |].
  apply payload_is_relay.
Qed.

(** The guarded block on a script that throws [null] or [undefined]: reading
    [message] throws inside the handler and nothing is posted. *)
Lemma guarded_throw_nullish (javascript : JS unit) (sb sb1 : sandbox) (v : value) :
  javascript sb = (Throw v, sb1) ->
  get (sb_heap sb1) v "message" = None ->
  exists e sb2, guarded javascript sb = (Throw e, sb2) /\ sb_out sb2 = sb_out sb1.
Proof.
  intros Hrun Hget. unfold guarded, try_catch.
  rewrite Hrun. unfold bind, get_property. rewrite Hget.
  unfold throw_new, bind, alloc, throw. simpl. eauto.
Qed.

Lemma guarded_return (javascript : JS unit) (sb sb1 : sandbox) :
  javascript sb = (Return tt, sb1) -> guarded javascript sb = (Return tt, sb1).
Proof. intros H. unfold guarded, try_catch. now rewrite H. Qed.

End SandboxFacts.

Module PreviewFacts.
Import StringFacts.

Lemma contains_third (a b x r : string) : contains x (a ++ b ++ x ++ r) = true.
Proof.
  replace (a ++ b ++ x ++ r) with ((a ++ b) ++ x ++ r)
    by (now rewrite !append_assoc).
  apply contains_middle.
Qed.

Lemma contains_fifth (a b c d x r : string) :
  contains x (a ++ b ++ c ++ d ++ x ++ r) = true.
Proof.
  replace (a ++ b ++ c ++ d ++ x ++ r) with ((a ++ b ++ c ++ d) ++ x ++ r)
    by (now rewrite !append_assoc).
  apply contains_middle.
Qed.

Lemma prefix_four (a b c d r : string) :
  String.prefix (a ++ b ++ c ++ d) (a ++ b ++ c ++ d ++ r) = true.
Proof.
  replace (a ++ b ++ c ++ d ++ r) with ((a ++ b ++ c ++ d) ++ r)
    by (now rewrite !append_assoc).
  apply prefix_app.
Qed.

Lemma document_contains_html (w : Preview.Ambient) (p : Preview.PreviewPanelProps) :
  contains (Preview.html p) (Preview.generatePreviewContent w p) = true.
Proof.
  unfold Preview.generatePreviewContent.
  rewrite <- (append_assoc (Preview.css p)).
  apply contains_third.
Qed.

Lemma document_contains_javascript (w : Preview.Ambient)
  (p : Preview.PreviewPanelProps) :
  contains (Preview.javascript p) (Preview.generatePreviewContent w p) = true.
Proof.
  unfold Preview.generatePreviewContent.
  rewrite <- (append_assoc (Preview.css p)).
  apply (contains_fifth Preview.before_css (Preview.css p ++ Preview.css_to_html)).
Qed.

(** The document up to the end of the user's HTML does not depend on the
    JavaScript. *)
Lemma document_prefix (w : Preview.Ambient) (p : Preview.PreviewPanelProps) :
  String.prefix
    (Preview.before_css ++ Preview.css p ++ Preview.css_to_html ++ Preview.html p)
    (Preview.generatePreviewContent w p) = true.
Proof.
  unfold Preview.generatePreviewContent. apply prefix_four.
Qed.

End PreviewFacts.

Module HostFacts.
Import Js Host.

Lemma Number_toString_inj (a b : Z) :
  Number_toString a = Number_toString b -> a = b.
Proof.
  unfold Number_toString. intros H.
  apply DecimalZ.to_int_inj.
  assert (Hnn : forall z, Z.to_int z <> Decimal.Pos Decimal.Nil
                          /\ Z.to_int z <> Decimal.Neg Decimal.Nil).
  { intros [| q | q]; simpl; split; try discriminate;
      intros E; inversion E as [E'];
      exact (DecimalPos.Unsigned.to_uint_nonnil q E'). }
  apply (f_equal NilZero.int_of_string) in H.
  rewrite !NilZero.isi in H by apply Hnn.
  now inversion H.
Qed.

(** The ids after a batch of receipts: one per accepted event, each the
    decimal reading of the clock at its receipt. *)
Lemma ids_receive_all (arrivals : list (Z * MessageEvent)) :
  forall s,
    App.ids (App.receive_all arrivals s)
    = (App.ids s
         ++ map (fun a => Number_toString (fst a))
              (filter (fun a => Spec.type_is_console (snd a)) arrivals))%list.
Proof.
  induction arrivals as [| [now event] arrivals IH]; intros s; simpl.
  - now rewrite app_nil_r.
  - rewrite IH. unfold App.receive, handleMessage, Spec.type_is_console.
    destruct (get (graph event) (data event) "type") as [t |];
      [| reflexivity].
    destruct (strict_equals t (VStr "console")); [| reflexivity].
    unfold App.ids, App.handleConsoleLog. simpl.
    rewrite map_app, <- app_assoc. reflexivity.
Qed.

(** Ids are distinct as long as no two receipts read the same millisecond. *)
Lemma ids_distinct_when_clock_advances (arrivals : list (Z * MessageEvent))
  (s : App.AppState) :
  App.consoleLogs s = [] ->
  NoDup (map fst arrivals) ->
  NoDup (App.ids (App.receive_all arrivals s)).
Proof.
  intros Hs Hnd. rewrite ids_receive_all. unfold App.ids at 1. rewrite Hs. simpl.
  rewrite <- (map_map fst Number_toString).
  apply Injective_map_NoDup.
  - intros a b. apply Number_toString_inj.
  - clear Hs. induction arrivals as [| [now event] arrivals IH]; simpl.
    + constructor.
    + inversion Hnd as [| x l Hnot Hrest]; subst.
      destruct (Spec.type_is_console event); simpl; [| now apply IH].
      constructor; [| now apply IH].
      intros Hin. apply Hnot.
      apply in_map_iff in Hin. destruct Hin as [y [Hy Hyin]].
      apply filter_In in Hyin. apply in_map_iff. exists y. tauto.
Qed.

End HostFacts.

(** * Results *)

Import Js Sandbox Host.

(** ** The preview frame *)

(** C1, as the specification states it, fails: on the default buffers the
    rendered frame's sandbox attribute does grant the same-origin capability. *)
Lemma C1_same_origin_granted :
  ~ Spec.withholds_same_origin (Preview.render Spec.sample_ambient Spec.default_props).
Proof.
  unfold Spec.withholds_same_origin. intros H. apply H.
  simpl. right. left. reflexivity.
Qed.

(** C1, amended: on every render, and after every refresh, the frame's
    sandbox attribute is the fixed pair of tokens [allow-scripts] and
    [allow-same-origin]: script execution is permitted, no further capability
    is requested, and the same-origin capability is granted to the composed
    document, which is the frame's [srcdoc]. *)
Theorem C1_sandbox_tokens (w w' : Preview.Ambient) (p p' : Preview.PreviewPanelProps) :
  Preview.sandbox_tokens (Preview.sandbox (Preview.render w p))
    = [Preview.allow_scripts; Preview.allow_same_origin]
  /\ Spec.permits_scripts (Preview.render w p)
  /\ ~ Spec.withholds_same_origin (Preview.render w p)
  /\ Preview.srcdoc (Preview.render w p) = Preview.generatePreviewContent w p
  /\ option_map Preview.sandbox
       (Preview.refreshPreview w' p' (Some (Preview.render w p)))
     = Some (Preview.sandbox (Preview.render w p)).
Proof.
  repeat split.
  - simpl. left. reflexivity.
  - unfold Spec.withholds_same_origin. intros H. apply H.
    simpl. right. left. reflexivity.
Qed.

(** ** The host's message listener *)

Lemma strict_equals_console (t : value) :
  strict_equals t (VStr "console") = true <-> t = VStr "console".
Proof.
  split.
  - destruct t; simpl; try discriminate.
    intros H. apply String.eqb_eq in H. now subst.
  - intros ->. reflexivity.
Qed.

Lemma list_neq_snoc {A} (l : list A) (x : A) : l <> (l ++ [x])%list.
Proof.
  intros H. apply (f_equal (@List.length A)) in H.
  rewrite length_app in H. simpl in H. lia.
Qed.

(** C2, as the specification states it, fails: a payload holding nothing but
    [type: 'console'] does not have the full relay shape, yet a record is
    appended for it. *)
Lemma C2_bare_payload_appended :
  ~ Spec.appends_iff_full_shape 0 Spec.bare_event (App.initial [] true).
Proof.
  intros [H _].
  assert (Hshape : Spec.matches_relay_shape Spec.bare_event = true).
  { apply H. eexists. reflexivity. }
  vm_compute in Hshape. discriminate.
Qed.

(** C2, amended: for every message event, the host appends a record exactly
    when the payload's [type] property is the string [console]; the record's
    level, message and timestamp are copied from the payload without any
    check; every other event, including one on which the listener throws,
    leaves the log sequence unchanged. *)
Theorem C2_appends_iff_type_console (now : Z) (event : MessageEvent)
  (s : App.AppState) :
  (Spec.appends_record now event s <-> Spec.type_is_console event = true)
  /\ App.receive now event s =
       (if Spec.type_is_console event
        then App.handleConsoleLog
               (mkConsoleLog (Number_toString now) (Spec.field event "level")
                  (Spec.field event "message") (Spec.field event "timestamp")) s
        else s).
Proof.
  assert (Hrecv : App.receive now event s =
       (if Spec.type_is_console event
        then App.handleConsoleLog
               (mkConsoleLog (Number_toString now) (Spec.field event "level")
                  (Spec.field event "message") (Spec.field event "timestamp")) s
        else s)).
  { unfold App.receive, handleMessage, Spec.type_is_console, Spec.field.
    destruct (get (graph event) (data event) "type") as [t |]; [| reflexivity].
    destruct (strict_equals t (VStr "console")); reflexivity. }
  split; [| exact Hrecv].
  unfold Spec.appends_record. rewrite Hrecv.
  destruct (Spec.type_is_console event).
  - split; [reflexivity |]. intros _. eexists. reflexivity.
  - split; [| discriminate].
    intros [log Hlog]. exfalso. exact (list_neq_snoc _ _ Hlog).
Qed.

Lemma C2_appends_iff_type_console_witness :
  Spec.appends_record 0 Spec.bare_event (App.initial [] true).
Proof.
  apply (proj1 (C2_appends_iff_type_console 0 Spec.bare_event (App.initial [] true))).
  reflexivity.
Defined.

(** ** Record ids *)

(** C3: the id of a record is minted by the host from its own clock, whatever
    the payload; but the five messages of the default script, received within
    one millisecond, get one and the same id, so ids are not unique across
    the sequence. *)
Theorem C3_ids_collide :
  (forall now event,
     match handleMessage now event with
     | Logged log => log_id log = Number_toString now
     | _ => True
     end)
  /\ App.ids (App.receive_all (Spec.default_arrivals 1700000000000) (App.initial [] true))
     = ["1700000000000"; "1700000000000"; "1700000000000";
        "1700000000000"; "1700000000000"]
  /\ ~ NoDup (App.ids (App.receive_all (Spec.default_arrivals 1700000000000)
                         (App.initial [] true))).
Proof.
  split; [| split].
  - intros now event. unfold handleMessage.
    destruct (get (graph event) (data event) "type") as [t |]; [| exact I].
    destruct (strict_equals t (VStr "console")); [reflexivity | exact I].
  - vm_compute. reflexivity.
  - intros H.
    assert (E : App.ids (App.receive_all (Spec.default_arrivals 1700000000000)
                           (App.initial [] true))
                = ["1700000000000"; "1700000000000"; "1700000000000";
                   "1700000000000"; "1700000000000"]) by (vm_compute; reflexivity).
    rewrite E in H. inversion H as [| x l Hnot _]; subst.
    apply Hnot. left. reflexivity.
Qed.

(** ** The log sequence *)

(** C4, as the specification states it, fails: loading a snippet removes the
    records of the sequence, and is not the clear action. *)
Lemma C4_load_snippet_removes :
  ~ Spec.only_clear_removes (App.LoadSnippet Spec.sample_snippet)
      (App.handleConsoleLog Spec.sample_log (App.initial [] true)).
Proof.
  unfold Spec.only_clear_removes. intros H.
  assert (Hc : App.is_clear_action (App.LoadSnippet Spec.sample_snippet) = true).
  { apply H. exists Spec.sample_log. split.
    - simpl. left. reflexivity.
    - simpl. tauto. }
  discriminate.
Qed.

Lemma onMultipleUpload_logs (files : list App.CodeFile) :
  forall s, App.consoleLogs (App.onMultipleUpload files s) = App.consoleLogs s.
Proof.
  unfold App.onMultipleUpload.
  induction files as [| f files IH]; intros s; simpl; [reflexivity |].
  rewrite IH. destruct (App.file_language f); reflexivity.
Qed.

(** C4, amended: every host operation either leaves the log sequence as it
    is, or appends one record to its end ([handleConsoleLog]), or empties it
    as a whole; the emptying operations are the clear action and also the
    [run] command, loading a snippet (directly or by name), loading a code
    file and resetting the code.  No operation removes a part of the
    sequence. *)
Theorem C4_append_or_empty (a : App.action) (s : App.AppState) :
  App.consoleLogs (App.step a s)
    = (if Spec.empties_log a s then []
       else App.consoleLogs s ++ Spec.appended a)%list
  /\ implb (App.is_clear_action a) (Spec.empties_log a s) = true.
Proof.
  split.
  - destruct a; simpl; try (now rewrite app_nil_r); try reflexivity.
    + unfold App.handleCommand.
      set (cmd := hd EmptyString
                    (Preview.split_on Preview.space (App.toLowerCase command))).
      set (arg0 := nth 1 (Preview.split_on Preview.space (App.toLowerCase command))
                     EmptyString).
      destruct (String.eqb cmd "run"); [reflexivity |].
      destruct (String.eqb cmd "clear"); [reflexivity |]. simpl.
      repeat match goal with
             | |- context [if String.eqb ?x ?y then _ else _] =>
                 destruct (String.eqb x y)
             end; simpl; now rewrite app_nil_r.
    + unfold App.loadSnippetByName.
      destruct (find _ snippets); simpl; [reflexivity | now rewrite app_nil_r].
    + destruct language; simpl; now rewrite app_nil_r.
    + destruct language; simpl; now rewrite app_nil_r.
    + destruct language; simpl; now rewrite app_nil_r.
    + destruct language; simpl; now rewrite app_nil_r.
    + rewrite onMultipleUpload_logs. now rewrite app_nil_r.
    + destruct prevState; simpl; now rewrite app_nil_r.
    + destruct nextState; simpl; now rewrite app_nil_r.
  - destruct a; simpl; try reflexivity.
    destruct (String.eqb _ "clear"); [| reflexivity].
    now rewrite orb_true_r.
Qed.

(** ** The composer *)

(** C5: the composed document depends on the three strings of the bundle and
    on nothing else: two compositions agree whenever the bundles agree,
    whatever the host clock, the source of randomness, the component state and
    the callback are at either time. *)
Theorem C5_composer_deterministic (w1 w2 : Preview.Ambient)
  (p1 p2 : Preview.PreviewPanelProps) :
  Preview.html p1 = Preview.html p2 ->
  Preview.css p1 = Preview.css p2 ->
  Preview.javascript p1 = Preview.javascript p2 ->
  Preview.generatePreviewContent w1 p1 = Preview.generatePreviewContent w2 p2.
Proof.
  intros Hh Hc Hj. unfold Preview.generatePreviewContent.
  now rewrite Hh, Hc, Hj.
Qed.

Lemma C5_composer_deterministic_witness :
  Preview.generatePreviewContent Spec.sample_ambient Spec.default_props
  = Preview.generatePreviewContent (Preview.mkAmbient 1700000000999 7 true)
      (Preview.mkProps App.defaultHTML App.defaultCSS App.defaultJS
         (fun log => match log_type log with VNull => tt | _ => tt end)).
Proof.
  apply C5_composer_deterministic; reflexivity.
Defined.


(** ** The console relay *)

(** C7: for each of the four console methods, one call with a single string
    argument relays exactly one message; its level is the method's name and
    its text is that string, and the host turns it into one record with that
    level and that text. *)
Theorem C7_single_string_round_trip (m : LogLevel) (s : string) (sb : sandbox) :
  exists sb' d g,
    console m [VStr s] sb = (Return tt, sb')
    /\ posted (sb_out sb') = (posted (sb_out sb) ++ [(d, g)])%list
    /\ Spec.is_relay g d (level_name m) (VStr s)
    /\ forall now,
         handleMessage now (deliver (d, g))
         = Logged (mkConsoleLog (Number_toString now) (VStr (level_name m))
                     (VStr s) (VStr (sb_now sb))).
Proof.
  rewrite SandboxFacts.console_run. simpl.
  unfold bind, ret. simpl. rewrite SandboxFacts.sendToParent_run.
  cbn [sb_heap sb_now sb_out].
  change (join " " [Some s]) with s.
  eexists _, (VRef (List.length (sb_heap sb))),
    (sb_heap sb ++ [Spec.relay_payload (VStr (level_name m)) (VStr s) (sb_now sb)])%list.
  split; [reflexivity |].
  cbn [sb_out].
  split.
  { rewrite !SandboxFacts.posted_app. simpl. now rewrite app_nil_r. }
  split.
  { apply SandboxFacts.payload_is_relay. }
  intros now. unfold handleMessage, deliver, get. cbn [data graph fst snd].
  rewrite JsFacts.lookup_alloc. reflexivity.
Qed.




(** The example of the specification: [console.log("a", 1, {x: 1})]. *)
Example console_log_a_1_x :
  exists sb' g,
    js_log_a_1_x (fresh "2023-11-14T22:13:20.000Z") = (Return tt, sb')
    /\ posted (sb_out sb') = [(VRef 1, g)]
    /\ Spec.is_relay g (VRef 1) "log"
         (VStr ("a 1 {" ++ nl ++ "  " ++ dq ++ "x" ++ dq ++ ": 1" ++ nl ++ "}")).
Proof.
  eexists _, _. split; [vm_compute; reflexivity |].
  split; [reflexivity |]. repeat split.
Qed.

(** What the code does with the cyclic argument when the call sits in the
    user's script: the [TypeError] of [JSON.stringify] reaches the guarded
    block, which relays the engine's message for it at level [error]. *)
Example cyclic_log_reported_as_error :
  exists g message,
    posted (sb_out (run_script Spec.chromium_report js_log_cycle
                      (fresh "2023-11-14T22:13:20.000Z")))
      = [(VRef 2, g)]
    /\ Spec.is_relay g (VRef 2) "error" (VStr message).
Proof.
  eexists _, _. split; [vm_compute; reflexivity |]. repeat split.
Qed.

(** ** The guarded block *)

(** C9: a synchronous throw of the user's JavaScript never ends the script
    without a relay: exactly one error-level message follows what the code
    had posted before the throw.  For [throw new Error("boom")] the guarded
    block itself completes and relays exactly one error-level message, whose
    text contains [boom]; and the composed document holds the CSS and the HTML
    ahead of the script element, whatever the script does. *)
Theorem C9_throw_is_relayed :
  (forall report javascript sb v sb1,
     javascript sb = (Throw v, sb1) ->
     exists d g message,
       posted (sb_out (run_script report javascript sb))
         = (posted (sb_out sb1) ++ [(d, g)])%list
       /\ Spec.is_relay g d "error" message)
  /\ (forall sb,
        exists text,
          Spec.guard_relays (js_throw_new_Error "boom") sb (sb_out sb) (VStr text)
          /\ contains "boom" text = true)
  /\ (forall w h c cb,
        let doc :=
          Preview.generatePreviewContent w (Preview.mkProps h c Spec.boom_source cb) in
        String.prefix (Preview.before_css ++ c ++ Preview.css_to_html ++ h) doc = true
        /\ contains c doc = true
        /\ contains h doc = true
        /\ contains Spec.boom_source doc = true).
Proof.
  split; [| split].
  - intros report javascript sb v sb1 Hrun. unfold run_script.
    destruct (get (sb_heap sb1) v "message") as [m |] eqn:Hget.
    + destruct (SandboxFacts.guarded_throw _ _ _ _ _ Hrun Hget)
        as [sb' [d [g [Hg [Hout Hrel]]]]].
      rewrite Hg, Hout, SandboxFacts.posted_app. simpl. eauto.
    + destruct (SandboxFacts.guarded_throw_nullish _ _ _ _ Hrun Hget)
        as [e [sb2 [Hg Hout]]].
      rewrite Hg. unfold error_listener.
      rewrite SandboxFacts.sendToParent_run. simpl.
      rewrite SandboxFacts.posted_app, Hout. simpl.
      eexists _, _, _. split; [reflexivity |].
      apply SandboxFacts.payload_is_relay.
  - intros sb. exists "boom". split; [| reflexivity].
    apply (SandboxFacts.guarded_throw (js_throw_new_Error "boom") sb
             (mkSandbox (sb_heap sb ++ [OError "Error" "boom"])%list
                (sb_now sb) (sb_out sb))
             (VRef (List.length (sb_heap sb)))).
    + reflexivity.
    + unfold get. simpl. rewrite JsFacts.lookup_alloc. reflexivity.
  - intros w h c cb doc. subst doc. repeat split.
    + apply (PreviewFacts.document_prefix w (Preview.mkProps h c Spec.boom_source cb)).
    + apply StringFacts.contains_middle.
    + apply (PreviewFacts.document_contains_html w
               (Preview.mkProps h c Spec.boom_source cb)).
    + apply (PreviewFacts.document_contains_javascript w
               (Preview.mkProps h c Spec.boom_source cb)).
Qed.

Lemma C9_throw_is_relayed_witness :
  exists d g message,
    posted (sb_out (run_script Spec.chromium_report (js_throw_new_Error "boom")
                      (fresh "2023-11-14T22:13:20.000Z")))
      = ([] ++ [(d, g)])%list
    /\ Spec.is_relay g d "error" message.
Proof.
  apply (proj1 C9_throw_is_relayed Spec.chromium_report (js_throw_new_Error "boom")
           (fresh "2023-11-14T22:13:20.000Z") (VRef 0)
           (mkSandbox [OError "Error" "boom"] "2023-11-14T22:13:20.000Z" [])).
  reflexivity.
Defined.

(** C10, as stated, fails: a thrown plain object that has a [message]
    property is no [Error] object, and its message is relayed as a string. *)
Lemma C10_thrown_object_message_relayed :
  ~ Spec.non_Error_throw_relays_undefined (js_throw_object (VStr "boom"))
      (fresh "2023-11-14T22:13:20.000Z").
Proof.
  intros H.
  destruct (H (VRef 0)
              (mkSandbox [OPlain [("message", VStr "boom")]]
                 "2023-11-14T22:13:20.000Z" [])
              eq_refl eq_refl)
    as [sb' [d [g [Hrun [Hout [_ [_ Hmsg]]]]]]].
  vm_compute in Hrun. inversion Hrun; subst. simpl in Hout.
  inversion Hout; subst. vm_compute in Hmsg. discriminate.
Qed.

(** C10, amended: the guarded block forwards the thrown value's [message]
    property, not the value.  So when the thrown value is a primitive string,
    number or boolean (such as [throw "boom"]) the relayed error-level
    payload's message field is [undefined]; a thrown object has whatever its
    [message] property holds relayed; and for a thrown [null] or [undefined]
    the read itself throws inside the handler and the block relays nothing. *)
Theorem C10_message_property_forwarded (javascript : JS unit)
  (sb sb1 : sandbox) (v : value) :
  javascript sb = (Throw v, sb1) ->
  match get (sb_heap sb1) v "message" with
  | Some m =>
      Spec.guard_relays javascript sb (sb_out sb1) m
      /\ (is_primitive v = true -> m = VUndefined)
  | None =>
      (v = VUndefined \/ v = VNull)
      /\ exists e sb2,
           guarded javascript sb = (Throw e, sb2) /\ sb_out sb2 = sb_out sb1
  end.
Proof.
  intros Hrun.
  destruct (get (sb_heap sb1) v "message") as [m |] eqn:Hget.
  - split.
    + exact (SandboxFacts.guarded_throw _ _ _ _ _ Hrun Hget).
    + intros Hp. destruct v; simpl in Hp; try discriminate;
        simpl in Hget; now inversion Hget.
  - split.
    + destruct v; simpl in Hget; try discriminate; auto.
      destruct (lookup (sb_heap sb1) l) as [ps | es | nm msg].
      * destruct (assoc "message" ps); discriminate.
      * discriminate.
      * discriminate.
    + exact (SandboxFacts.guarded_throw_nullish _ _ _ _ Hrun Hget).
Qed.

Lemma C10_message_property_forwarded_witness :
  Spec.guard_relays (js_throw (VStr "boom")) (fresh "2023-11-14T22:13:20.000Z")
    [] VUndefined
  /\ (is_primitive (VStr "boom") = true -> VUndefined = VUndefined).
Proof.
  apply (C10_message_property_forwarded (js_throw (VStr "boom"))
           (fresh "2023-11-14T22:13:20.000Z")
           (fresh "2023-11-14T22:13:20.000Z") (VStr "boom")).
  reflexivity.
Defined.

(** * Line-based edits of the assistant services *)

Module LinesFacts.
Import Lines.

Lemma split_on_cons (c : ascii) (s : string) :
  exists l ls, Preview.split_on c s = l :: ls.
Proof.
  induction s as [| x s IH]; simpl.
  - eauto.
  - destruct (Ascii.eqb x c); [eauto |].
    destruct IH as [l [ls ->]]. eauto.
Qed.

Lemma split_lines_length (s : string) : 1 <= List.length (split_lines s).
Proof.
  destruct (split_on_cons newline s) as [l [ls H]].
  unfold split_lines. rewrite H. simpl. lia.
Qed.

Lemma join_cons (l : string) (ls : list string) :
  ls <> [] -> join_lines (l :: ls) = l ++ nl ++ join_lines ls.
Proof. destruct ls; [congruence | reflexivity]. Qed.

(** Splitting and joining again gives the text back. *)
Lemma join_split (s : string) : join_lines (split_lines s) = s.
Proof.
  unfold split_lines.
  induction s as [| x s IH]; [reflexivity |].
  destruct (split_on_cons newline s) as [l [ls H]].
  cbn [Preview.split_on]. rewrite H in *.
  destruct (Ascii.eqb x newline) eqn:E.
  - apply Ascii.eqb_eq in E. subst x.
    rewrite join_cons by discriminate.
    rewrite IH. reflexivity.
  - destruct ls as [| l' ls].
    + cbn in *. now rewrite IH.
    + rewrite join_cons by discriminate.
      rewrite join_cons in IH by discriminate.
      cbn [String.append]. now rewrite IH.
Qed.

Lemma split_one_line (l : string) : one_line l = true -> split_lines l = [l].
Proof.
  unfold split_lines. induction l as [| x l IH]; simpl; [reflexivity |].
  intros H. apply andb_true_iff in H. destruct H as [Hx Hl].
  apply negb_true_iff in Hx. rewrite Hx, (IH Hl). reflexivity.
Qed.

Lemma split_line_then_char (l t : string) :
  one_line l = true ->
  Preview.split_on newline (l ++ String newline t) = l :: Preview.split_on newline t.
Proof.
  induction l as [| x l IH]; intros H.
  - cbn [String.append Preview.split_on]. now rewrite Ascii.eqb_refl.
  - cbn [one_line] in H. apply andb_true_iff in H. destruct H as [Hx Hl].
    apply negb_true_iff in Hx.
    cbn [String.append Preview.split_on]. rewrite Hx, (IH Hl). reflexivity.
Qed.

Lemma split_line_then (l t : string) :
  one_line l = true -> split_lines (l ++ nl ++ t) = l :: split_lines t.
Proof. intros H. unfold split_lines. exact (split_line_then_char l t H). Qed.

(** The lines of a text hold no line break. *)
Lemma split_lines_one_line (s : string) : Forall (fun l => one_line l = true) (split_lines s).
Proof.
  unfold split_lines. induction s as [| x s IH]; simpl.
  - repeat constructor.
  - destruct (Ascii.eqb x newline) eqn:E.
    + constructor; [reflexivity | assumption].
    + destruct (Preview.split_on newline s) as [| l ls]; [repeat constructor; simpl; now rewrite E |].
      inversion IH; subst. constructor; [| assumption].
      simpl. now rewrite E.
Qed.

(** Joining lines and splitting again gives the lines back. *)
Lemma split_join (ls : list string) :
  ls <> [] -> Forall (fun l => one_line l = true) ls ->
  split_lines (join_lines ls) = ls.
Proof.
  induction ls as [| l ls IH]; [congruence |].
  intros _ H. inversion H as [| ? ? Hl Hls]; subst.
  destruct ls as [| l' ls].
  - simpl. now apply split_one_line.
  - rewrite join_cons by discriminate.
    rewrite split_line_then by assumption.
    rewrite IH; [reflexivity | discriminate | assumption].
Qed.

Lemma set_nth_length (i : nat) (x : string) (ls : list string) :
  List.length (set_nth i x ls) = List.length ls.
Proof.
  revert i. induction ls as [| l ls IH]; intros [| i]; simpl; auto.
Qed.

Lemma set_nth_nth (i : nat) (x : string) (ls : list string) (j : nat) :
  i < List.length ls ->
  nth j (set_nth i x ls) EmptyString
  = if Nat.eqb j i then x else nth j ls EmptyString.
Proof.
  revert i j. induction ls as [| l ls IH]; intros [| i] [| j] H; simpl in *;
    try lia; try reflexivity.
  apply IH. lia.
Qed.

Lemma set_nth_one_line (i : nat) (x : string) (ls : list string) :
  one_line x = true -> Forall (fun l => one_line l = true) ls ->
  Forall (fun l => one_line l = true) (set_nth i x ls).
Proof.
  intros Hx. revert i. induction ls as [| l ls IH]; intros [| i] H; simpl;
    inversion H; subst; constructor; auto.
Qed.

Lemma set_nth_nonempty (i : nat) (x : string) (ls : list string) :
  ls <> [] -> set_nth i x ls <> [].
Proof. destruct ls, i; simpl; congruence. Qed.

End LinesFacts.

Module CompareFacts.
Import Lines.

Lemma count_type_snoc (ty : DifferenceType) (ds : list CodeDifference)
  (d : CodeDifference) :
  count_type ty (ds ++ [d])
  = count_type ty ds + (if is_type ty d then 1 else 0).
Proof.
  unfold count_type. rewrite filter_app, length_app. simpl.
  destruct (is_type ty d); reflexivity.
Qed.

Lemma compare_line_counted (o e : list string) acc (i : nat) :
  counted acc -> counted (compare_line o e acc i).
Proof.
  destruct acc as [ds st]. unfold counted, compare_line. simpl.
  intros [Ha [Hr Hm]].
  destruct (negb (String.eqb (line_or_empty o i) (line_or_empty e i)));
    [| simpl; auto].
  destruct (negb (nonempty (line_or_empty o i)) && nonempty (line_or_empty e i));
    [| destruct (nonempty (line_or_empty o i) && negb (nonempty (line_or_empty e i)))];
    simpl; rewrite !count_type_snoc; simpl; lia.
Qed.

Lemma fold_counted (o e : list string) (idx : list nat) :
  forall acc, counted acc -> counted (fold_left (compare_line o e) idx acc).
Proof.
  induction idx as [| i idx IH]; intros acc H; simpl; [assumption |].
  apply IH. now apply compare_line_counted.
Qed.

Lemma count_types_total (ds : list CodeDifference) :
  count_type Addition ds + count_type Deletion ds + count_type Modification ds
  = List.length ds.
Proof.
  unfold count_type. induction ds as [| d ds IH]; simpl; [reflexivity |].
  destruct d as [[| |] n c]; simpl; lia.
Qed.

(** The loop only appends to the list of differences. *)
Lemma fold_appends (o e : list string) (idx : list nat) :
  forall acc, exists more,
    fst (fold_left (compare_line o e) idx acc) = (fst acc ++ more)%list
    /\ (more = [] <->
        forall i, In i idx -> line_or_empty o i = line_or_empty e i).
Proof.
  induction idx as [| i idx IH]; intros acc; simpl.
  - exists []. rewrite app_nil_r. split; [reflexivity |]. split; [intros _ i [] | reflexivity].
  - destruct (IH (compare_line o e acc i)) as [more [Hfst Hiff]].
    destruct acc as [ds st]. unfold compare_line in *. simpl in *.
    destruct (String.eqb (line_or_empty o i) (line_or_empty e i)) eqn:E; simpl in *.
    + apply String.eqb_eq in E. exists more. split; [assumption |].
      rewrite Hiff. split.
      * intros H j [<- | Hj]; auto.
      * intros H j Hj. apply H. now right.
    + apply String.eqb_neq in E.
      destruct (negb (nonempty (line_or_empty o i)) && nonempty (line_or_empty e i));
        [| destruct (nonempty (line_or_empty o i) && negb (nonempty (line_or_empty e i)))];
        simpl in Hfst; rewrite <- app_assoc in Hfst;
        eexists; (split; [exact Hfst |]);
        (split; [discriminate | intros H; exfalso; apply E; apply H; now left]).
Qed.

Lemma fold_mirrored (o e : list string) (idx : list nat) :
  forall acc1 acc2,
    mirrored (snd acc1) (snd acc2) ->
    mirrored (snd (fold_left (compare_line o e) idx acc1))
             (snd (fold_left (compare_line e o) idx acc2)).
Proof.
  induction idx as [| i idx IH]; intros acc1 acc2 H; simpl; [assumption |].
  apply IH. destruct acc1 as [d1 s1], acc2 as [d2 s2].
  unfold compare_line. simpl in *.
  rewrite (String.eqb_sym (line_or_empty e i) (line_or_empty o i)).
  destruct (String.eqb (line_or_empty o i) (line_or_empty e i)) eqn:E;
    simpl; [assumption |].
  apply String.eqb_neq in E.
  destruct H as [Ha [Hr Hm]].
  destruct (nonempty (line_or_empty o i)) eqn:No,
           (nonempty (line_or_empty e i)) eqn:Ne; simpl;
    unfold mirrored; simpl; lia.
Qed.

End CompareFacts.

Module PartialFacts.
Import Lines LinesFacts.

Lemma insert_desc_perm (s : AICodeSuggestion) (l : list AICodeSuggestion) :
  Permutation (insert_desc s l) (s :: l).
Proof.
  induction l as [| t l IH]; simpl; [reflexivity |].
  destruct (line_or_zero t >=? line_or_zero s)%Z; [| reflexivity].
  rewrite IH. apply perm_swap.
Qed.

Lemma fold_insert_perm (xs : list AICodeSuggestion) :
  forall acc,
    Permutation (fold_left (fun sorted s => insert_desc s sorted) xs acc)
                (xs ++ acc).
Proof.
  induction xs as [| x xs IH]; intros acc; simpl; [reflexivity |].
  rewrite IH, insert_desc_perm. symmetry. apply Permutation_middle.
Qed.

(** Sorting neither loses nor invents a suggestion. *)
Lemma sort_desc_perm (xs : list AICodeSuggestion) : Permutation (sort_desc xs) xs.
Proof.
  unfold sort_desc. rewrite fold_insert_perm. now rewrite app_nil_r.
Qed.

Lemma insert_desc_sorted (s : AICodeSuggestion) (l : list AICodeSuggestion) :
  descending l -> descending (insert_desc s l).
Proof.
  unfold descending. induction l as [| t l IH]; intros H; simpl.
  - repeat constructor.
  - inversion H as [| ? ? Hl Ht]; subst.
    destruct (line_or_zero t >=? line_or_zero s)%Z eqn:E.
    + constructor; [now apply IH |].
      rewrite Forall_forall in *. intros x Hx.
      apply (Permutation_in _ (insert_desc_perm s l)) in Hx.
      destruct Hx as [<- | Hx]; [| now apply Ht].
      apply Z.geb_le in E. lia.
    + rewrite Z.geb_leb in E. apply Z.leb_gt in E.
      constructor; [assumption |].
      constructor; [lia |].
      rewrite Forall_forall in *. intros x Hx. specialize (Ht x Hx). lia.
Qed.

Lemma sort_desc_sorted (xs : list AICodeSuggestion) : descending (sort_desc xs).
Proof.
  unfold sort_desc.
  assert (H : forall acc, descending acc ->
                descending (fold_left (fun sorted s => insert_desc s sorted) xs acc)).
  { induction xs as [| x xs IH]; intros acc Hacc; simpl; [assumption |].
    apply IH. now apply insert_desc_sorted. }
  apply H. constructor.
Qed.

Lemma distinct_lines_NoDup (xs : list AICodeSuggestion) :
  distinct_lines xs = true -> NoDup (map line_or_zero xs).
Proof.
  induction xs as [| s xs IH]; simpl; intros H; [constructor |].
  apply andb_true_iff in H. destruct H as [Hs Hr].
  constructor; [| now apply IH].
  intros Hin. apply in_map_iff in Hin. destruct Hin as [t [Ht Hin]].
  apply negb_true_iff in Hs.
  assert (E : existsb (fun t => (line_or_zero t =? line_or_zero s)%Z) xs = true).
  { apply existsb_exists. exists t. split; [assumption | now apply Z.eqb_eq]. }
  congruence.
Qed.

Lemma array_set_nat (i : nat) (x : string) (ls : list string) :
  array_set (Z.of_nat i) x ls = aset i x ls.
Proof.
  unfold array_set, aset.
  assert (E : (Z.of_nat i <? 0)%Z = false) by (apply Z.ltb_ge; lia).
  now rewrite E, Nat2Z.id.
Qed.

Lemma aset_cons (i : nat) (x b : string) (ls : list string) :
  aset (S i) x (b :: ls) = b :: aset i x ls.
Proof.
  unfold aset. cbn [List.length].
  change (S i <? S (List.length ls))%nat with (i <? List.length ls)%nat.
  destruct (i <? List.length ls)%nat; reflexivity.
Qed.

Lemma aset_nonempty (i : nat) (x : string) (ls : list string) : aset i x ls <> [].
Proof.
  unfold aset. destruct (i <? List.length ls)%nat eqn:E.
  - apply Nat.ltb_lt in E. apply set_nth_nonempty. destruct ls; simpl in *; [lia | discriminate].
  - destruct ls; simpl; [destruct (repeat _ _); discriminate | discriminate].
Qed.

(** Writing line [i] of the joined blocks, when the blocks up to [i] are
    single lines, is writing block [i]. *)
Lemma set_in_joined (B : list string) :
  forall i x,
    i < List.length B ->
    Forall (fun l => one_line l = true) (firstn (S i) B) ->
    join_lines (aset i x (split_lines (join_lines B))) = join_lines (set_nth i x B).
Proof.
  induction B as [| b R IH]; intros i x Hi Hone; [simpl in Hi; lia |].
  cbn [firstn] in Hone. inversion Hone as [| ? ? Hb HR]; subst.
  destruct R as [| r R].
  - destruct i; [| simpl in Hi; lia].
    cbn [join_lines String.concat set_nth]. rewrite (split_one_line b Hb). reflexivity.
  - rewrite join_cons by discriminate.
    rewrite (split_line_then b _ Hb).
    destruct i as [| i].
    + change (aset 0 x (b :: split_lines (join_lines (r :: R))))
        with (x :: split_lines (join_lines (r :: R))).
      cbn [set_nth].
      rewrite (join_cons x (r :: R)) by discriminate.
      rewrite join_cons.
      * now rewrite join_split.
      * pose proof (split_lines_length (join_lines (r :: R))) as Hlen.
        destruct (split_lines (join_lines (r :: R))); [simpl in Hlen; lia | discriminate].
    + rewrite aset_cons. cbn [set_nth].
      rewrite (join_cons b (aset i x _)) by apply aset_nonempty.
      rewrite (join_cons b (set_nth i x (r :: R)))
        by (apply set_nth_nonempty; discriminate).
      rewrite IH; [reflexivity | simpl in *; lia | assumption].
Qed.

Lemma firstn_set_nth (k i : nat) (x : string) (ls : list string) :
  k <= i -> firstn k (set_nth i x ls) = firstn k ls.
Proof.
  revert k i. induction ls as [| l ls IH]; intros [| k] [| i] H; simpl;
    try reflexivity; try lia.
  f_equal. apply IH. lia.
Qed.

Lemma apply_suggestion_block (B : list string) (s : AICodeSuggestion) :
  targets_line (List.length B) s = true ->
  Forall (fun l => one_line l = true) (firstn (Z.to_nat (line_or_zero s)) B) ->
  apply_suggestion (join_lines B) s = join_lines (set_block B s).
Proof.
  unfold targets_line, apply_suggestion, set_block, line_or_zero.
  destruct (sugg_lineNumber s) as [n |]; [| discriminate].
  intros H Hone.
  apply andb_true_iff in H. destruct H as [H Hc].
  apply andb_true_iff in H. destruct H as [H1 H2].
  apply Z.leb_le in H1. apply Z.leb_le in H2.
  assert (E : (n =? 0)%Z = false) by (apply Z.eqb_neq; lia).
  rewrite E, Hc. cbn [negb andb].
  replace (n - 1)%Z with (Z.of_nat (Z.to_nat (n - 1))) at 1 by lia.
  rewrite array_set_nat. apply set_in_joined.
  - lia.
  - replace (S (Z.to_nat (n - 1))) with (Z.to_nat n) by lia. assumption.
Qed.

(** Applied from the highest line down, the suggestions write the blocks
    they name. *)
Lemma fold_apply_blocks (S : list AICodeSuggestion) :
  forall B,
    descending S -> NoDup (map line_or_zero S) ->
    (forall s, In s S ->
       targets_line (List.length B) s = true
       /\ Forall (fun l => one_line l = true) (firstn (Z.to_nat (line_or_zero s)) B)) ->
    fold_left apply_suggestion S (join_lines B)
    = join_lines (fold_left set_block S B).
Proof.
  induction S as [| s S IH]; intros B Hdesc Hnd Hall; [reflexivity |].
  cbn [fold_left].
  destruct (Hall s (or_introl eq_refl)) as [Ht Hone].
  rewrite (apply_suggestion_block B s Ht Hone).
  inversion Hdesc as [| ? ? Hd' Hle]; subst.
  cbn [map] in Hnd. inversion Hnd as [| ? ? Hnot Hnd']; subst.
  apply IH; try assumption.
  intros t Hin. destruct (Hall t (or_intror Hin)) as [Ht' Hone'].
  unfold set_block. rewrite set_nth_length. split; [assumption |].
  rewrite firstn_set_nth; [assumption |].
  rewrite Forall_forall in Hle. specialize (Hle t Hin).
  assert (Hneq : line_or_zero t <> line_or_zero s).
  { intros E. apply Hnot. rewrite <- E. now apply in_map. }
  lia.
Qed.

Lemma mapi_from_length {A B} (f : A -> nat -> B) (xs : list A) :
  forall i, List.length (mapi_from i f xs) = List.length xs.
Proof. induction xs as [| x xs IH]; intros i; simpl; [reflexivity | now rewrite IH]. Qed.

Lemma mapi_from_nth {A B} (f : A -> nat -> B) (xs : list A) (da : A) (db : B) :
  forall i j, j < List.length xs ->
    nth j (mapi_from i f xs) db = f (nth j xs da) (i + j).
Proof.
  induction xs as [| x xs IH]; intros i j Hj; simpl in *; [lia |].
  destruct j as [| j].
  - now rewrite Nat.add_0_r.
  - rewrite IH by lia. f_equal. lia.
Qed.

Lemma find_none_key (k : Z) (xs : list AICodeSuggestion) :
  ~ In k (map line_or_zero xs) ->
  find (fun s => (line_or_zero s =? k)%Z) xs = None.
Proof.
  induction xs as [| s xs IH]; simpl; intros H; [reflexivity |].
  destruct (line_or_zero s =? k)%Z eqn:E.
  - apply Z.eqb_eq in E. exfalso. apply H. now left.
  - apply IH. intros Hin. apply H. now right.
Qed.

(** The blocks after all writes, line by line. *)
Lemma fold_set_block_nth (S : list AICodeSuggestion) :
  forall B i,
    NoDup (map line_or_zero S) ->
    (forall s, In s S -> targets_line (List.length B) s = true) ->
    i < List.length B ->
    nth i (fold_left set_block S B) EmptyString
    = match find (fun s => (line_or_zero s =? Z.of_nat (i + 1))%Z) S with
      | Some s => sugg_code s
      | None => nth i B EmptyString
      end.
Proof.
  induction S as [| s S IH]; intros B i Hnd Hall Hi; [reflexivity |].
  cbn [fold_left find map] in *. inversion Hnd as [| ? ? Hnot Hnd']; subst.
  assert (Hs : targets_line (List.length B) s = true) by (apply Hall; now left).
  assert (Hrange : (1 <= line_or_zero s <= Z.of_nat (List.length B))%Z).
  { unfold targets_line, line_or_zero in *.
    destruct (sugg_lineNumber s); [| discriminate].
    apply andb_true_iff in Hs. destruct Hs as [Hs _].
    apply andb_true_iff in Hs. destruct Hs as [H1 H2].
    apply Z.leb_le in H1. apply Z.leb_le in H2. lia. }
  rewrite IH; try assumption.
  - destruct (line_or_zero s =? Z.of_nat (i + 1))%Z eqn:E.
    + apply Z.eqb_eq in E.
      rewrite find_none_key by (rewrite <- E; assumption).
      unfold set_block. rewrite set_nth_nth by lia.
      replace (Z.to_nat (line_or_zero s - 1)) with i by lia.
      now rewrite Nat.eqb_refl.
    + apply Z.eqb_neq in E.
      destruct (find _ S); [reflexivity |].
      unfold set_block. rewrite set_nth_nth by lia.
      destruct (Nat.eqb i (Z.to_nat (line_or_zero s - 1))) eqn:E2; [| reflexivity].
      apply Nat.eqb_eq in E2. lia.
  - intros t Ht. unfold set_block. rewrite set_nth_length. apply Hall. now right.
  - unfold set_block. now rewrite set_nth_length.
Qed.

Lemma fold_set_block_length (S : list AICodeSuggestion) :
  forall B, List.length (fold_left set_block S B) = List.length B.
Proof.
  induction S as [| s S IH]; intros B; simpl; [reflexivity |].
  rewrite IH. unfold set_block. apply set_nth_length.
Qed.

(** With distinct line numbers, looking a line up does not depend on the
    order of the list. *)
Lemma find_perm (k : Z) (xs ys : list AICodeSuggestion) :
  Permutation xs ys -> NoDup (map line_or_zero xs) ->
  find (fun s => (line_or_zero s =? k)%Z) xs
  = find (fun s => (line_or_zero s =? k)%Z) ys.
Proof.
  intros Hp. induction Hp as [| x xs ys Hp IH | x y xs | xs ys zs H1 IH1 H2 IH2];
    intros Hnd.
  - reflexivity.
  - simpl in *. inversion Hnd; subst.
    destruct (line_or_zero x =? k)%Z; [reflexivity | now apply IH].
  - simpl in *. inversion Hnd as [| ? ? Hnot Hnd']; subst.
    destruct (line_or_zero y =? k)%Z eqn:Ey, (line_or_zero x =? k)%Z eqn:Ex;
      try reflexivity.
    apply Z.eqb_eq in Ey. apply Z.eqb_eq in Ex.
    exfalso. apply Hnot. left. congruence.
  - rewrite IH1 by assumption. apply IH2.
    apply (Permutation_NoDup (Permutation_map line_or_zero H1) Hnd).
Qed.

End PartialFacts.

Module NumberFacts.
Import Lines.

Lemma one_line_app (a b : string) :
  one_line (a ++ b) = one_line a && one_line b.
Proof.
  induction a as [| c a IH]; simpl; [reflexivity |].
  rewrite IH. now rewrite andb_assoc.
Qed.

Lemma one_line_uint (d : Decimal.uint) :
  one_line (NilEmpty.string_of_uint d) = true.
Proof. induction d; simpl; auto. Qed.

(** The decimal form of a number holds no line break. *)
Lemma one_line_number (z : Z) : one_line (Js.Number_toString z) = true.
Proof.
  unfold Js.Number_toString, NilZero.string_of_int, NilZero.string_of_uint.
  destruct (Z.to_int z) as [d | d]; destruct d; simpl; auto using one_line_uint.
Qed.

Lemma one_line_spaces (k : nat) :
  one_line (String.concat EmptyString (repeat " " k)) = true.
Proof.
  induction k as [| k IH]; [reflexivity |].
  cbn [repeat]. destruct k; [reflexivity |].
  change (String.concat EmptyString (" " :: repeat " " (S k)))
    with (" " ++ EmptyString ++ String.concat EmptyString (repeat " " (S k))).
  rewrite !one_line_app, IH. reflexivity.
Qed.

Lemma one_line_padStart (n : nat) (s : string) :
  one_line s = true -> one_line (padStart n s) = true.
Proof.
  intros H. unfold padStart. now rewrite one_line_app, one_line_spaces, H.
Qed.

Lemma mapi_from_one_line (f : string -> nat -> string) (ls : list string) :
  (forall l i, one_line l = true -> one_line (f l i) = true) ->
  Forall (fun l => one_line l = true) ls ->
  forall i, Forall (fun l => one_line l = true) (mapi_from i f ls).
Proof.
  intros Hf H. induction H as [| l ls Hl Hls IH]; intros i; simpl;
    constructor; auto.
Qed.

End NumberFacts.

Section LineEdits.

(** * Line-based editing *)

Import Lines.

(** X1: replacing a line that exists (1 <= n <= number of lines) by a text
    without line break succeeds; the result has the same number of lines, its
    line n is the new text and every other line is the original one. *)
Theorem replace_changes_one_line (code c : string) (n : Z) :
  one_line c = true ->
  (1 <= n <= Z.of_nat (List.length (split_lines code)))%Z ->
  exists r,
    applyCodeModification code (mkModification Replace n c) = Some r
    /\ List.length (split_lines r) = List.length (split_lines code)
    /\ forall i,
         nth i (split_lines r) EmptyString
         = if Nat.eqb i (Z.to_nat (n - 1)) then c
           else nth i (split_lines code) EmptyString.
Proof.
  intros Hc Hn. unfold applyCodeModification. cbn [action lineNumber Lines.code].
  assert (H0 : (0 <=? n - 1)%Z = true) by (apply Z.leb_le; lia).
  assert (H1 : (n - 1 <? Z.of_nat (List.length (split_lines code)))%Z = true)
    by (apply Z.ltb_lt; lia).
  rewrite H0, H1. cbn [andb].
  eexists. split; [reflexivity |].
  assert (Hsplit : split_lines (join_lines (set_nth (Z.to_nat (n - 1)) c (split_lines code)))
                   = set_nth (Z.to_nat (n - 1)) c (split_lines code)).
  { apply LinesFacts.split_join.
    - apply LinesFacts.set_nth_nonempty.
      pose proof (LinesFacts.split_lines_length code).
      destruct (split_lines code); simpl in *; [lia | discriminate].
    - apply LinesFacts.set_nth_one_line; [assumption |].
      apply LinesFacts.split_lines_one_line. }
  rewrite Hsplit. split.
  - apply LinesFacts.set_nth_length.
  - intros i. apply LinesFacts.set_nth_nth. lia.
Qed.

Lemma replace_changes_one_line_witness :
  exists r,
    applyCodeModification ("a" ++ nl ++ "b" ++ nl ++ "c")
      (mkModification Replace 2 "B") = Some r
    /\ List.length (split_lines r)
       = List.length (split_lines ("a" ++ nl ++ "b" ++ nl ++ "c"))
    /\ forall i,
         nth i (split_lines r) EmptyString
         = if Nat.eqb i (Z.to_nat (2 - 1)) then "B"
           else nth i (split_lines ("a" ++ nl ++ "b" ++ nl ++ "c")) EmptyString.
Proof.
  apply (replace_changes_one_line ("a" ++ nl ++ "b" ++ nl ++ "c") "B" 2).
  - reflexivity.
  - vm_compute. split; discriminate.
Defined.

Lemma splice_insert_valid (n : nat) (x : string) (ls : list string) :
  n <= List.length ls ->
  splice_insert (Z.of_nat n) x ls = (firstn n ls ++ x :: skipn n ls)%list.
Proof.
  intros H. unfold splice_insert.
  assert (E : (Z.of_nat n <? 0)%Z = false) by (apply Z.ltb_ge; lia).
  rewrite E. rewrite Z.min_l by lia. now rewrite Nat2Z.id.
Qed.

(** X2: inserting a text without line break at a validated line n
    (1 <= n <= number of lines + 1) never loses a line: the result has one
    line more, the lines before n are unchanged, line n is the new text and
    the former lines n, n+1, ... follow it. *)
Theorem insert_shifts_following_lines (code c : string) (n : Z) :
  one_line c = true ->
  isValid (validateLineNumber code n) = true ->
  exists r,
    applyCodeModification code (mkModification Insert n c) = Some r
    /\ List.length (split_lines r) = S (List.length (split_lines code))
    /\ forall i,
         nth i (split_lines r) EmptyString
         = if Nat.ltb i (Z.to_nat (n - 1)) then nth i (split_lines code) EmptyString
           else if Nat.eqb i (Z.to_nat (n - 1)) then c
           else nth (i - 1) (split_lines code) EmptyString.
Proof.
  intros Hc Hv. unfold validateLineNumber in Hv.
  destruct (n <? 1)%Z eqn:E1; [discriminate |].
  destruct (n >? Z.of_nat (List.length (split_lines code)) + 1)%Z eqn:E2;
    [discriminate |].
  apply Z.ltb_ge in E1. rewrite Z.gtb_ltb in E2. apply Z.ltb_ge in E2.
  unfold applyCodeModification. cbn [action lineNumber Lines.code].
  set (ls := split_lines code) in *.
  set (k := Z.to_nat (n - 1)).
  assert (Hk : k <= List.length ls) by (unfold k; lia).
  replace (n - 1)%Z with (Z.of_nat k) by (unfold k; lia).
  rewrite (splice_insert_valid k c ls Hk).
  eexists. split; [reflexivity |].
  assert (Hone : Forall (fun l => one_line l = true) (firstn k ls ++ c :: skipn k ls)).
  { pose proof (LinesFacts.split_lines_one_line code) as Hall. fold ls in Hall.
    apply Forall_app. split.
    - rewrite <- (firstn_skipn k ls) in Hall. now apply Forall_app in Hall.
    - constructor; [assumption |].
      rewrite <- (firstn_skipn k ls) in Hall. now apply Forall_app in Hall. }
  rewrite LinesFacts.split_join; [| destruct (firstn k ls); discriminate | assumption].
  split.
  - rewrite length_app. cbn [List.length]. rewrite length_firstn, length_skipn. lia.
  - intros i. destruct (Nat.ltb i k) eqn:Ei.
    + apply Nat.ltb_lt in Ei.
      rewrite app_nth1 by (rewrite length_firstn; lia).
      rewrite <- (firstn_skipn k ls) at 2.
      rewrite app_nth1 by (rewrite length_firstn; lia). reflexivity.
    + apply Nat.ltb_ge in Ei.
      rewrite app_nth2 by (rewrite length_firstn; lia).
      rewrite length_firstn, Nat.min_l by lia.
      destruct (Nat.eqb i k) eqn:Ek.
      * apply Nat.eqb_eq in Ek. subst i. now rewrite Nat.sub_diag.
      * apply Nat.eqb_neq in Ek.
        destruct (i - k) as [| d] eqn:Ed; [lia |]. cbn [nth].
        rewrite <- (firstn_skipn k ls) at 2.
        rewrite app_nth2 by (rewrite length_firstn; lia).
        rewrite length_firstn, Nat.min_l by lia.
        f_equal. lia.
Qed.

Lemma insert_shifts_following_lines_witness :
  exists r,
    applyCodeModification ("a" ++ nl ++ "b") (mkModification Insert 3 "c") = Some r
    /\ List.length (split_lines r) = S (List.length (split_lines ("a" ++ nl ++ "b")))
    /\ forall i,
         nth i (split_lines r) EmptyString
         = if Nat.ltb i (Z.to_nat (3 - 1))
           then nth i (split_lines ("a" ++ nl ++ "b")) EmptyString
           else if Nat.eqb i (Z.to_nat (3 - 1)) then "c"
           else nth (i - 1) (split_lines ("a" ++ nl ++ "b")) EmptyString.
Proof.
  apply (insert_shifts_following_lines ("a" ++ nl ++ "b") "c" 3); reflexivity.
Defined.

(** X3: a line number accepted by the validation is between 1 and the number
    of lines plus one; with it an insertion always succeeds, while a
    replacement throws exactly when the number is one past the last line. *)
Theorem validated_line_and_modification (code c : string) (n : Z) :
  isValid (validateLineNumber code n) = true ->
  (1 <= n <= Z.of_nat (List.length (split_lines code)) + 1)%Z
  /\ applyCodeModification code (mkModification Insert n c) <> None
  /\ (applyCodeModification code (mkModification Replace n c) = None
      <-> n = (Z.of_nat (List.length (split_lines code)) + 1)%Z).
Proof.
  intros Hv. unfold validateLineNumber in Hv.
  destruct (n <? 1)%Z eqn:E1; [discriminate |].
  destruct (n >? Z.of_nat (List.length (split_lines code)) + 1)%Z eqn:E2;
    [discriminate |].
  apply Z.ltb_ge in E1. rewrite Z.gtb_ltb in E2. apply Z.ltb_ge in E2.
  split; [lia |]. split; [discriminate |].
  unfold applyCodeModification. cbn [action lineNumber Lines.code].
  assert (H0 : (0 <=? n - 1)%Z = true) by (apply Z.leb_le; lia).
  rewrite H0. cbn [andb].
  destruct (n - 1 <? Z.of_nat (List.length (split_lines code)))%Z eqn:E3.
  - apply Z.ltb_lt in E3. split; [discriminate | lia].
  - apply Z.ltb_ge in E3. split; [lia | reflexivity].
Qed.

Lemma validated_line_and_modification_witness :
  (1 <= 3 <= Z.of_nat (List.length (split_lines ("a" ++ nl ++ "b"))) + 1)%Z
  /\ applyCodeModification ("a" ++ nl ++ "b") (mkModification Insert 3 "c") <> None
  /\ (applyCodeModification ("a" ++ nl ++ "b") (mkModification Replace 3 "c") = None
      <-> 3%Z = (Z.of_nat (List.length (split_lines ("a" ++ nl ++ "b"))) + 1)%Z).
Proof.
  apply (validated_line_and_modification ("a" ++ nl ++ "b") "c" 3). reflexivity.
Defined.

(** X4: in every comparison the three counters are the numbers of reported
    differences of each kind, so they add up to the number of differences. *)
Theorem comparison_stats_count_differences (original enhanced : string) :
  let c := generateComparison original enhanced in
  linesAdded (stats c) = count_type Addition (differences c)
  /\ linesRemoved (stats c) = count_type Deletion (differences c)
  /\ linesModified (stats c) = count_type Modification (differences c)
  /\ linesAdded (stats c) + linesRemoved (stats c) + linesModified (stats c)
     = List.length (differences c).
Proof.
  unfold generateComparison.
  set (o := split_lines original). set (e := split_lines enhanced).
  pose proof (CompareFacts.fold_counted o e
                (seq 0 (Nat.max (List.length o) (List.length e)))
                ([], mkStats 0 0 0)) as H.
  destruct (fold_left (compare_line o e) _ _) as [ds st].
  cbn [stats differences].
  destruct H as [Ha [Hr Hm]]; [repeat split |]. simpl in *.
  repeat split; try assumption.
  rewrite Ha, Hr, Hm. apply CompareFacts.count_types_total.
Qed.

(** X5: a comparison reports no difference exactly when the two texts have
    the same lines once the shorter one is padded with empty lines; a missing
    line and an empty line are not told apart. *)
Theorem comparison_empty_iff_same_padded_lines (original enhanced : string) :
  differences (generateComparison original enhanced) = []
  <-> forall i,
        line_or_empty (split_lines original) i
        = line_or_empty (split_lines enhanced) i.
Proof.
  unfold generateComparison.
  set (o := split_lines original). set (e := split_lines enhanced).
  destruct (CompareFacts.fold_appends o e
              (seq 0 (Nat.max (List.length o) (List.length e)))
              ([], mkStats 0 0 0)) as [more [Hfst Hiff]].
  destruct (fold_left (compare_line o e) _ _) as [ds st].
  cbn [differences]. simpl in Hfst. subst ds.
  rewrite Hiff. split.
  - intros H i.
    destruct (Nat.lt_ge_cases i (Nat.max (List.length o) (List.length e))) as [Hi | Hi].
    + apply H. apply in_seq. lia.
    + unfold line_or_empty. rewrite !nth_overflow by lia. reflexivity.
  - intros H i _. apply H.
Qed.

Lemma comparison_empty_iff_same_padded_lines_witness :
  differences (generateComparison "a" ("a" ++ nl)) = [].
Proof.
  apply (proj2 (comparison_empty_iff_same_padded_lines "a" ("a" ++ nl))).
  intros [| [| [| i]]]; reflexivity.
Defined.

(** X6: comparing in the other direction swaps the numbers of added and of
    removed lines and keeps the number of modified lines. *)
Theorem comparison_mirror (original enhanced : string) :
  linesAdded (stats (generateComparison original enhanced))
  = linesRemoved (stats (generateComparison enhanced original))
  /\ linesRemoved (stats (generateComparison original enhanced))
     = linesAdded (stats (generateComparison enhanced original))
  /\ linesModified (stats (generateComparison original enhanced))
     = linesModified (stats (generateComparison enhanced original)).
Proof.
  unfold generateComparison.
  set (o := split_lines original). set (e := split_lines enhanced).
  rewrite (Nat.max_comm (List.length e) (List.length o)).
  pose proof (CompareFacts.fold_mirrored o e
                (seq 0 (Nat.max (List.length o) (List.length e)))
                ([], mkStats 0 0 0) ([], mkStats 0 0 0)) as H.
  destruct (fold_left (compare_line o e) _ _) as [d1 s1].
  destruct (fold_left (compare_line e o) _ _) as [d2 s2].
  cbn [stats]. apply H. repeat split.
Qed.

(** X7: when the selected suggestions name pairwise different existing lines
    and each has a code, the result is the original text in which every named
    line is replaced by the code of its suggestion, and every other line is
    kept, also when a code spans several lines: applying from the highest
    line number down keeps the lower line numbers in place. *)
Theorem suggestions_replace_their_lines (code : string)
  (suggestions : list AICodeSuggestion) :
  forallb (targets_line (List.length (split_lines code)))
    (filter selected suggestions) = true ->
  distinct_lines (filter selected suggestions) = true ->
  applyPartialSuggestions code suggestions
  = join_lines (patch (filter selected suggestions) (split_lines code)).
Proof.
  intros Htarget Hdistinct. unfold applyPartialSuggestions.
  set (sel := filter selected suggestions) in *.
  set (B := split_lines code).
  pose proof (PartialFacts.sort_desc_perm sel) as Hperm.
  pose proof (PartialFacts.distinct_lines_NoDup sel Hdistinct) as Hnd.
  assert (HndS : NoDup (map line_or_zero (sort_desc sel))).
  { apply (Permutation_NoDup (Permutation_map line_or_zero (Permutation_sym Hperm)) Hnd). }
  assert (Hall : forall s, In s (sort_desc sel) ->
                   targets_line (List.length B) s = true).
  { intros s Hs. apply (Permutation_in _ Hperm) in Hs.
    rewrite forallb_forall in Htarget. now apply Htarget. }
  rewrite <- (LinesFacts.join_split code) at 1. fold B.
  rewrite PartialFacts.fold_apply_blocks.
  - f_equal. apply (nth_ext _ _ EmptyString EmptyString).
    + rewrite PartialFacts.fold_set_block_length. unfold patch.
      now rewrite PartialFacts.mapi_from_length.
    + intros i Hi. rewrite PartialFacts.fold_set_block_length in Hi.
      rewrite PartialFacts.fold_set_block_nth by assumption.
      unfold patch.
      rewrite (PartialFacts.mapi_from_nth _ B EmptyString EmptyString 0 i Hi).
      cbn [Nat.add].
      rewrite (PartialFacts.find_perm _ _ _ Hperm HndS). reflexivity.
  - apply PartialFacts.sort_desc_sorted.
  - assumption.
  - intros s Hs. split; [now apply Hall |].
    pose proof (LinesFacts.split_lines_one_line code) as Hone. fold B in Hone.
    rewrite <- (firstn_skipn (Z.to_nat (line_or_zero s)) B) in Hone.
    now apply Forall_app in Hone.
Qed.

Lemma suggestions_replace_their_lines_witness :
  applyPartialSuggestions ("a" ++ nl ++ "b" ++ nl ++ "c")
    [mkSuggestion "first" ("A1" ++ nl ++ "A2") (Some 1%Z) true;
     mkSuggestion "skipped" "X" (Some 2%Z) false;
     mkSuggestion "third" "C" (Some 3%Z) true]
  = join_lines
      (patch
         (filter selected
            [mkSuggestion "first" ("A1" ++ nl ++ "A2") (Some 1%Z) true;
             mkSuggestion "skipped" "X" (Some 2%Z) false;
             mkSuggestion "third" "C" (Some 3%Z) true])
         (split_lines ("a" ++ nl ++ "b" ++ nl ++ "c"))).
Proof.
  apply suggestions_replace_their_lines; reflexivity.
Defined.

(** X8: suggestions that are not selected, have no line number (or line 0)
    or have an empty code never change the text: when every suggestion of the
    list is of that kind, the original code is returned as it is. *)
Theorem ineffective_suggestions_keep_code (code : string)
  (suggestions : list AICodeSuggestion) :
  forallb (fun s => negb (selected s && effective s)) suggestions = true ->
  applyPartialSuggestions code suggestions = code.
Proof.
  intros H. unfold applyPartialSuggestions.
  assert (Hall : forall s, In s (sort_desc (filter selected suggestions)) ->
                   effective s = false).
  { intros s Hs.
    apply (Permutation_in _ (PartialFacts.sort_desc_perm _)) in Hs.
    apply filter_In in Hs. destruct Hs as [Hin Hsel].
    rewrite forallb_forall in H. specialize (H s Hin).
    rewrite Hsel in H. simpl in H. now apply negb_true_iff in H. }
  induction (sort_desc (filter selected suggestions)) as [| s S IH];
    [reflexivity |].
  cbn [fold_left].
  assert (Hs : apply_suggestion code s = code).
  { specialize (Hall s (or_introl eq_refl)).
    unfold apply_suggestion, effective in *.
    destruct (sugg_lineNumber s); [now rewrite Hall | reflexivity]. }
  rewrite Hs. apply IH. intros t Ht. apply Hall. now right.
Qed.

Lemma ineffective_suggestions_keep_code_witness :
  applyPartialSuggestions ("a" ++ nl ++ "b")
    [mkSuggestion "unselected" "X" (Some 1%Z) false;
     mkSuggestion "no line" "Y" None true;
     mkSuggestion "line zero" "Z" (Some 0%Z) true;
     mkSuggestion "no code" EmptyString (Some 2%Z) true]
  = "a" ++ nl ++ "b".
Proof.
  apply ineffective_suggestions_keep_code. reflexivity.
Defined.

(** X9: a single selected suggestion for a line past the end of the text
    does not fail: the text is padded with empty lines up to that line and
    the code becomes the last line. *)
Theorem suggestion_past_end_pads (code : string)
  (suggestions : list AICodeSuggestion) (s : AICodeSuggestion) (n : Z) :
  filter selected suggestions = [s] ->
  sugg_lineNumber s = Some n ->
  (Z.of_nat (List.length (split_lines code)) < n)%Z ->
  nonempty (sugg_code s) = true ->
  one_line (sugg_code s) = true ->
  split_lines (applyPartialSuggestions code suggestions)
  = (split_lines code
       ++ repeat EmptyString (Z.to_nat (n - 1) - List.length (split_lines code))
       ++ [sugg_code s])%list.
Proof.
  intros Hsel Hline Hn Hc Hone.
  unfold applyPartialSuggestions. rewrite Hsel.
  cbn [sort_desc fold_left insert_desc]. unfold apply_suggestion.
  rewrite Hline, Hc.
  assert (E : (n =? 0)%Z = false) by (apply Z.eqb_neq; lia).
  rewrite E. cbn [negb andb].
  replace (n - 1)%Z with (Z.of_nat (Z.to_nat (n - 1))) at 1 by lia.
  rewrite PartialFacts.array_set_nat. unfold Lines.aset.
  assert (E2 : (Z.to_nat (n - 1) <? List.length (split_lines code))%nat = false)
    by (apply Nat.ltb_ge; lia).
  rewrite E2.
  apply LinesFacts.split_join.
  - pose proof (LinesFacts.split_lines_length code).
    destruct (split_lines code); [simpl in *; lia | discriminate].
  - apply Forall_app. split; [apply LinesFacts.split_lines_one_line |].
    apply Forall_app. split.
    + apply Forall_forall. intros x Hx. apply repeat_spec in Hx. now subst.
    + now constructor.
Qed.

Lemma suggestion_past_end_pads_witness :
  split_lines
    (applyPartialSuggestions "a"
       [mkSuggestion "far" "z" (Some 4%Z) true;
        mkSuggestion "off" "y" (Some 1%Z) false])
  = (split_lines "a"
       ++ repeat EmptyString (Z.to_nat (4 - 1) - List.length (split_lines "a"))
       ++ ["z"])%list.
Proof.
  apply (suggestion_past_end_pads "a" _ (mkSuggestion "far" "z" (Some 4%Z) true) 4);
    reflexivity.
Defined.

(** X10: the numbered listing has exactly the lines of the code, in order:
    line i of the listing is the number i, right-aligned in three columns,
    the separator and line i of the code. *)
Theorem numbered_listing_keeps_lines (code : string) :
  List.length (split_lines (getCodeWithLineNumbers code))
  = List.length (split_lines code)
  /\ forall i, i < List.length (split_lines code) ->
       nth i (split_lines (getCodeWithLineNumbers code)) EmptyString
       = padStart 3 (Js.Number_toString (Z.of_nat (i + 1))) ++ " | "
           ++ nth i (split_lines code) EmptyString.
Proof.
  unfold getCodeWithLineNumbers.
  set (f := fun (line : string) (index : nat) =>
              padStart 3 (Js.Number_toString (Z.of_nat (index + 1))) ++ " | " ++ line).
  assert (Hsplit : split_lines (join_lines (mapi_from 0 f (split_lines code)))
                   = mapi_from 0 f (split_lines code)).
  { apply LinesFacts.split_join.
    - pose proof (LinesFacts.split_lines_length code).
      destruct (split_lines code); [simpl in *; lia | discriminate].
    - apply NumberFacts.mapi_from_one_line; [| apply LinesFacts.split_lines_one_line].
      intros l i Hl. unfold f.
      rewrite !NumberFacts.one_line_app, Hl.
      rewrite NumberFacts.one_line_padStart by apply NumberFacts.one_line_number.
      reflexivity. }
  rewrite Hsplit. split.
  - apply PartialFacts.mapi_from_length.
  - intros i Hi.
    rewrite (PartialFacts.mapi_from_nth f _ EmptyString EmptyString 0 i Hi).
    reflexivity.
Qed.

Lemma numbered_listing_keeps_lines_witness :
  nth 1 (split_lines (getCodeWithLineNumbers ("a" ++ nl ++ "b"))) EmptyString
  = padStart 3 (Js.Number_toString (Z.of_nat (1 + 1))) ++ " | "
      ++ nth 1 (split_lines ("a" ++ nl ++ "b")) EmptyString.
Proof.
  apply (proj2 (numbered_listing_keeps_lines ("a" ++ nl ++ "b")) 1).
  vm_compute. reflexivity.
Defined.

End LineEdits.

(** * The undo history *)

Module HistoryFacts.
Import History.

Lemma saveState_well_formed clock state description (h : t) :
  well_formed h ->
  well_formed (saveState (currentIndex h) clock state description h).
Proof.
  unfold well_formed, saveState. simpl. intros H.
  rewrite length_app, length_firstn. simpl. lia.
Qed.

(** A save with the callback of an earlier render, whose index is smaller:
    the history is cut behind that index while the index moves on, past the
    end. *)
Lemma saveState_stale (fallback : App.CodeState) (closureIndex : nat) clock
  state description (h : t) :
  well_formed h ->
  closureIndex < currentIndex h ->
  let h' := saveState closureIndex clock state description h in
  List.length (history h') = closureIndex + 2
  /\ List.length (history h') <= currentIndex h'
  /\ currentState fallback h' = fallback
  /\ canRedo h' = false.
Proof.
  intros Hwf Hlt. unfold well_formed in Hwf. cbv zeta. unfold saveState.
  cbn [history currentIndex].
  assert (Hlen : List.length (firstn (closureIndex + 1) (history h)
                                ++ [mkEntry (Js.Number_toString (now_ms clock)) state
                                      (now_iso clock) description])
                 = closureIndex + 2).
  { rewrite length_app, length_firstn. simpl. lia. }
  split; [exact Hlen |]. split; [lia |]. split.
  - unfold currentState. cbn [history currentIndex].
    destruct (nth_error _ (currentIndex h + 1)) eqn:E; [| reflexivity].
    assert (currentIndex h + 1 < closureIndex + 2).
    { rewrite <- Hlen. apply nth_error_Some. congruence. }
    lia.
  - unfold canRedo. cbn [history currentIndex]. apply Nat.ltb_ge. lia.
Qed.

Lemma undo_well_formed (h : t) : well_formed h -> well_formed (after h (undo h)).
Proof.
  unfold well_formed, undo. intros H.
  destruct (0 <? currentIndex h)%nat; [| assumption].
  destruct (nth_error (history h) (currentIndex h - 1)); simpl; lia.
Qed.

Lemma redo_well_formed (h : t) : well_formed h -> well_formed (after h (redo h)).
Proof.
  unfold well_formed, redo. intros H.
  destruct (currentIndex h + 1 <? List.length (history h))%nat eqn:E; [| assumption].
  apply Nat.ltb_lt in E.
  destruct (nth_error (history h) (currentIndex h + 1)); simpl; lia.
Qed.

Lemma perform_well_formed (c : call) (h : t) :
  from_latest_render c h = true -> well_formed h -> well_formed (perform c h).
Proof.
  destruct c; simpl; intros Hc.
  - apply Nat.eqb_eq in Hc. subst. apply saveState_well_formed.
  - apply undo_well_formed.
  - apply redo_well_formed.
Qed.

Lemma calls_well_formed (calls : list call) :
  forall h,
    all_from_latest_render calls h = true ->
    well_formed h ->
    well_formed (fold_left (fun h c => perform c h) calls h).
Proof.
  induction calls as [| c calls IH]; intros h Hc H; simpl; [assumption |].
  cbn [all_from_latest_render] in Hc. apply andb_true_iff in Hc.
  destruct Hc as [Hc Hrest].
  apply IH; [exact Hrest | now apply perform_well_formed].
Qed.

Lemma nth_error_in_range {A} (l : list A) (i : nat) :
  i < List.length l -> exists x, nth_error l i = Some x.
Proof.
  intros H. destruct (nth_error l i) eqn:E; [eauto |].
  apply nth_error_None in E. lia.
Qed.

Lemma undo_never_throws (h : t) : well_formed h -> throws (undo h) = false.
Proof.
  unfold well_formed, undo. intros H.
  destruct (0 <? currentIndex h)%nat; [| reflexivity].
  destruct (nth_error_in_range (history h) (currentIndex h - 1)) as [x ->];
    [lia | reflexivity].
Qed.

Lemma redo_never_throws (h : t) : throws (redo h) = false.
Proof.
  unfold redo.
  destruct (currentIndex h + 1 <? List.length (history h))%nat eqn:E; [| reflexivity].
  apply Nat.ltb_lt in E.
  destruct (nth_error_in_range (history h) (currentIndex h + 1)) as [x ->];
    [lia | reflexivity].
Qed.

Lemma currentState_entry (d : App.CodeState) (h : t) :
  well_formed h ->
  exists entry,
    nth_error (history h) (currentIndex h) = Some entry
    /\ currentState d h = entry_state entry.
Proof.
  intros H. destruct (nth_error_in_range (history h) (currentIndex h) H) as [x Hx].
  exists x. unfold currentState. now rewrite Hx.
Qed.


Lemma saveState_spec (fallback : App.CodeState) (clock : Clock)
  (state : App.CodeState) (description : string) (h : t) :
  well_formed h ->
  let h' := saveState (currentIndex h) clock state description h in
  history h'
    = (visible h ++ [mkEntry (Js.Number_toString (now_ms clock)) state
                       (now_iso clock) description])%list
  /\ canRedo h' = false
  /\ currentState fallback h' = state
  /\ returned (undo h') = Some (currentState fallback h).
Proof.
  intros Hwf h'. unfold well_formed in Hwf.
  destruct (currentState_entry fallback h Hwf) as [cur [Hcur Hst]].
  destruct h as [hs idx]. subst h'. unfold saveState, visible. simpl in *.
  assert (Hlen : List.length (firstn (idx + 1) hs) = idx + 1)
    by (rewrite length_firstn; lia).
  split; [reflexivity |]. split; [| split].
  - unfold canRedo. simpl. apply Nat.ltb_ge. rewrite length_app, Hlen. simpl. lia.
  - unfold currentState. simpl.
    rewrite nth_error_app2 by lia. rewrite Hlen, Nat.sub_diag. reflexivity.
  - unfold undo. simpl.
    assert (E : (0 <? idx + 1)%nat = true) by (apply Nat.ltb_lt; lia).
    rewrite E. replace (idx + 1 - 1) with idx by lia.
    rewrite nth_error_app1 by lia.
    rewrite nth_error_firstn.
    assert (E2 : (idx <? idx + 1)%nat = true) by (apply Nat.ltb_lt; lia).
    rewrite E2, Hcur. simpl. now rewrite Hst.
Qed.

End HistoryFacts.

Module EditorFacts.
Import History Editor.

Lemma settled_no_save (clock : Clock) (e : Editor.t) :
  currentState (buffers (app e)) (hist e) = buffers (app e) ->
  debouncedSave clock e = e.
Proof.
  intros H. unfold debouncedSave. rewrite H. simpl.
  now rewrite !String.eqb_refl.
Qed.

Lemma debouncedSave_settles (clock : Clock) (e : Editor.t) :
  well_formed (hist e) ->
  currentState (buffers (app (debouncedSave clock e))) (hist (debouncedSave clock e))
  = buffers (app (debouncedSave clock e)).
Proof.
  intros Hwf. unfold debouncedSave.
  set (cur := currentState (buffers (app e)) (hist e)).
  destruct (negb (App.html (app e) =? App.cs_html cur)%string
            || negb (App.css (app e) =? App.cs_css cur)%string
            || negb (App.javascript (app e) =? App.cs_javascript cur)%string) eqn:E.
  - unfold saveCodeHistory. cbn [app hist].
    apply (HistoryFacts.saveState_spec (buffers (app e)) clock (buffers (app e))
             "Code change" (hist e) Hwf).
  - apply orb_false_iff in E. destruct E as [E E3].
    apply orb_false_iff in E. destruct E as [E1 E2].
    apply negb_false_iff, String.eqb_eq in E1, E2, E3.
    subst cur. destruct (currentState (buffers (app e)) (hist e)) as [h c j].
    simpl in *. unfold buffers. congruence.
Qed.

Lemma buffers_restoreCode (c : App.CodeState) (s : App.AppState) :
  buffers (App.restoreCode (Some c) s) = c.
Proof. destruct c. reflexivity. Qed.

End EditorFacts.

Section CodeHistory.

(** * The undo history *)

Import History.

(** X11: as long as every [saveState] is called with the callback of the
    latest render, whatever calls of [saveState], [undo] and [redo] follow
    the initial state, the current index names an entry of the history; so
    neither [undo] nor [redo] reads an entry that is not there, and the
    current state is the state of an entry, never the fallback. *)
Theorem history_index_stays_valid (initialState fallback : App.CodeState)
  (clock : Clock) (calls : list call) :
  all_from_latest_render calls (initial initialState clock) = true ->
  let h := fold_left (fun h c => perform c h) calls (initial initialState clock) in
  well_formed h
  /\ throws (undo h) = false
  /\ throws (redo h) = false
  /\ exists entry,
       nth_error (history h) (currentIndex h) = Some entry
       /\ currentState fallback h = entry_state entry.
Proof.
  intros Hc h.
  assert (H : well_formed h).
  { apply HistoryFacts.calls_well_formed; [exact Hc |].
    unfold well_formed, initial. simpl. lia. }
  split; [assumption |].
  split; [now apply HistoryFacts.undo_never_throws |].
  split; [apply HistoryFacts.redo_never_throws |].
  now apply HistoryFacts.currentState_entry.
Qed.

Lemma history_index_stays_valid_witness :
  well_formed
    (fold_left (fun h c => perform c h)
       [SaveState 0 sample_clock (App.mkCodeState "<p>2</p>" "p {}" "let x;")
          "Code change";
        Undo;
        SaveState 0 sample_clock (App.mkCodeState "<p>3</p>" "p {}" "let x;")
          "Code change";
        Redo]
       (initial (App.mkCodeState "<p>1</p>" "p {}" "let x;") sample_clock)).
Proof.
  exact (proj1 (history_index_stays_valid
                  (App.mkCodeState "<p>1</p>" "p {}" "let x;")
                  (App.mkCodeState "f" "f" "f") sample_clock
                  [SaveState 0 sample_clock
                     (App.mkCodeState "<p>2</p>" "p {}" "let x;") "Code change";
                   Undo;
                   SaveState 0 sample_clock
                     (App.mkCodeState "<p>3</p>" "p {}" "let x;") "Code change";
                   Redo]
                  eq_refl)).
Defined.





Import Editor.

(** X14: the debounced save settles: once it has run, the current state of
    the history is the content of the three buffers, so a second run saves
    nothing; and after an undo or a redo that returned a state it saves
    nothing either, so that stepping back does not cut off what can be
    redone. *)
Theorem debounced_save_settles (clock1 clock2 : Clock) (e : Editor.t) :
  well_formed (hist e) ->
  debouncedSave clock2 (debouncedSave clock1 e) = debouncedSave clock1 e
  /\ (canUndo (hist e) = true ->
      debouncedSave clock1 (handleUndo e) = handleUndo e)
  /\ (canRedo (hist e) = true ->
      debouncedSave clock1 (handleRedo e) = handleRedo e).
Proof.
  intros Hwf. split; [| split].
  - apply EditorFacts.settled_no_save.
    now apply EditorFacts.debouncedSave_settles.
  - intros Hu. apply EditorFacts.settled_no_save.
    unfold handleUndo. cbn [app hist].
    unfold canUndo in Hu. unfold undo. rewrite Hu.
    apply Nat.ltb_lt in Hu. unfold well_formed in Hwf.
    destruct (HistoryFacts.nth_error_in_range (history (hist e))
                (currentIndex (hist e) - 1)) as [x Hx]; [lia |].
    rewrite Hx. cbn [returned after].
    rewrite EditorFacts.buffers_restoreCode.
    unfold currentState. cbn [history currentIndex]. now rewrite Hx.
  - intros Hr. apply EditorFacts.settled_no_save.
    unfold handleRedo. cbn [app hist].
    unfold canRedo in Hr. unfold redo. rewrite Hr.
    apply Nat.ltb_lt in Hr.
    destruct (HistoryFacts.nth_error_in_range (history (hist e))
                (currentIndex (hist e) + 1)) as [x Hx]; [lia |].
    rewrite Hx. cbn [returned after].
    rewrite EditorFacts.buffers_restoreCode.
    unfold currentState. cbn [history currentIndex]. now rewrite Hx.
Qed.

Lemma debounced_save_settles_witness :
  debouncedSave sample_clock (handleUndo sample_editor) = handleUndo sample_editor.
Proof.
  apply (proj1 (proj2 (debounced_save_settles sample_clock sample_clock sample_editor
                         ltac:(unfold well_formed; simpl; lia)))).
  reflexivity.
Defined.



(** X28: a snippet loaded from the terminal, which keeps the handlers of the
    render at which it was mounted, derails the history once states have been
    saved since.  The load cuts the history behind the index of that render
    and appends the buffers of that render, not the buffers of now; the index
    moves past the end of the history, so the debounced save records nothing
    for the loaded code.  An undo then does not give back what the buffers
    held before the load: one saved state after the mount, it puts the
    buffers of the mount render back; two or more, it throws on reading an
    entry that is not there. *)
Theorem terminal_load_derails_history (clock1 clock2 : Clock)
  (snippet : App.CodeSnippet) (mounted e : Editor.t) :
  well_formed (hist e) ->
  currentIndex (hist mounted) < currentIndex (hist e) ->
  let loaded := debouncedSave clock2 (loadSnippet mounted clock1 snippet e) in
  buffers (app loaded) = snippet_code snippet
  /\ List.length (history (hist loaded)) = currentIndex (hist mounted) + 2
  /\ currentIndex (hist loaded) = currentIndex (hist e) + 1
  /\ (currentIndex (hist e) = currentIndex (hist mounted) + 1 ->
      buffers (app (handleUndo loaded)) = buffers (app mounted))
  /\ (currentIndex (hist mounted) + 2 <= currentIndex (hist e) ->
      throws (undo (hist loaded)) = true).
Proof.
  intros Hwf Hlt loaded.
  set (e1 := loadSnippet mounted clock1 snippet e).
  set (ci := currentIndex (hist mounted)) in *.
  set (entry := mkEntry (Js.Number_toString (now_ms clock1)) (buffers (app mounted))
                  (now_iso clock1) ("Loaded snippet: " ++ App.snip_name snippet)).
  assert (Hh1 : hist e1
                = mkHistory (firstn (ci + 1) (history (hist e)) ++ [entry])
                    (currentIndex (hist e) + 1)) by reflexivity.
  destruct (HistoryFacts.saveState_stale (buffers (app e1)) ci clock1
              (buffers (app mounted)) ("Loaded snippet: " ++ App.snip_name snippet)
              (hist e) Hwf Hlt) as [Hlen [_ [Hcur _]]].
  assert (Hloaded : loaded = e1).
  { apply EditorFacts.settled_no_save. exact Hcur. }
  rewrite Hloaded. unfold well_formed in Hwf.
  assert (Hfirst : List.length (firstn (ci + 1) (history (hist e))) = ci + 1)
    by (rewrite length_firstn; lia).
  split; [reflexivity |]. split; [exact Hlen |]. split; [reflexivity |].
  split.
  - intros Hone. unfold handleUndo. rewrite Hh1. unfold undo.
    cbn [history currentIndex].
    assert (E : (0 <? currentIndex (hist e) + 1)%nat = true) by (apply Nat.ltb_lt; lia).
    rewrite E. replace (currentIndex (hist e) + 1 - 1) with (ci + 1) by lia.
    rewrite nth_error_app2 by lia. rewrite Hfirst, Nat.sub_diag.
    cbn [nth_error returned after app entry entry_state].
    apply EditorFacts.buffers_restoreCode.
  - intros Hmore. rewrite Hh1. unfold undo. cbn [history currentIndex].
    assert (E : (0 <? currentIndex (hist e) + 1)%nat = true) by (apply Nat.ltb_lt; lia).
    rewrite E.
    destruct (nth_error _ (currentIndex (hist e) + 1 - 1)) eqn:En; [| reflexivity].
    assert (currentIndex (hist e) + 1 - 1
            < List.length (firstn (ci + 1) (history (hist e)) ++ [entry])).
    { apply nth_error_Some. congruence. }
    rewrite length_app, Hfirst in H. simpl in H. lia.
Qed.

Lemma terminal_load_derails_history_witness :
  buffers (app (handleUndo
                  (debouncedSave sample_clock
                     (loadSnippet mounted_editor sample_clock Spec.sample_snippet
                        sample_editor))))
  = buffers (app mounted_editor).
Proof.
  apply (proj1 (proj2 (proj2 (proj2 (terminal_load_derails_history sample_clock
                         sample_clock Spec.sample_snippet mounted_editor sample_editor
                         ltac:(unfold well_formed; simpl; lia)
                         ltac:(simpl; lia)))))).
  reflexivity.
Defined.

End CodeHistory.

Module UploadFacts.
Import Upload.

Lemma split_on_two (c : ascii) (b ext : string) :
  exists t t' ts, Preview.split_on c (b ++ String c ext) = t :: t' :: ts.
Proof.
  induction b as [| x b IH]; cbn [String.append Preview.split_on].
  - rewrite Ascii.eqb_refl.
    destruct (LinesFacts.split_on_cons c ext) as [l [ls ->]]. eauto.
  - destruct IH as [t [t' [ts ->]]].
    destruct (Ascii.eqb x c); eauto.
Qed.

(** The last segment of a name is the last segment of what follows any of
    its separators. *)
Lemma last_split_after (c : ascii) (b ext d : string) :
  last (Preview.split_on c (b ++ String c ext)) d
  = last (Preview.split_on c ext) d.
Proof.
  induction b as [| x b IH]; cbn [String.append Preview.split_on].
  - rewrite Ascii.eqb_refl.
    destruct (LinesFacts.split_on_cons c ext) as [l [ls ->]]. reflexivity.
  - destruct (split_on_two c b ext) as [t [t' [ts H]]]. rewrite H in *.
    destruct (Ascii.eqb x c); exact IH.
Qed.

Lemma lower_char_idem (c : ascii) : App.lower_char (App.lower_char c) = App.lower_char c.
Proof. destruct c as [[] [] [] [] [] [] [] []]; reflexivity. Qed.

Lemma toLowerCase_idem (s : string) :
  App.toLowerCase (App.toLowerCase s) = App.toLowerCase s.
Proof.
  induction s as [| c s IH]; simpl; [reflexivity |].
  now rewrite lower_char_idem, IH.
Qed.

Lemma lower_char_dot (c : ascii) :
  Ascii.eqb (App.lower_char c) dot = Ascii.eqb c dot.
Proof. destruct c as [[] [] [] [] [] [] [] []]; reflexivity. Qed.

Lemma split_lower (s : string) :
  Preview.split_on dot (App.toLowerCase s)
  = map App.toLowerCase (Preview.split_on dot s).
Proof.
  induction s as [| c s IH]; [reflexivity |].
  cbn [App.toLowerCase Preview.split_on]. rewrite lower_char_dot, IH.
  destruct (Ascii.eqb c dot); [reflexivity |].
  destruct (Preview.split_on dot s); reflexivity.
Qed.

Lemma last_map {A B} (f : A -> B) (l : list A) (d : A) :
  last (map f l) (f d) = f (last l d).
Proof.
  induction l as [| x l IH]; [reflexivity |].
  destruct l; [reflexivity | exact IH].
Qed.

Lemma extension_lower (s : string) :
  App.toLowerCase (last (Preview.split_on dot (App.toLowerCase s)) EmptyString)
  = App.toLowerCase (last (Preview.split_on dot s) EmptyString).
Proof.
  rewrite split_lower.
  change EmptyString with (App.toLowerCase EmptyString) at 1.
  now rewrite last_map, toLowerCase_idem.
Qed.

End UploadFacts.

Module UploadLoop.
Import Upload.

Section Platform.
Variable blank : string -> bool.

Lemma validate_detect (file : File) :
  validateFile file = None -> detectLanguage (file_name file) <> None.
Proof.
  unfold validateFile.
  destruct (file_size file >? 1024 * 1024)%Z; [discriminate |].
  destruct (detectLanguage (file_name file)); discriminate.
Qed.

(** [processFile] lets exactly the accepted files through. *)
Lemma processFile_accepted (file : File) :
  match processFile blank file with
  | inr p =>
      accepted blank file = true
      /\ detectLanguage (file_name file) = Some (language p)
      /\ content p = file_text file /\ filename p = file_name file
  | inl _ => accepted blank file = false
  end.
Proof.
  unfold processFile, accepted, validateFile.
  rewrite Z.gtb_ltb, Z.leb_antisym.
  destruct (1024 * 1024 <? file_size file)%Z; [reflexivity |].
  destruct (detectLanguage (file_name file)) as [l |]; [| reflexivity].
  destruct (blank (file_text file)); simpl; auto.
Qed.

Lemma process_all_counts (files : list File) :
  List.length (fst (process_all blank files))
  + List.length (snd (process_all blank files))
  = List.length files.
Proof.
  induction files as [| f files IH]; [reflexivity |].
  cbn [process_all]. destruct (process_all blank files) as [ps es].
  destruct (processFile blank f); simpl in *; lia.
Qed.

Lemma process_all_filter (files : list File) :
  map (fun p => (filename p, content p)) (fst (process_all blank files))
  = map (fun f => (file_name f, file_text f)) (filter (accepted blank) files).
Proof.
  induction files as [| f files IH]; [reflexivity |].
  cbn [process_all filter]. destruct (process_all blank files) as [ps es].
  pose proof (processFile_accepted f) as H.
  destruct (processFile blank f) as [msg | p].
  - rewrite H. exact IH.
  - destruct H as [Ha [_ [Hc Hn]]]. rewrite Ha. simpl in *.
    now rewrite IH, Hc, Hn.
Qed.

Lemma process_all_forall2 (files : list File) :
  Forall2 of_file (filter (accepted blank) files) (fst (process_all blank files)).
Proof.
  induction files as [| f files IH]; [constructor |].
  cbn [process_all filter]. destruct (process_all blank files) as [ps es].
  pose proof (processFile_accepted f) as H.
  destruct (processFile blank f) as [msg | p].
  - rewrite H. exact IH.
  - destruct H as [Ha [Hl [Hc _]]]. rewrite Ha. constructor; [| exact IH].
    split; assumption.
Qed.

Lemma dispatch_apply_all (ps : list ProcessedFile) (s : App.AppState) :
  match dispatch ps with
  | Some a => App.step a s
  | None => s
  end = apply_all ps s.
Proof.
  destruct ps as [| p [| q ps]]; try reflexivity.
  unfold dispatch, apply_all. cbn [App.step]. unfold App.onMultipleUpload.
  generalize (p :: q :: ps). intros l. revert s.
  induction l as [| x l IH]; intros s; [reflexivity |].
  cbn [map fold_left]. apply IH.
Qed.

Lemma buffer_set (l l' : App.EditorLanguage) (code : string) (s : App.AppState) :
  buffer l (App.setCodeForLanguage l' code s)
  = if same_language l' l then code else buffer l s.
Proof. destruct l, l'; reflexivity. Qed.

Lemma apply_all_buffer (l : App.EditorLanguage) (ps : list ProcessedFile) :
  forall s,
    buffer l (apply_all ps s)
    = match find (fun p => same_language (language p) l) (rev ps) with
      | Some p => content p
      | None => buffer l s
      end.
Proof.
  unfold apply_all. induction ps as [| p ps IH] using rev_ind; intros s;
    [reflexivity |].
  rewrite fold_left_app, rev_app_distr. cbn [fold_left rev app find].
  rewrite buffer_set.
  destruct (same_language (language p) l); [reflexivity | apply IH].
Qed.

Lemma apply_all_logs (ps : list ProcessedFile) :
  forall s, App.consoleLogs (apply_all ps s) = App.consoleLogs s.
Proof.
  unfold apply_all. induction ps as [| p ps IH]; intros s; [reflexivity |].
  cbn [fold_left]. rewrite IH. destruct (language p); reflexivity.
Qed.

Lemma Forall2_reverse {A B} (R : A -> B -> Prop) (xs : list A) (ys : list B) :
  Forall2 R xs ys -> Forall2 R (rev xs) (rev ys).
Proof.
  induction 1 as [| x y xs ys Hxy _ IH]; [constructor |].
  cbn [rev]. apply Forall2_app; [exact IH | now constructor].
Qed.

Lemma find_rev_forall2 (l : App.EditorLanguage) (fs : list File)
  (ps : list ProcessedFile) (d : string) :
  Forall2 of_file fs ps ->
  match find (fun p => same_language (language p) l) (rev ps) with
  | Some p => content p
  | None => d
  end
  = match find (fun f => match detectLanguage (file_name f) with
                         | Some l' => same_language l' l
                         | None => false
                         end) (rev fs) with
    | Some f => file_text f
    | None => d
    end.
Proof.
  intros H. apply Forall2_reverse in H.
  induction H as [| f p fs' ps' [Hl Hc] _ IH]; [reflexivity |].
  cbn [find]. rewrite Hl. destruct (same_language (language p) l); auto.
Qed.

Lemma find_filter {A} (p q : A -> bool) (l : list A) :
  find p (filter q l) = find (fun x => q x && p x) l.
Proof.
  induction l as [| x l IH]; [reflexivity |].
  cbn [filter find]. destruct (q x); simpl; [| exact IH].
  destruct (p x); [reflexivity | exact IH].
Qed.

Lemma rev_filter {A} (q : A -> bool) (l : list A) :
  rev (filter q l) = filter q (rev l).
Proof.
  induction l as [| x l IH]; [reflexivity |].
  cbn [filter rev]. rewrite filter_app. cbn [filter].
  destruct (q x); cbn [rev]; rewrite IH; [reflexivity | now rewrite app_nil_r].
Qed.

Lemma upload_apply_all (files : list File) (s : App.AppState) :
  upload blank files s = apply_all (fst (process_all blank files)) s.
Proof.
  unfold upload, uploadFiles. destruct files as [| f files]; [reflexivity |].
  destruct (process_all blank (f :: files)) as [ps es]. cbn [dispatched fst].
  apply dispatch_apply_all.
Qed.

Lemma upload_buffer (l : App.EditorLanguage) (files : list File) (s : App.AppState) :
  buffer l (upload blank files s) = last_of blank l files (buffer l s).
Proof.
  rewrite upload_apply_all, apply_all_buffer.
  rewrite (find_rev_forall2 l _ _ (buffer l s) (process_all_forall2 files)).
  unfold last_of. rewrite rev_filter, find_filter. reflexivity.
Qed.

End Platform.
End UploadLoop.

Section FileUpload.

(** * File upload *)

Import Upload.

(** X16: the language of a file is decided by what follows the last dot of
    its name alone, whatever precedes it, and without regard to letter case;
    a name without a dot is taken as its own extension. *)
Theorem language_from_last_extension (base ext : string) :
  detectLanguage (base ++ "." ++ ext) = detectLanguage ext
  /\ detectLanguage (App.toLowerCase ext) = detectLanguage ext.
Proof.
  split.
  - unfold detectLanguage.
    change (base ++ "." ++ ext) with (base ++ String dot ext).
    now rewrite UploadFacts.last_split_after.
  - unfold detectLanguage.
    now rewrite UploadFacts.extension_lower.
Qed.

(** X17: every file of an upload is either processed or reported: the
    numbers of processed files and of error messages add up to the number of
    files, and the processed files are the accepted ones (at most 1 MiB, a
    known extension, a text that is not blank), in the order of the list, with
    their names and texts. *)
Theorem upload_accounts_for_every_file (blank : string -> bool)
  (files : list File) :
  List.length (fst (process_all blank files))
  + List.length (snd (process_all blank files))
  = List.length files
  /\ map (fun p => (filename p, content p)) (fst (process_all blank files))
     = map (fun f => (file_name f, file_text f)) (filter (accepted blank) files).
Proof.
  split.
  - apply UploadLoop.process_all_counts.
  - apply UploadLoop.process_all_filter.
Qed.

(** X18: after an upload each buffer holds the text of the last accepted
    file of its language, and is unchanged when there is no such file; this
    is so for one file and for several, and the console log is not touched. *)
Theorem upload_last_file_wins (blank : string -> bool) (files : list File)
  (s : App.AppState) :
  App.html (upload blank files s) = last_of blank App.LangHtml files (App.html s)
  /\ App.css (upload blank files s) = last_of blank App.LangCss files (App.css s)
  /\ App.javascript (upload blank files s)
     = last_of blank App.LangJavascript files (App.javascript s)
  /\ App.consoleLogs (upload blank files s) = App.consoleLogs s.
Proof.
  split; [| split; [| split]].
  - exact (UploadLoop.upload_buffer blank App.LangHtml files s).
  - exact (UploadLoop.upload_buffer blank App.LangCss files s).
  - exact (UploadLoop.upload_buffer blank App.LangJavascript files s).
  - rewrite UploadLoop.upload_apply_all. apply UploadLoop.apply_all_logs.
Qed.

End FileUpload.

Module AppFacts.

Lemma find_snoc {A} (p : A -> bool) (l : list A) (x : A) :
  find p (l ++ [x]) = match find p l with
                      | Some y => Some y
                      | None => if p x then Some x else None
                      end.
Proof.
  induction l as [| y l IH]; [reflexivity |].
  cbn [app find]. destruct (p y); [reflexivity | exact IH].
Qed.

Lemma Number_toString_eqb (a b : Z) :
  String.eqb (Js.Number_toString a) (Js.Number_toString b) = Z.eqb a b.
Proof.
  destruct (Z.eqb_spec a b) as [-> | Hne].
  - apply String.eqb_refl.
  - apply String.eqb_neq. intros H. apply Hne.
    now apply HostFacts.Number_toString_inj.
Qed.

(** What one action does to the log: it appends what it handles, or it
    empties the log. *)
Lemma step_logs (a : App.action) (s : App.AppState) :
  App.consoleLogs (App.step a s) = (App.consoleLogs s ++ Spec.appended a)%list
  \/ App.consoleLogs (App.step a s) = [].
Proof.
  destruct a; cbn [App.step Spec.appended].
  all: try (unfold App.loadSnippetByName;
            match goal with |- context [find ?f ?l] => destruct (find f l) end).
  all: try match goal with
           | language : App.EditorLanguage |- _ => destruct language
           | st : option App.CodeState |- _ => destruct st
           end.
  all: try rewrite onMultipleUpload_logs.
  all: try (first [ now right | left; simpl; now rewrite ?app_nil_r ]).
  unfold App.handleCommand.
  set (cmd := hd EmptyString
                (Preview.split_on Preview.space (App.toLowerCase command))).
  set (arg0 := nth 1 (Preview.split_on Preview.space (App.toLowerCase command))
                 EmptyString).
  destruct (String.eqb cmd "run"); [now right |].
  destruct (String.eqb cmd "clear"); [now right |]. left.
  repeat match goal with
         | |- context [if String.eqb ?x ?y then _ else _] =>
             destruct (String.eqb x y)
         end; simpl; now rewrite app_nil_r.
Qed.

Lemma skipn_all_app {A} (l r : list A) : skipn (List.length l) (l ++ r) = r.
Proof. induction l as [| x l IH]; [reflexivity | exact IH]. Qed.

Lemma skipn_add {A} (n m : nat) (l : list A) :
  skipn n (skipn m l) = skipn (m + n) l.
Proof.
  revert l. induction m as [| m IH]; intros l; [reflexivity |].
  destruct l as [| x l]; [now rewrite !skipn_nil | exact (IH l)].
Qed.

End AppFacts.

Module SnippetFacts.
Import Snippets.

Lemma stem_char (c : ascii) :
  is_stem_char (App.lower_char (if is_alnum c then c else underscore)) = true.
Proof. destruct c as [[] [] [] [] [] [] [] []]; reflexivity. Qed.

Lemma stem_char_fixed (c : ascii) :
  is_stem_char c = true ->
  App.lower_char (if is_alnum c then c else underscore) = c.
Proof. destruct c as [[] [] [] [] [] [] [] []]; intros H; try reflexivity; discriminate H. Qed.

End SnippetFacts.

Section SnippetsAndCommands.
Import Snippets.

(** * Snippets and commands of the host *)

(** X19: the terminal keeps the snippet handlers of the render at which it
    was mounted.  After any saves from the terminal the snippet list is the
    list stored at mount followed by the last saved snippet alone: earlier
    terminal saves, and whatever was saved since the mount, are gone.  A load
    from the terminal by the name just saved never loads the saved snippet:
    it loads the first snippet of that name stored at mount, or nothing. *)
Theorem terminal_snippets_are_mount_time (mounted : list App.CodeSnippet)
  (saves : list SnippetSave) (x : SnippetSave) (s : App.AppState) :
  let s' := terminal_saves mounted (saves ++ [x]) s in
  let loaded := terminal_load mounted (save_name x) s' in
  App.snippets s' = (mounted ++ [saved x])%list
  /\ (App.html loaded, App.css loaded, App.javascript loaded)
     = match find (fun y => String.eqb (App.snip_name y) (save_name x)) mounted with
       | Some old => (App.snip_html old, App.snip_css old, App.snip_javascript old)
       | None => (App.html s, App.css s, App.javascript s)
       end
  /\ App.snippets loaded = (mounted ++ [saved x])%list.
Proof.
  cbv zeta.
  assert (Hb : forall xs t,
             App.html (terminal_saves mounted xs t) = App.html t
             /\ App.css (terminal_saves mounted xs t) = App.css t
             /\ App.javascript (terminal_saves mounted xs t) = App.javascript t).
  { induction xs as [| y xs IH]; intros t; [now repeat split |].
    unfold terminal_saves in *. cbn [fold_left]. now rewrite !(proj1 (IH _)),
      !(proj1 (proj2 (IH _))), !(proj2 (proj2 (IH _))). }
  assert (Hs : App.snippets (terminal_saves mounted (saves ++ [x]) s)
               = (mounted ++ [saved x])%list).
  { unfold terminal_saves. rewrite fold_left_app. reflexivity. }
  destruct (Hb (saves ++ [x])%list s) as [Hh [Hc Hj]].
  split; [exact Hs |].
  unfold terminal_load, App.loadSnippetByName.
  destruct (find _ mounted) as [old |].
  - split; [reflexivity | exact Hs].
  - split; [now rewrite Hh, Hc, Hj | exact Hs].
Qed.

(** X20: deleting by id removes every snippet that carries the id.  Through
    the sidebar, whose handlers are those of the latest render: of two
    snippets saved one after the other, deleting the second by its id also
    removes the first when both were saved within one millisecond, and keeps
    the first otherwise; the snippets stored before lose exactly those with
    that id. *)
Theorem delete_removes_every_snippet_of_id (x1 x2 : SnippetSave)
  (s : App.AppState) :
  Js.safe_integer (save_now x1) = true ->
  Js.safe_integer (save_now x2) = true ->
  App.snippets
    (sidebar_delete (Js.Number_toString (save_now x2))
       (sidebar_save x2 (sidebar_save x1 s)))
  = (filter (fun y => negb (String.eqb (App.snip_id y)
                              (Js.Number_toString (save_now x2))))
       (App.snippets s)
     ++ (if Z.eqb (save_now x1) (save_now x2) then [] else [saved x1]))%list.
Proof.
  intros _ _.
  unfold sidebar_delete, sidebar_save, App.deleteSnippet, App.saveSnippet, saved.
  cbn [App.setSnippets App.snippets].
  rewrite !filter_app. cbn [filter App.snip_id].
  rewrite String.eqb_refl, AppFacts.Number_toString_eqb.
  destruct (Z.eqb (save_now x1) (save_now x2)); cbn [negb]; now rewrite ?app_nil_r.
Qed.

Lemma delete_removes_every_snippet_of_id_witness :
  App.snippets
    (sidebar_delete "1700000000000"
       (sidebar_save (mkSave 1700000000000 "b" "<b>" "b {}" "b()")
          (sidebar_save (mkSave 1700000000000 "a" "<a>" "a {}" "a()")
             (App.initial [Spec.sample_snippet] true))))
  = [Spec.sample_snippet].
Proof.
  exact (delete_removes_every_snippet_of_id
           (mkSave 1700000000000 "a" "<a>" "a {}" "a()")
           (mkSave 1700000000000 "b" "<b>" "b {}" "b()")
           (App.initial [Spec.sample_snippet] true) eq_refl eq_refl).
Defined.

(** X21: whatever the host does, the console log is an end piece of the
    records handed to [handleConsoleLog] so far: after any sequence of
    actions it is the starting log followed by the handled records, in their
    order, with some number of the oldest dropped.  No record is invented,
    changed or reordered. *)
Theorem log_is_end_of_handled_records (acts : list App.action) (s : App.AppState) :
  exists k,
    App.consoleLogs (App.run acts s)
    = skipn k (App.consoleLogs s ++ flat_map Spec.appended acts)%list.
Proof.
  unfold App.run. revert s.
  induction acts as [| a acts IH]; intros s.
  - exists 0. cbn. now rewrite app_nil_r.
  - cbn [fold_left flat_map]. destruct (IH (App.step a s)) as [k Hk].
    rewrite Hk. destruct (AppFacts.step_logs a s) as [H | H]; rewrite H.
    + exists k. now rewrite <- app_assoc.
    + exists (List.length (App.consoleLogs s ++ Spec.appended a) + k).
      rewrite <- AppFacts.skipn_add, app_assoc, AppFacts.skipn_all_app.
      reflexivity.
Qed.

(** X22: a terminal command of the host never writes a code buffer or the
    snippet list, and is read without regard to letter case. *)
Theorem command_keeps_code (command : string) (s : App.AppState) :
  App.html (App.handleCommand command s) = App.html s
  /\ App.css (App.handleCommand command s) = App.css s
  /\ App.javascript (App.handleCommand command s) = App.javascript s
  /\ App.snippets (App.handleCommand command s) = App.snippets s
  /\ App.handleCommand (App.toLowerCase command) s = App.handleCommand command s.
Proof.
  assert (H : App.handleCommand (App.toLowerCase command) s
              = App.handleCommand command s).
  { unfold App.handleCommand. now rewrite UploadFacts.toLowerCase_idem. }
  unfold App.handleCommand in *.
  repeat match goal with
         | |- context [if String.eqb ?x ?y then _ else _] =>
             destruct (String.eqb x y)
         end; repeat split; exact H.
Qed.

(** * The download name of a snippet *)


(** X23: the file name under which a snippet is exported has as many
    characters before [.json] as the snippet's name, all of them lower-case
    letters, digits or underscores, and making the stem of a stem changes
    nothing. *)
Theorem download_stem_is_safe (name : string) :
  String.length (download_stem name) = String.length name
  /\ all_chars is_stem_char (download_stem name) = true
  /\ download_stem (download_stem name) = download_stem name.
Proof.
  assert (Hsafe : forall n, all_chars is_stem_char (download_stem n) = true).
  { induction n as [| c n IH]; [reflexivity |].
    cbn. change (all_chars is_stem_char (download_stem n)) with
      (all_chars is_stem_char (App.toLowerCase (replace_non_alnum n))) in IH.
    rewrite IH. now rewrite SnippetFacts.stem_char. }
  assert (Hfix : forall n, all_chars is_stem_char n = true -> download_stem n = n).
  { induction n as [| c n IH]; [reflexivity |].
    cbn [all_chars]. intros H. apply andb_true_iff in H. destruct H as [Hc Hn].
    unfold download_stem in *. cbn [replace_non_alnum App.toLowerCase].
    now rewrite (SnippetFacts.stem_char_fixed c Hc), (IH Hn). }
  split; [| split; [apply Hsafe | apply Hfix, Hsafe]].
  induction name as [| c n IH]; [reflexivity |].
  unfold download_stem in *. cbn. now rewrite IH.
Qed.

End SnippetsAndCommands.

Module RelayFacts.
Import Js Sandbox Host Relay.

Lemma arg_text_no_reference (h : heap) (a : value) :
  no_reference a = true -> arg_text h a = Some (String_ a).
Proof. destruct a as [| | [|] | | |]; try reflexivity; discriminate. Qed.

Lemma texts_no_reference (h : heap) (args : list value) :
  forallb (fun v => no_reference v && safe_value v) args = true ->
  Forall2 (fun a t => arg_text h a = Some t) args (map String_ args).
Proof.
  induction args as [| a args IH]; cbn [forallb map]; intros H; constructor.
  - apply andb_true_iff in H. destruct H as [H _].
    apply andb_true_iff in H. now apply arg_text_no_reference.
  - apply andb_true_iff in H. now apply IH.
Qed.

(** One call whose arguments are no references: what it leaves. *)
Lemma console_call (m : LogLevel) (args : list value) (sb : sandbox) :
  forallb (fun v => no_reference v && safe_value v) args = true ->
  let h' := (sb_heap sb ++ [Spec.relay_payload (VStr (level_name m))
                              (VStr (call_text args)) (sb_now sb)])%list in
  console m args sb
  = (Return tt,
     mkSandbox h' (sb_now sb)
       (sb_out sb ++ [NativeConsole m args;
                      PostMessage (VRef (List.length (sb_heap sb))) h' "*"])%list).
Proof.
  intros H. cbv zeta. rewrite SandboxFacts.console_run.
  pose (sb1 := mkSandbox (sb_heap sb) (sb_now sb)
                 (sb_out sb ++ [NativeConsole m args])%list).
  fold sb1.
  rewrite (SandboxFacts.Array_map_texts args sb1 (map String_ args)
             (texts_no_reference (sb_heap sb1) args H)).
  rewrite SandboxFacts.sendToParent_run, SandboxFacts.join_texts.
  cbn [sb1 sb_heap sb_now sb_out]. now rewrite <- app_assoc.
Qed.

Lemma relay_logged (h : heap) (m : LogLevel) (text ts : string) (now : Z) :
  handleMessage now
    (deliver (VRef (List.length h),
              (h ++ [Spec.relay_payload (VStr (level_name m)) (VStr text) ts])%list))
  = Logged (mkConsoleLog (Number_toString now) (VStr (level_name m))
              (VStr text) (VStr ts)).
Proof.
  unfold handleMessage, deliver, get. cbn [data graph fst snd].
  rewrite JsFacts.lookup_alloc. reflexivity.
Qed.

Lemma js_calls_run (calls : list Call) :
  forall sb,
    primitive_calls calls = true ->
    exists sb' msgs,
      js_calls calls sb = (Return tt, sb')
      /\ posted (sb_out sb') = (posted (sb_out sb) ++ msgs)%list
      /\ Forall2 logs_as msgs calls.
Proof.
  induction calls as [| c calls IH]; intros sb H.
  - exists sb, []. cbn. rewrite app_nil_r. repeat split. constructor.
  - cbn [primitive_calls forallb] in H. apply andb_true_iff in H.
    destruct H as [Hargs Hrest].
    cbn [js_calls]. unfold bind, elapse.
    rewrite (console_call (call_level c) (call_args c) _ Hargs).
    match goal with
    | |- context [js_calls calls ?sb1] =>
        destruct (IH sb1 Hrest) as [sb' [msgs [Hrun [Hposted Hlogs]]]]
    end.
    cbn [sb_now sb_out sb_heap] in *.
    eexists sb', (_ :: msgs). split; [exact Hrun |].
    split.
    + rewrite Hposted, SandboxFacts.posted_app. cbn [posted].
      rewrite <- app_assoc. reflexivity.
    + constructor; [| exact Hlogs].
      intros now. unfold record. apply relay_logged.
Qed.

Lemma receive_all_logged (msgs : list (value * heap)) (calls : list Call) :
  Forall2 logs_as msgs calls ->
  forall nows s,
    App.consoleLogs (App.receive_all (combine nows (map deliver msgs)) s)
    = (App.consoleLogs s ++ map record (combine nows calls))%list.
Proof.
  induction 1 as [| msg c msgs calls Hlog _ IH]; intros nows s.
  - destruct nows; cbn; now rewrite app_nil_r.
  - destruct nows as [| now nows]; [cbn; now rewrite app_nil_r |].
    cbn [map combine App.receive_all]. unfold App.receive at 1.
    rewrite (Hlog now), IH.
    cbn [App.handleConsoleLog App.setConsoleLogs App.consoleLogs].
    now rewrite <- app_assoc.
Qed.

End RelayFacts.

Module ThrowFacts.
Import Js Sandbox Host Relay RelayFacts.

(** The guarded block around a script that throws an [Error] after its
    calls: the calls' messages, then one relay of the error's message. *)
Lemma guarded_calls_then_throw (calls : list Call) (time msg : string)
  (sb : sandbox) :
  primitive_calls calls = true ->
  exists sb' msgs,
    guarded (js_calls_then_throw calls time msg) sb = (Return tt, sb')
    /\ posted (sb_out sb') = (posted (sb_out sb) ++ msgs)%list
    /\ Forall2 logs_as msgs (calls ++ [mkCall time Error [VStr msg]])%list.
Proof.
  intros H.
  destruct (js_calls_run calls sb H) as [sb1 [msgs [Hrun [Hposted Hlogs]]]].
  unfold guarded, try_catch, js_calls_then_throw, js_throw_new_Error, throw_new,
    bind, alloc, throw, elapse.
  rewrite Hrun. unfold get_property, get. cbn [sb_heap].
  rewrite JsFacts.lookup_alloc. cbn [String.eqb Ascii.eqb Bool.eqb].
  rewrite SandboxFacts.sendToParent_run. cbn [sb_heap sb_now sb_out].
  eexists _, (msgs ++ [_])%list. split; [reflexivity |]. split.
  - cbn [sb_out]. rewrite SandboxFacts.posted_app, Hposted. cbn [posted].
    now rewrite <- app_assoc.
  - apply Forall2_app; [exact Hlogs |]. constructor; [| constructor].
    intros now. unfold record, call_text.
    cbn [map String.concat String_ call_level call_args call_time].
    apply (relay_logged _ Error).
Qed.

End ThrowFacts.

Section ScriptRelay.

(** * From the script to the console panel *)

Import Js Sandbox Host Relay.

(** X24: a script that calls console methods one after the other, with
    arguments that are [undefined], [null], booleans, safe integers or
    strings, reaches the console panel call by call: the host appends one
    record for each delivered message, in the order of the calls, with the
    method's name as level, the arguments' string forms joined by single
    spaces as text and the reading of the frame's clock at that call as time
    stamp; the id of a record is the reading of the host clock at its
    receipt.  The guarded block relays nothing more. *)
Theorem script_calls_reach_the_log (report : heap -> value -> ErrorEvent)
  (calls : list Call) (h : heap) (ts : string)
  (nows : list Z) (s : App.AppState) :
  primitive_calls calls = true ->
  forallb safe_integer nows = true ->
  App.consoleLogs
    (App.receive_all
       (arrivals nows (run_script report (js_calls calls) (mkSandbox h ts []))) s)
  = (App.consoleLogs s ++ map record (combine nows calls))%list.
Proof.
  intros H _.
  destruct (RelayFacts.js_calls_run calls (mkSandbox h ts []) H)
    as [sb' [msgs [Hrun [Hposted Hlogs]]]].
  unfold run_script, arrivals.
  rewrite (SandboxFacts.guarded_return _ _ _ Hrun), Hposted.
  cbn [sb_out posted app sb_now] in *.
  now apply RelayFacts.receive_all_logged.
Qed.

Lemma script_calls_reach_the_log_witness :
  App.consoleLogs
    (App.receive_all
       (arrivals [5%Z; 6%Z]
          (run_script Spec.chromium_report
             (js_calls [mkCall "t1" Log [VStr "a"; VNum 1];
                        mkCall "t2" Warn [VBool true; VNull]])
             (mkSandbox [] "t0" []))) (App.initial [] true))
  = [mkConsoleLog "5" (VStr "log") (VStr "a 1") (VStr "t1");
     mkConsoleLog "6" (VStr "warn") (VStr "true null") (VStr "t2")].
Proof.
  exact (script_calls_reach_the_log Spec.chromium_report
           [mkCall "t1" Log [VStr "a"; VNum 1];
            mkCall "t2" Warn [VBool true; VNull]]
           [] "t0" [5%Z; 6%Z] (App.initial [] true) eq_refl eq_refl).
Defined.

(** X25: a script that throws [new Error(msg)] after its console calls,
    the arguments of which are [undefined], [null], booleans, safe integers
    or strings, is shown in the console panel exactly as if it had ended with
    [console.error(msg)]: the records of the calls made before the throw are
    kept, in order, and the error's message follows as one record of level
    [error], stamped with the reading of the frame's clock in the [catch]
    clause. *)
Theorem throw_after_calls_is_last_record (report : heap -> value -> ErrorEvent)
  (calls : list Call) (time msg : string) (h : heap) (ts : string)
  (nows : list Z) (s : App.AppState) :
  primitive_calls calls = true ->
  forallb safe_integer nows = true ->
  App.consoleLogs
    (App.receive_all
       (arrivals nows
          (run_script report (js_calls_then_throw calls time msg)
             (mkSandbox h ts [])))
       s)
  = (App.consoleLogs s
     ++ map record (combine nows (calls ++ [mkCall time Error [VStr msg]])))%list.
Proof.
  intros H _.
  destruct (ThrowFacts.guarded_calls_then_throw calls time msg (mkSandbox h ts []) H)
    as [sb' [msgs [Hrun [Hposted Hlogs]]]].
  unfold run_script, arrivals. rewrite Hrun, Hposted.
  cbn [sb_out posted app sb_now] in *.
  now apply RelayFacts.receive_all_logged.
Qed.

Lemma throw_after_calls_is_last_record_witness :
  App.consoleLogs
    (App.receive_all
       (arrivals [5%Z; 6%Z]
          (run_script Spec.chromium_report
             (js_calls_then_throw [mkCall "t1" Info [VStr "start"]] "t2" "boom")
             (mkSandbox [] "t0" []))) (App.initial [] true))
  = [mkConsoleLog "5" (VStr "info") (VStr "start") (VStr "t1");
     mkConsoleLog "6" (VStr "error") (VStr "boom") (VStr "t2")].
Proof.
  exact (throw_after_calls_is_last_record Spec.chromium_report
           [mkCall "t1" Info [VStr "start"]] "t2" "boom" [] "t0" [5%Z; 6%Z]
           (App.initial [] true) eq_refl eq_refl).
Defined.

End ScriptRelay.

Module AutoSaveFacts.
Import AutoSave.

Lemma substring_zero (s : string) : String.substring 0 0 s = EmptyString.
Proof. destruct s; reflexivity. Qed.

(** The first sixteen characters of the encoding are those of the encoding
    of the first twelve bytes. *)
Lemma encode_prefix (s : list N) :
  String.substring 0 16 (encode s)
  = String.substring 0 16 (encode (firstn 12 s)).
Proof.
  do 12 (destruct s as [| ? s]; [reflexivity |]).
  cbn [encode String.substring firstn]. rewrite !substring_zero. reflexivity.
Qed.

Lemma content_hash_value (h c j : text) :
  createContentHash h c j
  = if forallb latin1 (h ++ c ++ j)%list
    then Some (String.substring 0 16 (encode (firstn 12 (h ++ c ++ j)%list)))
    else None.
Proof.
  unfold createContentHash, btoa.
  destruct (forallb latin1 (h ++ c ++ j)%list); [| reflexivity].
  cbn [option_map]. now rewrite encode_prefix.
Qed.

End AutoSaveFacts.

Section AutomaticSaving.

(** * Automatic saving *)

Import AutoSave.

(** X26: the content hash that decides whether an automatic save is due
    throws when any of the three buffers holds a character above U+00FF;
    otherwise it reads the first twelve characters of the buffers joined
    (HTML, then CSS, then JavaScript) and nothing after them. *)
Theorem content_hash_reads_twelve_characters (h c j : text) :
  createContentHash h c j
  = if forallb latin1 (h ++ c ++ j)%list
    then Some (String.substring 0 16 (encode (firstn 12 (h ++ c ++ j)%list)))
    else None.
Proof. exact (AutoSaveFacts.content_hash_value h c j). Qed.

(** X27: once an automatic save has run, an edit that leaves the first
    twelve characters of the joined buffers as they were is not saved
    automatically, the buffers holding no character above U+00FF: the next
    [performAutoSave] calls [saveCodeFile] for no buffer and leaves the
    hook's cells as they are. *)
Theorem edit_after_twelve_characters_is_not_saved (blank : text -> bool)
  (saveCodeFile : SaveCall -> bool) (ts title ts' title' : string)
  (h c j h' c' j' : text) (st : t) :
  (forall call, saveCodeFile call = true) ->
  forallb latin1 (h ++ c ++ j)%list = true ->
  forallb latin1 (h' ++ c' ++ j')%list = true ->
  firstn 12 (h ++ c ++ j)%list = firstn 12 (h' ++ c' ++ j')%list ->
  let st1 :=
    cells_after (performAutoSave blank saveCodeFile true true ts title h c j st) st in
  createContentHash h c j = Some (lastContentRef st1)
  /\ performAutoSave blank saveCodeFile true true ts' title' h' c' j' st1
     = Fulfilled [] st1.
Proof.
  intros Hok Hl Hl' Hpre. cbv zeta.
  assert (Hdone : forall calls, snd (save_each saveCodeFile calls) = true).
  { induction calls as [| x calls IH]; [reflexivity |].
    cbn [save_each]. rewrite Hok.
    destruct (save_each saveCodeFile calls). exact IH. }
  pose proof (AutoSaveFacts.content_hash_value h c j) as Hh. rewrite Hl in Hh.
  pose proof (AutoSaveFacts.content_hash_value h' c' j') as Hh'.
  rewrite Hl', <- Hpre in Hh'.
  set (hash := String.substring 0 16 (encode (firstn 12 (h ++ c ++ j)%list))) in *.
  assert (Href : lastContentRef
                   (cells_after
                      (performAutoSave blank saveCodeFile true true ts title h c j st)
                      st)
                 = hash).
  { unfold performAutoSave. cbn [negb orb]. rewrite Hh.
    destruct (String.eqb_spec hash (lastContentRef st)) as [E | E].
    - now rewrite E.
    - specialize (Hdone (wanted blank title h c j)).
      destruct (save_each saveCodeFile (wanted blank title h c j)) as [made done].
      cbn [snd] in Hdone. rewrite Hdone. reflexivity. }
  split; [now rewrite Href |].
  unfold performAutoSave at 1. cbn [negb orb].
  rewrite Hh', Href, String.eqb_refl. reflexivity.
Qed.

Lemma edit_after_twelve_characters_is_not_saved_witness :
  let st1 :=
    cells_after
      (performAutoSave (fun x => forallb (N.eqb 32) x) (fun _ => true) true true
         "t1" "Auto-save 1" (text_of "<div>hello world</div>") (text_of "p { }") []
         (mkAutoSave EmptyString None))
      (mkAutoSave EmptyString None) in
  createContentHash (text_of "<div>hello world</div>") (text_of "p { }") []
  = Some (lastContentRef st1)
  /\ performAutoSave (fun x => forallb (N.eqb 32) x) (fun _ => true) true true
       "t2" "Auto-save 2" (text_of "<div>hello wide web</div>")
       (text_of "p { color: red }") (text_of "alert(1)") st1
     = Fulfilled [] st1.
Proof.
  exact (edit_after_twelve_characters_is_not_saved (fun x => forallb (N.eqb 32) x)
           (fun _ => true) "t1" "Auto-save 1" "t2" "Auto-save 2"
           (text_of "<div>hello world</div>") (text_of "p { }") []
           (text_of "<div>hello wide web</div>") (text_of "p { color: red }")
           (text_of "alert(1)")
           (mkAutoSave EmptyString None) (fun _ => eq_refl) eq_refl eq_refl eq_refl).
Defined.

(** X29: buffers that hold a character above U+00FF, anywhere, are never
    saved automatically: with a user signed in and automatic saving enabled,
    [performAutoSave] ends in the error of [btoa] before it calls
    [saveCodeFile] or writes a cell, whatever the cells hold. *)
Theorem text_above_latin1_is_never_saved (blank : text -> bool)
  (saveCodeFile : SaveCall -> bool) (ts title : string) (h c j : text) (st : t) :
  forallb latin1 (h ++ c ++ j)%list = false ->
  performAutoSave blank saveCodeFile true true ts title h c j st = Rejected.
Proof.
  intros H. unfold performAutoSave. cbn [negb orb].
  now rewrite AutoSaveFacts.content_hash_value, H.
Qed.

Lemma text_above_latin1_is_never_saved_witness :
  performAutoSave (fun x => forallb (N.eqb 32) x) (fun _ => true) true true
    "t1" "Auto-save 1" (text_of "<p>5 " ++ [8364%N] ++ text_of "</p>")%list
    (text_of "p { }") [] (mkAutoSave EmptyString None)
  = Rejected.
Proof.
  exact (text_above_latin1_is_never_saved (fun x => forallb (N.eqb 32) x)
           (fun _ => true) "t1" "Auto-save 1"
           (text_of "<p>5 " ++ [8364%N] ++ text_of "</p>")%list (text_of "p { }") []
           (mkAutoSave EmptyString None) eq_refl).
Defined.

End AutomaticSaving.
